(* ===== verification/_CoqProject ===== *)
-Q . S2P
Prelude.v
Utf8.v
Input.v
Arena.v
Array.v
Loader.v
Storage.v
Terminal.v
Frame.v
Render.v
Editor.v
System.v
Resize.v
Process.v
Stdio.v
