(* ===== verification/Prelude.v ===== *)
(** * A verification development of [red], a minimal terminal text viewer

    The program (five files under src/) loads one file into an arena,
    paints it into a frame of glyphs and keeps a terminal showing that
    frame, reading keys until ['q'].  Its parts, leaves first, and how
    they interact:

    - Codec ([src/common.cpp]: [utf32_to_8], [utf8_to_32]): stateless
      UTF-8 encoding and decoding, used by the loader, the input decoder
      and the renderer.
    - Arena ([src/red_linux.cpp]: [mem_alloc_zeroed], [mem_realloc_zeroed]):
      a bump allocator over a static 640 KiB buffer, with grow-in-place of
      the most recent block; every other component keeps its data in it.
    - Growable array ([src/editor.cpp]: [array_ensure],
      [array_append_many], [array_append]): the text region.
    - Loader ([src/editor.cpp]: [ed_load_file_region]): decodes the mapped
      file with the codec, normalises line endings, appends to the region.
    - Frames ([src/platform.h]: [Text_Glyph], [Frame]; [src/editor.cpp]:
      [ed_pf_clear], [ed_pf_put]; [src/red_linux.cpp]: [frame_resize]).
    - Editor ([src/editor.cpp]: [editor_init], [editor_frame]): drains the
      event queue and paints the region into the [back] frame.
    - Renderer ([src/red_linux.cpp]: [display], [set_term_cursor],
      [frame_resize_all_to_fit_term]): diffs [back] against [front] and
      writes escape sequences and UTF-8 to the terminal.
    - Input decoder and event queue ([src/red_linux.cpp]: [push_event], the
      input branch of [main]; [src/editor.cpp]: [get_event]).
    - Storage adapter ([src/platform.h]: the [fs] table of [Platform];
      [src/red_linux.cpp]: [fs_open] ... [fs_unmap]): how [editor_init]
      opens and maps the file.
    - Process set-up ([src/red_linux.cpp]: [check_if_term],
      [term_setup], [signal_setup], the label [reset_term_state]).
    - Main loop ([src/red_linux.cpp]: [main]): start-up, then
      [editor_frame]; [display]; reset of the queue; one [read] decoded
      into events; until [should_close].
    - Resize ([src/red_linux.cpp]: [sigwinch_handler]): on [SIGWINCH],
      [frame_resize_all_to_fit_term] clears the screen and reallocates
      both frames; the [read] it interrupts fails with [EINTR] and the
      loop goes round again.

    Files (in dependency order; each holds one Module of the same role):

    - [Prelude] (this file): machine-width helpers ([wrap], [u8], [u32]),
      the outcome type [res] of code that may fault ([Panic], an [ASSERT])
      or may not return ([OutOfFuel]), with its [let*]; a fuelled
      [while_loop] with its termination, divergence and invariant lemmas;
      counted loops [for_range] for the source's [for] loops; the tactics
      [zlia], [zbool] and the hint database [red].
    - [Utf8] (Module [Codec]): the codec; round trip, leniency, bounds and
      error cases.
    - [Input]: [Input_state] (the queue's slots, count, [event_null] and
      [should_close]); [push_event]/[get_event] refine a bounded stack;
      [handle_input] is the input branch of [main]: one Character event per
      one-sequence read, key events for arrow escapes, and a hang on a read
      of two or more characters.
    - [Arena]: the arena as a total function from offsets to bytes with
      [mem_used]; the arena invariant (bytes above the mark are zero) and
      the two behaviours of [mem_realloc_zeroed].
    - [Array]: the growable array; [array_ensure] and the appends keep the
      elements, and a full array that is not the last block reads as
      zeros once it grows.
    - [Loader]: [ed_load_file_region] refines [decode_utf8] followed by
      [norm_lines], and gives the spec's normalisation on text whose CRs
      are followed by another character; it never returns on malformed
      input; on every file it drops a trailing CR the spec turns into LF.
    - [Storage]: the platform's [fs] table as the type class [Storage],
      the contract the editor relies on as [StorageSpec], and the Linux
      adapter ([fs_open] ... [fs_map] of red_linux.cpp) as instances over
      a model of [open], [fstat] and [mmap]; [fs_valid]'s [size_t]/[int]
      round trip; an [O_RDWR] open fails on a read-only file.
    - [Terminal]: the environment, a byte-level ANSI terminal (not code of
      the repository); its screen is the abstract state the renderer is
      proved against.
    - [Frame]: glyph layout in the arena, [ed_pf_clear], [ed_pf_put] and
      [frame_resize], with their write sets.
    - [Render]: [display] refines "the terminal shows [back]", from a
      screen that agrees with [back] wherever the frames agree; afterwards
      [front] is a byte copy of [back].
    - [Editor]: [editor_init] (against [Storage]) and [editor_frame]; the
      painting refines the 2-D layout [layout_cell] of the text's lines; a
      line as wide as the frame hides every row below it.
    - [System]: the program state [Sys] (arena, editor, both frames,
      platform, terminal), [main_start], [main_iter], [main_loop]; the loop
      invariant [SysInv] (a Record of the facts every iteration needs),
      its establishment by the start-up and its preservation along
      [reachable] (rule induction); the program's correctness theorem
      [main_refines] (every reachable state's frame shows the file's text
      on the terminal), the liveness of ['q'] and the type of the glyphs.
    - [Resize]: [sigwinch_handler] as the step [sigwinch] on [Sys]; runs
      as the closure [rtc sys_step] of loop iterations and resizes; a
      resize to a window of larger area moves both frames to fresh zeroed
      blocks and keeps [SysInv] (with [front] the last block, as the
      start-up leaves it), so [main] shows the text in the current window
      after any such run ([main_refines_winch]); a resize that does not
      grow keeps both blocks, and one to the same size after a frame
      leaves a blank screen with [front] equal to [back] byte for byte,
      which [display] never repaints.
    - [Process]: [main] as a whole: [check_if_term], [term_setup],
      [signal_setup], the loop of [Resize] and the restore at
      [reset_term_state], over the answers of the system calls; the
      terminal's attributes and the signal action are restored on every
      path by which [main] returns.
    - [Stdio]: the line-buffered [stdout] between [printf] and the
      terminal (environment) and the [fflush(stdout)] that ends
      [display]: when [main] blocks in [read] the buffer is empty.

    Output.  System.v's terminal reads the bytes as they are written;
    [display] ends with [fflush(stdout)], so at every [read] the real,
    line-buffered stream has delivered the same bytes (Stdio.v).

    Fuel and bounds.  Every loop of the source is given fuel; the theorems
    that a loop returns state how much is enough: the loader needs more
    iterations than the file has bytes (each iteration consumes one byte
    or more), [editor_frame]'s event loop needs one more than the queue's
    count (at most [EVENTS_LEN] = 4), so 5 is enough for a whole frame,
    and [for_range] loops are counted, not fuelled.  Integer fields are
    [Z] with the source's width kept where it matters: bytes are [u8],
    codepoints [u32], the arena's capacity is [MEM_CAPACITY] and every
    allocation is checked against it as the [ASSERT] does.

    Not modelled: the operating system below the storage adapter (files
    are byte lists with a write permission; see Storage.v); the system
    calls of the terminal set-up (their answers are inputs, see
    Process.v); a [SIGWINCH] arriving during [editor_frame] or [display]
    (Resize.v models the signal while [main] blocks in [read], where it
    spends its time); the [UNREACHABLE] of a failed [TIOCGWINSZ] (the
    window size is an argument of the model); the fields of the
    [Editor] struct as arena bytes (its 56 bytes are allocated, its
    fields are a record).

    Assertions.  [ASSERT] of src/common.h is empty unless [DEBUG] is
    defined; the development models the [DEBUG] build, where a failed
    assertion is the [Panic] outcome (the spec's "exhaustion is fatal").

    Conventions.  C integers are [Z] with their wrap-around written out;
    byte buffers are [list Z] whose elements are bytes; a pointer is an
    offset into the arena and the null pointer is [None]; a theorem that
    a loop returns is stated as "enough fuel gives the result", one that
    it does not return as "every fuel runs out". *)

From Stdlib Require Import ZArith Lia List.
From stdpp Require Import base list list_numbers.
Import ListNotations.

Declare Scope red_scope.
Delimit Scope red_scope with red.
Open Scope red_scope.

Create HintDb red.

(** ** Machine-width integers *)

Definition wrap (w x : Z) : Z := x mod 2 ^ w.
Definition u8 (x : Z) : Z := wrap 8 x.
Definition u32 (x : Z) : Z := wrap 32 x.

(** A value is an unsigned [w]-bit integer. *)
Definition in_width (w x : Z) : Prop := (0 <= x < 2 ^ w)%Z.

Lemma wrap_in_width w x : (0 <= w)%Z -> in_width w (wrap w x).
Proof.
  intros Hw. unfold in_width, wrap.
  apply Z.mod_pos_bound, Z.pow_pos_nonneg; lia.
Qed.

Lemma wrap_small w x : in_width w x -> wrap w x = x.
Proof. unfold in_width, wrap. apply Z.mod_small. Qed.

#[export] Hint Resolve wrap_in_width : red.

(** Linear arithmetic with division and remainder by constants. *)
Ltac zlia := Z.div_mod_to_equations; lia.

(** Decide the boolean comparisons of the goal that [lia] settles. *)
Ltac zbool_step :=
  match goal with
  | |- context [(?a <? ?b)%Z] =>
      first [rewrite (proj2 (Z.ltb_lt a b)) by zlia | rewrite (proj2 (Z.ltb_ge a b)) by zlia]
  | |- context [(?a <=? ?b)%Z] =>
      first [rewrite (proj2 (Z.leb_le a b)) by zlia | rewrite (proj2 (Z.leb_gt a b)) by zlia]
  | |- context [(?a =? ?b)%Z] =>
      first [rewrite (proj2 (Z.eqb_eq a b)) by zlia | rewrite (proj2 (Z.eqb_neq a b)) by zlia]
  end.
Ltac zbool := repeat (zbool_step; cbn [andb orb negb]).

(** Turn boolean comparisons in hypotheses into propositions. *)
Ltac zbool_hyps :=
  repeat match goal with
  | H : context [(_ && _) = true] |- _ => rewrite andb_true_iff in H
  | H : context [(_ && _) = false] |- _ => rewrite andb_false_iff in H
  | H : context [(_ <? _)%Z = true] |- _ => rewrite Z.ltb_lt in H
  | H : context [(_ <? _)%Z = false] |- _ => rewrite Z.ltb_ge in H
  | H : context [(_ <=? _)%Z = true] |- _ => rewrite Z.leb_le in H
  | H : context [(_ <=? _)%Z = false] |- _ => rewrite Z.leb_gt in H
  | H : context [(_ =? _)%Z = true] |- _ => rewrite Z.eqb_eq in H
  | H : context [(_ =? _)%Z = false] |- _ => rewrite Z.eqb_neq in H
  | H : context [(_ <? _)%nat = true] |- _ => rewrite Nat.ltb_lt in H
  | H : context [(_ <? _)%nat = false] |- _ => rewrite Nat.ltb_ge in H
  | H : context [(_ <=? _)%nat = true] |- _ => rewrite Nat.leb_le in H
  | H : context [(_ <=? _)%nat = false] |- _ => rewrite Nat.leb_gt in H
  end.

(** ** Bytes *)

(** Every byte value, for facts about bytes proved by enumeration. *)
Definition all_bytes : list Z := map Z.of_nat (seq 0 256).

Lemma all_bytes_spec b : (0 <= b < 256)%Z -> In b all_bytes.
Proof.
  intros Hb. unfold all_bytes. apply in_map_iff.
  exists (Z.to_nat b). split; [lia|]. apply in_seq. lia.
Qed.

Lemma byte_enum_eq (f g : Z -> bool) :
  forallb (fun b => Bool.eqb (f b) (g b)) all_bytes = true ->
  forall b, (0 <= b < 256)%Z -> f b = g b.
Proof.
  intros H b Hb. rewrite forallb_forall in H.
  apply Bool.eqb_prop, H, all_bytes_spec, Hb.
Qed.

(** ** Outcomes of code that may fault or may not return *)

(** [Ok] is a normal return; [Panic] is the [PANIC] macro of
    src/common.h (a write through the null pointer) reached through a
    failed [ASSERT]; [OutOfFuel] means the fuel given to a loop of the model
    ran out before the loop exited. *)
Inductive res (A : Type) : Type :=
| Ok (a : A)
| Panic
| OutOfFuel.
Arguments Ok {A} a.
Arguments Panic {A}.
Arguments OutOfFuel {A}.

Definition res_bind {A B} (r : res A) (f : A -> res B) : res B :=
  match r with
  | Ok a => f a
  | Panic => Panic
  | OutOfFuel => OutOfFuel
  end.

Notation "'let*' x ':=' c 'in' k" := (res_bind c (fun x => k))
  (at level 10, x name, c at level 100, k at level 200) : red_scope.

(** The [ASSERT] macro of src/common.h in a [DEBUG] build. *)
Definition assert (b : bool) : res unit := if b then Ok tt else Panic.

(** Injectivity of [Ok], without the reduction [injection] performs on
    the two sides. *)
Lemma Ok_inj {A} (a b : A) : Ok a = Ok b -> a = b.
Proof. by intros [= ->]. Qed.

Lemma res_bind_Ok {A B} (r : res A) (f : A -> res B) b :
  res_bind r f = Ok b <-> exists a, r = Ok a /\ f a = Ok b.
Proof.
  destruct r as [a| |]; simpl; split; try discriminate; try (intros (? & ? & _); discriminate).
  - eauto.
  - by intros (a' & <-%Ok_inj & ?).
Qed.

(** ** Loops with fuel *)

Section While.
Context {S : Type} (cond : S -> bool) (body : S -> res S).

(** [while (cond s) s = body(s);] with at most [fuel] tests of the
    condition. *)
Fixpoint while_loop (fuel : nat) (s : S) : res S :=
  match fuel with
  | O => OutOfFuel
  | Datatypes.S n => if cond s then res_bind (body s) (while_loop n) else Ok s
  end.

Lemma while_loop_exit fuel s :
  cond s = false -> while_loop (Datatypes.S fuel) s = Ok s.
Proof. intros H. simpl. by rewrite H. Qed.

Lemma while_loop_step fuel s s' :
  cond s = true -> body s = Ok s' ->
  while_loop (Datatypes.S fuel) s = while_loop fuel s'.
Proof. intros H1 H2. simpl. by rewrite H1, H2. Qed.

(** More fuel does not change a result that was reached. *)
Lemma while_loop_mono fuel fuel' s r :
  (fuel <= fuel')%nat -> while_loop fuel s = r -> r <> OutOfFuel ->
  while_loop fuel' s = r.
Proof.
  revert fuel' s. induction fuel as [|n IH]; intros fuel' s Hle Hr Hne.
  - simpl in Hr. subst. congruence.
  - destruct fuel' as [|m]; [lia|]. simpl in *.
    destruct (cond s); [|done].
    destruct (body s); simpl in *; try done.
    apply IH; [lia|done|done].
Qed.

(** Divergence: an invariant that keeps the condition true and that the
    body preserves (without faulting) makes every fuel run out. *)
Lemma while_loop_diverges (P : S -> Prop) :
  (forall s, P s -> cond s = true) ->
  (forall s, P s -> exists s', body s = Ok s' /\ P s') ->
  forall fuel s, P s -> while_loop fuel s = OutOfFuel.
Proof.
  intros Hc Hb fuel. induction fuel as [|n IH]; intros s Hs; [done|].
  destruct (Hb s Hs) as (s' & Hs' & HP').
  rewrite (while_loop_step n s s'); auto.
Qed.

(** A loop whose invariant keeps the condition true never exits normally,
    whatever the body does (it may fault, or run out of fuel). *)
Lemma while_loop_never_ok (P : S -> Prop) :
  (forall s, P s -> cond s = true) ->
  (forall s s', P s -> body s = Ok s' -> P s') ->
  forall fuel s r, P s -> while_loop fuel s <> Ok r.
Proof.
  intros Hc Hb fuel. induction fuel as [|n IH]; intros s r Hs; simpl; [done|].
  rewrite (Hc s Hs). destruct (body s) as [s'| |] eqn:E; simpl; try done.
  apply IH. by apply (Hb s).
Qed.

(** Termination: if the body never faults and decreases a measure while
    the condition holds, fuel above the measure suffices. *)
Lemma while_loop_terminates (P : S -> Prop) (m : S -> nat) :
  (forall s, P s -> cond s = true ->
     exists s', body s = Ok s' /\ P s' /\ (m s' < m s)%nat) ->
  forall fuel s, P s -> (m s < fuel)%nat ->
  exists s', while_loop fuel s = Ok s' /\ P s' /\ cond s' = false.
Proof.
  intros Hb fuel. induction fuel as [|n IH]; intros s Hs Hm; [lia|].
  destruct (cond s) eqn:Hc.
  - destruct (Hb s Hs Hc) as (s' & Hs' & HP' & Hlt).
    rewrite (while_loop_step n s s'); auto. apply IH; [done|lia].
  - exists s. by rewrite while_loop_exit.
Qed.
(** Safety: a property kept by every iteration holds when the loop
    returns. *)
Lemma while_loop_inv (P : S -> Prop) :
  (forall s s', P s -> cond s = true -> body s = Ok s' -> P s') ->
  forall fuel s r, P s -> while_loop fuel s = Ok r -> P r.
Proof.
  intros Hb fuel. induction fuel as [|n IH]; intros s r Hs; simpl; [done|].
  destruct (cond s) eqn:Hc; [|by intros [= <-]].
  destruct (body s) as [s'| |] eqn:E; simpl; try done. apply IH. by apply (Hb s).
Qed.
End While.

(** ** Lists used as C buffers *)

(** [buf[i]] of a byte buffer; reading past the list yields 0, which the
    theorems never rely on except where the source reads stale bytes. *)
Definition at_ (buf : list Z) (i : nat) : Z := nth i buf 0%Z.

Lemma at_app_l (l1 l2 : list Z) i : (i < length l1)%nat -> at_ (l1 ++ l2) i = at_ l1 i.
Proof. intros H. unfold at_. by rewrite app_nth1. Qed.

Lemma at_app_r (l1 l2 : list Z) i : at_ (l1 ++ l2) (length l1 + i) = at_ l2 i.
Proof. unfold at_. rewrite app_nth2 by lia. f_equal. lia. Qed.

(** ** Index ranges *)

Local Open Scope Z_scope.

Lemma seqZ_snoc n : (0 <= n)%Z -> seqZ 0 (n + 1) = seqZ 0 n ++ [n].
Proof.
  intros Hn. rewrite seqZ_app by lia. rewrite (seqZ_cons _ 1) by lia.
  change (Z.pred 1) with 0. rewrite (seqZ_nil _ 0) by lia. by rewrite Z.add_0_l.
Qed.

Lemma map_seqZ_ext {A} (f g : Z -> A) m n :
  (forall i, (m <= i < m + n)%Z -> f i = g i) -> map f (seqZ m n) = map g (seqZ m n).
Proof.
  intros H. apply map_ext_in. intros i Hi.
  apply H, elem_of_seqZ, list_elem_of_In, Hi.
Qed.

(** Row-major indices: [r * w + c] determines [(r, c)] when [0 <= c < w]. *)
Lemma idx_inj w r c r' c' :
  0 <= c < w -> 0 <= c' < w -> r * w + c = r' * w + c' -> r = r' /\ c = c'.
Proof.
  intros Hc Hc' E.
  assert (r = r') as <-; [|lia].
  destruct (Z.lt_trichotomy r r') as [H|[H|H]]; [nia|done|nia].
Qed.

(** ** Counted loops

    [for (i = 0; i < n; ++i) s = body(i, s);] where the body may fault.
    A counted loop always terminates, so it needs no fuel. *)

Fixpoint foldM {A B} (f : A -> B -> res A) (l : list B) (a : A) : res A :=
  match l with
  | [] => Ok a
  | b :: l' => res_bind (f a b) (foldM f l')
  end.

Definition for_range {A} (n : Z) (body : Z -> A -> res A) (a : A) : res A :=
  foldM (fun s i => body i s) (seqZ 0 n) a.

Lemma foldM_app {A B} (f : A -> B -> res A) l1 l2 a :
  foldM f (l1 ++ l2) a = res_bind (foldM f l1 a) (foldM f l2).
Proof.
  revert a. induction l1 as [|b l1 IH]; intros a; simpl; [done|].
  destruct (f a b); simpl; auto.
Qed.

Lemma for_range_snoc {A} n (body : Z -> A -> res A) a :
  0 <= n -> for_range (n + 1) body a = res_bind (for_range n body a) (body n).
Proof.
  intros Hn. unfold for_range. rewrite seqZ_snoc, foldM_app by done.
  destruct (foldM _ (seqZ 0 n) a); simpl; try done.
  destruct (body n a0); done.
Qed.

Lemma for_range_nonpos {A} n (body : Z -> A -> res A) a :
  n <= 0 -> for_range n body a = Ok a.
Proof. intros Hn. unfold for_range. by rewrite seqZ_nil. Qed.

(** The rule of the counted loop: an invariant indexed by the loop
    counter, kept by every iteration, holds at the exit. *)
Lemma for_range_inv {A} (P : Z -> A -> Prop) n (body : Z -> A -> res A) a :
  0 <= n -> P 0 a ->
  (forall i s, 0 <= i < n -> P i s -> exists s', body i s = Ok s' /\ P (i + 1) s') ->
  exists s', for_range n body a = Ok s' /\ P n s'.
Proof.
  intros Hn H0. revert n Hn.
  refine (natlike_ind (fun n => (forall i s, 0 <= i < n -> P i s ->
    exists s', body i s = Ok s' /\ P (i + 1) s') ->
    exists s', for_range n body a = Ok s' /\ P n s') _ _).
  - intros _. exists a. by rewrite for_range_nonpos.
  - intros n Hn IH Hb. rewrite <- Z.add_1_r, for_range_snoc by done.
    destruct IH as (s & -> & Hs); [intros; apply Hb; [lia|done]|].
    simpl. apply Hb; [lia|done].
Qed.
