(* ===== verification/Utf8.v ===== *)
(** * Codec: UTF-8 encoding and decoding (src/common.cpp)

    [utf32_to_8] and [utf8_to_32] of src/common.cpp, on codepoints and
    bytes represented as [Z].  The output buffer of [utf32_to_8] is the
    returned list (its length is the C return value); the [used]
    out-parameter of [utf8_to_32] is an [option]: [None] when the C code
    returns without writing it.  Proved here: the round trip for every
    codepoint up to 0x10FFFF, the failure cases of both functions, the
    leniency of the decoder on continuation bytes and overlong forms, and
    the bounds of the decoded value. *)

From Stdlib Require Import ZArith Lia List Btauto.
From stdpp Require Import base list.
From S2P Require Import Prelude.
Import ListNotations.
Local Open Scope Z_scope.

Module Codec.

(** [static size_t utf32_to_8(uint32_t cp, uint8_t *buf, size_t sz)]:
    the bytes written to [buf]; their number is the return value. *)
Definition utf32_to_8 (cp sz : Z) : list Z :=
  if cp <=? 0x7F then
    if sz <? 1 then [] else [u8 cp]
  else if cp <=? 0x7FF then
    if sz <? 2 then [] else
      [u8 (Z.lor 0xC0 (Z.shiftr cp 6));
       u8 (Z.lor 0x80 (Z.land cp 0x3F))]
  else if cp <=? 0xFFFF then
    if sz <? 3 then [] else
      [u8 (Z.lor 0xE0 (Z.shiftr cp 12));
       u8 (Z.lor 0x80 (Z.land (Z.shiftr cp 6) 0x3F));
       u8 (Z.lor 0x80 (Z.land cp 0x3F))]
  else if cp <=? 0x10FFFF then
    if sz <? 4 then [] else
      [u8 (Z.lor 0xF0 (Z.shiftr cp 18));
       u8 (Z.lor 0x80 (Z.land (Z.shiftr cp 12) 0x3F));
       u8 (Z.lor 0x80 (Z.land (Z.shiftr cp 6) 0x3F));
       u8 (Z.lor 0x80 (Z.land cp 0x3F))]
  else [].

(** [static uint32_t utf8_to_32(uint8_t *buf, size_t sz, size_t *used)]:
    the returned codepoint and the value written to [*used], if any. *)
Definition utf8_to_32 (buf : list Z) (sz : Z) : Z * option Z :=
  if sz <? 1 then (0, None) else
  let b0 := at_ buf 0 in
  if Z.land b0 0x80 =? 0x00 then (Z.land b0 0x7F, Some 1)
  else if Z.land b0 0xE0 =? 0xC0 then
    if sz <? 2 then (0, None) else
      (Z.lor (Z.land (at_ buf 1) 0x3F)
             (Z.shiftl (Z.land b0 0x1F) 6), Some 2)
  else if Z.land b0 0xF0 =? 0xE0 then
    if sz <? 3 then (0, None) else
      (Z.lor (Z.lor (Z.land (at_ buf 2) 0x3F)
                    (Z.shiftl (Z.land (at_ buf 1) 0x3F) 6))
             (Z.shiftl (Z.land b0 0x0F) 12), Some 3)
  else if Z.land b0 0xF8 =? 0xF0 then
    if sz <? 4 then (0, None) else
      (Z.lor (Z.lor (Z.lor (Z.land (at_ buf 3) 0x3F)
                           (Z.shiftl (Z.land (at_ buf 2) 0x3F) 6))
                    (Z.shiftl (Z.land (at_ buf 1) 0x3F) 12))
             (Z.shiftl (Z.land b0 0x07) 18), Some 4)
  else (0, None).

(** The value of [*used] after a call, given its value before. *)
Definition used_after (old : Z) (u : option Z) : Z :=
  match u with Some n => n | None => old end.

(** The length of the encoding the code chooses for [cp], by value range;
    0 above 0x10FFFF, where the encoder fails. *)
Definition enc_len (cp : Z) : Z :=
  if cp <=? 0x7F then 1 else if cp <=? 0x7FF then 2
  else if cp <=? 0xFFFF then 3 else if cp <=? 0x10FFFF then 4 else 0.

(** The sequence length announced by a leading byte, in the order the
    decoder tests the patterns; 0 for a byte matching none of them. *)
Definition lead_len (b0 : Z) : Z :=
  if Z.land b0 0x80 =? 0x00 then 1
  else if Z.land b0 0xE0 =? 0xC0 then 2
  else if Z.land b0 0xF0 =? 0xE0 then 3
  else if Z.land b0 0xF8 =? 0xF0 then 4 else 0.

Definition is_byte (b : Z) : Prop := 0 <= b < 256.

(** ** Arithmetic form of the bit operations the codec uses *)

Lemma lor_low_add k x y :
  0 <= k -> 0 <= x < 2 ^ k -> Z.lor x (y * 2 ^ k) = y * 2 ^ k + x.
Proof.
  intros Hk Hx.
  rewrite <- Z.shiftl_mul_pow2 by lia.
  assert (Hd : Z.land (Z.shiftl y k) x = 0).
  { apply Z.bits_inj'; intros i Hi.
    rewrite Z.land_spec, Z.shiftl_spec, Z.bits_0 by lia.
    destruct (Z.lt_ge_cases i k).
    - rewrite Z.testbit_neg_r by lia. reflexivity.
    - rewrite <- (Z.mod_small x (2 ^ k)) by lia.
      rewrite Z.mod_pow2_bits_high by lia. apply andb_false_r. }
  rewrite Z.add_nocarry_lxor, Z.lxor_lor by exact Hd. apply Z.lor_comm.
Qed.

Lemma lor_lead a k y :
  0 <= k -> a mod 2 ^ k = 0 -> 0 <= y < 2 ^ k -> Z.lor a y = a + y.
Proof.
  intros Hk Ha Hy.
  assert (a = (a / 2 ^ k) * 2 ^ k) as ->.
  { rewrite (Z.div_mod a (2 ^ k)) at 1 by lia. lia. }
  rewrite Z.lor_comm, lor_low_add by lia. lia.
Qed.

Lemma shiftl_lit x n : 0 <= n -> Z.shiftl x n = x * 2 ^ n.
Proof. apply Z.shiftl_mul_pow2. Qed.

Lemma shiftr_lit x n : 0 <= n -> Z.shiftr x n = x / 2 ^ n.
Proof. apply Z.shiftr_div_pow2. Qed.

Lemma land_lit x m n : 0 <= n -> m = Z.ones n -> Z.land x m = x mod 2 ^ n.
Proof. intros Hn ->. by apply Z.land_ones. Qed.

(** Rewrite the shifts and masks of the codec into division and remainder. *)
Ltac bits_arith :=
  repeat first
    [ rewrite shiftr_lit by lia
    | rewrite shiftl_lit by lia
    | rewrite (land_lit _ 0x3F 6) by (lia || reflexivity)
    | rewrite (land_lit _ 0x1F 5) by (lia || reflexivity)
    | rewrite (land_lit _ 0x0F 4) by (lia || reflexivity)
    | rewrite (land_lit _ 0x07 3) by (lia || reflexivity)
    | rewrite (land_lit _ 0x7F 7) by (lia || reflexivity) ].

(** Rewrite the disjoint [|] of a leading byte pattern and its payload. *)
Ltac lor_arith :=
  repeat first
    [ rewrite (lor_lead 0xC0 5) by zlia
    | rewrite (lor_lead 0xE0 4) by zlia
    | rewrite (lor_lead 0xF0 3) by zlia
    | rewrite (lor_lead 0x80 6) by zlia
    | rewrite (lor_low_add 6) by zlia
    | rewrite (lor_low_add 12) by zlia
    | rewrite (lor_low_add 18) by zlia ].

(** ** The leading-byte patterns, by enumeration of the 256 bytes *)

Lemma lead_80 : forall b, is_byte b -> (Z.land b 0x80 =? 0x00) = (b <? 0x80).
Proof. apply byte_enum_eq. vm_compute. reflexivity. Qed.

Lemma lead_E0 : forall b, is_byte b ->
  (Z.land b 0xE0 =? 0xC0) = ((0xC0 <=? b) && (b <? 0xE0)).
Proof. apply byte_enum_eq. vm_compute. reflexivity. Qed.

Lemma lead_F0 : forall b, is_byte b ->
  (Z.land b 0xF0 =? 0xE0) = ((0xE0 <=? b) && (b <? 0xF0)).
Proof. apply byte_enum_eq. vm_compute. reflexivity. Qed.

Lemma lead_F8 : forall b, is_byte b ->
  (Z.land b 0xF8 =? 0xF0) = ((0xF0 <=? b) && (b <? 0xF8)).
Proof. apply byte_enum_eq. vm_compute. reflexivity. Qed.

Ltac lead_classify :=
  repeat first
    [ rewrite lead_80 by (unfold is_byte; zlia)
    | rewrite lead_E0 by (unfold is_byte; zlia)
    | rewrite lead_F0 by (unfold is_byte; zlia)
    | rewrite lead_F8 by (unfold is_byte; zlia) ].

(** ** The encoder in arithmetic form *)

(** A continuation byte carrying the low six bits of [x]. *)
Definition cont (x : Z) : Z := 0x80 + x mod 64.

Lemma utf32_to_8_bytes cp sz :
  0 <= cp -> enc_len cp <= sz ->
  utf32_to_8 cp sz =
    if cp <=? 0x7F then [cp]
    else if cp <=? 0x7FF then [0xC0 + cp / 64; cont cp]
    else if cp <=? 0xFFFF then [0xE0 + cp / 4096; cont (cp / 64); cont cp]
    else if cp <=? 0x10FFFF then
      [0xF0 + cp / 262144; cont (cp / 4096); cont (cp / 64); cont cp]
    else [].
Proof.
  intros Hcp Hsz. unfold utf32_to_8, enc_len, cont, u8 in *.
  destruct (Z.leb_spec cp 0x7F); [|destruct (Z.leb_spec cp 0x7FF);
    [|destruct (Z.leb_spec cp 0xFFFF); [|destruct (Z.leb_spec cp 0x10FFFF)]]];
    zbool; try done;
    repeat f_equal; bits_arith; lor_arith;
    rewrite wrap_small; unfold in_width; zlia.
Qed.

(** ** Round trip *)

(** C3: for every codepoint up to 0x10FFFF and every output buffer large
    enough for it, [utf32_to_8] writes [enc_len cp] bytes, and
    [utf8_to_32] on those bytes (followed by anything, with any announced
    size at least that length) returns the codepoint and consumes exactly
    those bytes. *)
Theorem utf8_roundtrip cp sz n rest :
  0 <= cp <= 0x10FFFF -> enc_len cp <= sz -> enc_len cp <= n ->
  Z.of_nat (length (utf32_to_8 cp sz)) = enc_len cp /\
  utf8_to_32 (utf32_to_8 cp sz ++ rest) n = (cp, Some (enc_len cp)).
Proof.
  intros Hcp Hsz Hn. rewrite utf32_to_8_bytes by lia.
  unfold enc_len, cont in *.
  destruct (Z.leb_spec cp 0x7F); [|destruct (Z.leb_spec cp 0x7FF);
    [|destruct (Z.leb_spec cp 0xFFFF); [|destruct (Z.leb_spec cp 0x10FFFF)]]];
    zbool; try lia; split; try done;
    unfold utf8_to_32, at_; cbn [app nth]; lead_classify; zbool;
    f_equal; bits_arith; lor_arith; zlia.
Qed.

Example utf8_roundtrip_e9 : utf8_to_32 (utf32_to_8 0xE9 4) 2 = (0xE9, Some 2).
Proof. reflexivity. Qed.

(** Witness at the largest codepoint, followed by stray bytes. *)
Lemma utf8_roundtrip_witness :
  Z.of_nat (length (utf32_to_8 0x10FFFF 4)) = 4 /\
  utf8_to_32 (utf32_to_8 0x10FFFF 4 ++ [0x41; 0x42]) 6 = (0x10FFFF, Some 4).
Proof. exact (utf8_roundtrip 0x10FFFF 4 6 [0x41; 0x42] ltac:(lia) ltac:(vm_compute; congruence) ltac:(vm_compute; congruence)). Defined.

(** ** Failure cases *)

Lemma utf8_to_32_ok buf sz :
  snd (utf8_to_32 buf sz) =
    (if (1 <=? lead_len (at_ buf 0)) && (lead_len (at_ buf 0) <=? sz)
     then Some (lead_len (at_ buf 0)) else None) /\
  (snd (utf8_to_32 buf sz) = None -> fst (utf8_to_32 buf sz) = 0).
Proof.
  unfold utf8_to_32, lead_len.
  repeat case_match; simplify_eq/=; zbool_hyps; zbool; simplify_eq/=; try done; lia.
Qed.

(** C23: the decoder writes [*used] exactly when the leading byte matches
    one of the four patterns and [sz] covers the announced length, and it
    then writes that length; otherwise it returns 0 and leaves [*used]
    untouched. *)
Theorem utf8_to_32_result buf sz :
  snd (utf8_to_32 buf sz) =
    (if (1 <=? lead_len (at_ buf 0)) && (lead_len (at_ buf 0) <=? sz)
     then Some (lead_len (at_ buf 0)) else None) /\
  (snd (utf8_to_32 buf sz) = None -> fst (utf8_to_32 buf sz) = 0).
Proof. eapply utf8_to_32_ok; eassumption. Qed.

(** C31: the encoder fails (writes nothing, returns 0) exactly above 0x10FFFF or
    when the buffer is shorter than the encoding. *)
Theorem utf32_to_8_fails cp sz :
  0 <= cp -> utf32_to_8 cp sz = [] <-> (0x10FFFF < cp \/ sz < enc_len cp).
Proof.
  intros Hcp. unfold utf32_to_8, enc_len.
  repeat case_match; zbool_hyps; split; intros; simplify_eq/=; try done; lia.
Qed.

Lemma utf32_to_8_fails_witness : utf32_to_8 0x110000 4 = [].
Proof. apply (utf32_to_8_fails 0x110000 4); [lia|left; lia]. Defined.

(** What a successful decode consumes: between 1 and 4 bytes, within [sz]. *)
Lemma utf8_to_32_some buf sz cp u :
  utf8_to_32 buf sz = (cp, Some u) -> 1 <= u <= sz /\ u <= 4.
Proof.
  intros E. destruct (utf8_to_32_ok buf sz) as [Hr _]. rewrite E in Hr. cbn [snd] in Hr.
  destruct ((1 <=? lead_len (at_ buf 0)) && (lead_len (at_ buf 0) <=? sz)) eqn:H;
    [|discriminate].
  injection Hr as Hu. subst u. zbool_hyps. split; [lia|].
  unfold lead_len. repeat case_match; lia.
Qed.

(** A sequence that decodes within [buf] decodes the same way with more
    bytes after it and a larger announced size. *)
Lemma utf8_to_32_app buf extra sz sz' cp u :
  sz <= Z.of_nat (length buf) -> sz <= sz' ->
  utf8_to_32 buf sz = (cp, Some u) -> utf8_to_32 (buf ++ extra) sz' = (cp, Some u).
Proof.
  intros Hl Hs E. pose proof (utf8_to_32_some _ _ _ _ E) as [Hu _].
  unfold utf8_to_32 in *.
  rewrite !(at_app_l buf extra) by lia.
  repeat match goal with
         | H : context [if ?c then _ else _] |- _ => destruct c eqn:?; zbool_hyps; try discriminate
         end; zbool; try lia; try done.
  all: rewrite ?(at_app_l buf extra) by lia; done.
Qed.

(** ** Bounds *)

Lemma utf8_to_32_cp_bound buf sz : 0 <= fst (utf8_to_32 buf sz) < 0x200000.
Proof.
  unfold utf8_to_32.
  repeat case_match; simplify_eq/=; try lia; bits_arith; lor_arith; zlia.
Qed.

(** C32: the decoded value always fits in 21 bits, whatever the bytes. *)
Theorem utf8_to_32_bound buf sz : 0 <= fst (utf8_to_32 buf sz) < 0x200000.
Proof. eapply utf8_to_32_cp_bound; eassumption. Qed.

(** ** Leniency *)

Lemma cont_low6 i (cs : list Z) :
  (nth i (map cont cs) 0) mod 2 ^ 6 = (nth i cs 0) mod 2 ^ 6.
Proof.
  revert i. induction cs as [|c cs IH]; intros [|i]; simpl; try done.
  unfold cont. zlia.
Qed.

(** C30: the decoder ignores the top two bits of every continuation byte:
    forcing them to the [10] marker UTF-8 requires changes nothing, so a
    malformed continuation byte is accepted as if it were well formed. *)
Theorem utf8_to_32_ignores_marker b0 cs sz :
  utf8_to_32 (b0 :: map cont cs) sz = utf8_to_32 (b0 :: cs) sz.
Proof.
  unfold utf8_to_32, at_; cbn [nth].
  repeat case_match; try done; bits_arith; rewrite ?cont_low6; done.
Qed.

(** A two-byte sequence whose second byte is ASCII ['A'] is decoded, not
    rejected. *)
Example utf8_to_32_bad_continuation : utf8_to_32 [0xC3; 0x41] 2 = (0xC1, Some 2).
Proof. reflexivity. Qed.

(** The decoder produces values above 0x10FFFF (here 0x110000, from the
    lead byte 0xF4 followed by 0x90), which the encoder then refuses. *)
Lemma utf8_to_32_above_max :
  utf8_to_32 [0xF4; 0x90; 0x80; 0x80] 4 = (0x110000, Some 4) /\
  utf32_to_8 0x110000 4 = [].
Proof. split; reflexivity. Qed.

End Codec.
