(* ===== verification/Input.v ===== *)
(** * Input decoder and event queue (src/red_linux.cpp, src/editor.cpp)

    The event types of src/platform.h, the bounded event queue of
    [Platform.events] with [push_event] (src/red_linux.cpp) and
    [get_event] (src/editor.cpp), and the input branch of [main] that turns
    the bytes of one [read] into events.  The input buffer is the
    16-byte array [input] of [main], including bytes past the count [read]
    returned. *)

From Stdlib Require Import ZArith Lia List.
From stdpp Require Import base list.
From S2P Require Import Prelude Utf8.
Import ListNotations.
Local Open Scope Z_scope.

Module Input.
Import Codec.

(** [enum Event_Type], [enum Key] of src/platform.h. *)
Inductive Event_Type := EVENT_NONE | EVENT_CHAR | EVENT_KEY.

Inductive Key := KEY_NONE | KEY_UP | KEY_DOWN | KEY_RIGHT | KEY_LEFT.

Definition key_code (k : Key) : Z :=
  match k with
  | KEY_NONE => 0 | KEY_UP => 1 | KEY_DOWN => 2 | KEY_RIGHT => 3 | KEY_LEFT => 4
  end.

(** [struct Event]: the tag and the 32-bit union of [cp] and [key]. *)
Record Event := mkEvent { ev_type : Event_Type; ev_data : Z }.

Definition event_zero : Event := mkEvent EVENT_NONE 0.

(** The event part of [struct Platform] ([events.data], [events.count]),
    its [should_close] flag, and the static [event_null] of
    src/red_linux.cpp. *)
Record Input_state := mkInput {
  ev_slots : list Event;
  ev_count : Z;
  event_null : Event;
  should_close : bool }.

(** [LEN(pf.events.data)]. *)
Definition EVENTS_LEN : Z := 4.

(** A pointer to an event: a slot of [events.data] or [&event_null]. *)
Inductive Slot := Slot_data (i : nat) | Slot_null.

(** [static Event *push_event(void)]. *)
Definition push_event (s : Input_state) : Input_state * Slot :=
  if EVENTS_LEN <=? ev_count s then (s, Slot_null)
  else
    let i := Z.to_nat (ev_count s) in
    (mkInput (<[i := event_zero]> (ev_slots s)) (ev_count s + 1)
             (event_null s) (should_close s), Slot_data i).

(** A write through the pointer [push_event] returned. *)
Definition write_slot (s : Input_state) (sl : Slot) (f : Event -> Event)
    : Input_state :=
  match sl with
  | Slot_data i =>
      mkInput (<[i := f (nth i (ev_slots s) event_zero)]> (ev_slots s))
              (ev_count s) (event_null s) (should_close s)
  | Slot_null => mkInput (ev_slots s) (ev_count s) (f (event_null s)) (should_close s)
  end.

(** [event = push_event(); event->type = t; event->cp = d;] (both fields
    written, as every call site of the source does). *)
Definition push (s : Input_state) (t : Event_Type) (d : Z) : Input_state :=
  let r := push_event s in
  write_slot (fst r) (snd r) (fun _ => mkEvent t d).

(** [static Event *get_event(Platform *p)]: [None] is the null pointer. *)
Definition get_event (s : Input_state) : Input_state * option Event :=
  if ev_count s <=? 0 then (s, None)
  else
    let c := ev_count s - 1 in
    (mkInput (ev_slots s) c (event_null s) (should_close s),
     Some (nth (Z.to_nat c) (ev_slots s) event_zero)).

(** The event loop at the top of [editor_frame]: [get_event] until it
    returns null; the [switch] has no effect on the state, so the model
    returns the events in the order they were handled. *)
Fixpoint drain_events (fuel : nat) (s : Input_state) : res (Input_state * list Event) :=
  match fuel with
  | O => OutOfFuel
  | S n =>
      match get_event s with
      | (s', None) => Ok (s', [])
      | (s', Some e) =>
          let* r := drain_events n s' in Ok (fst r, e :: snd r)
      end
  end.

(** [switch (input[2])] of [main]. *)
Definition key_of_byte (b : Z) : Key :=
  if b =? 0x41 then KEY_UP
  else if b =? 0x42 then KEY_DOWN
  else if b =? 0x43 then KEY_RIGHT
  else if b =? 0x44 then KEY_LEFT
  else KEY_NONE.

(** [while (used < bytes) { cp = utf8_to_32(input, bytes-used, &used);
    push a Character event }], on the state [(used, queue)]. *)
Definition char_cond (bytes : Z) (st : Z * Input_state) : bool := fst st <? bytes.

Definition char_body (input : list Z) (bytes : Z) (st : Z * Input_state)
    : res (Z * Input_state) :=
  let '(used, s) := st in
  let '(cp, u) := utf8_to_32 input (bytes - used) in
  Ok (used_after used u, push s EVENT_CHAR cp).

Definition char_loop (fuel : nat) (input : list Z) (bytes : Z) (st : Z * Input_state)
    : res (Z * Input_state) :=
  while_loop (char_cond bytes) (char_body input bytes) fuel st.

(** [if (input[0] == 'q') pf.should_close = true;] *)
Definition note_quit (b0 : Z) (s : Input_state) : Input_state :=
  if b0 =? 0x71 then mkInput (ev_slots s) (ev_count s) (event_null s) true else s.

(** The part of the loop of [main] after [read]: [err] is [errno != 0],
    [bytes] the value [read] returned, [input] the 16-byte buffer. *)
Definition handle_input (fuel : nat) (s : Input_state) (err : bool) (bytes : Z)
    (input : list Z) : res Input_state :=
  if err then Ok s
  else if bytes <=? 0 then Ok s
  else
    let s := note_quit (at_ input 0) s in
    if at_ input 0 =? 0x1b then
      if at_ input 1 =? 0x5b then
        match key_of_byte (at_ input 2) with
        | KEY_NONE => Ok s
        | k => Ok (push s EVENT_KEY (key_code k))
        end
      else Ok s
    else
      let* st := char_loop fuel input bytes (0, s) in Ok (snd st).

(** ** The queue as an abstract bounded stack *)

(** Well-formedness: four slots, and a count between 0 and 4. *)
Definition events_wf (s : Input_state) : Prop :=
  length (ev_slots s) = 4%nat /\ 0 <= ev_count s <= EVENTS_LEN.

(** The events the queue holds, oldest first. *)
Definition queued (s : Input_state) : list Event :=
  take (Z.to_nat (ev_count s)) (ev_slots s).

(** The abstract queue: a list of at most [EVENTS_LEN] events; a push onto
    a full queue is dropped, a get removes the newest event. *)
Definition abs_push (q : list Event) (e : Event) : list Event :=
  if (length q <? 4)%nat then q ++ [e] else q.

Definition abs_get (q : list Event) : list Event * option Event :=
  match rev q with
  | [] => ([], None)
  | e :: r => (rev r, Some e)
  end.

Lemma push_wf s t d : events_wf s -> events_wf (push s t d).
Proof.
  unfold events_wf, push, push_event, EVENTS_LEN. intros [Hl Hc].
  case_match; zbool_hyps; simpl; rewrite ?length_insert; lia.
Qed.

Lemma get_event_wf s : events_wf s -> events_wf (fst (get_event s)).
Proof.
  unfold events_wf, get_event. intros [Hl Hc]. case_match; zbool_hyps; simpl; lia.
Qed.

#[export] Hint Resolve push_wf get_event_wf : red.

Lemma drain_events_wf fuel s r : events_wf s -> drain_events fuel s = Ok r -> events_wf (fst r).
Proof.
  revert s r. induction fuel as [|n IH]; intros s r Hwf; simpl; [done|].
  pose proof (get_event_wf s Hwf) as Hg. destruct (get_event s) as [s1 [ev|]]; simpl in *.
  - destruct (drain_events n s1) as [r1| |] eqn:E; simpl; try done.
    intros [= <-]. simpl. by apply (IH s1).
  - by intros [= <-].
Qed.

(** Handling the queued events leaves [should_close] alone. *)
Lemma drain_events_close fuel s r : drain_events fuel s = Ok r -> should_close (fst r) = should_close s.
Proof.
  revert s r. induction fuel as [|n IH]; intros s r; simpl; [done|].
  unfold get_event. destruct (ev_count s <=? 0); simpl; [by intros [= <-]|].
  destruct (drain_events n _) as [r1| |] eqn:E; simpl; try done.
  intros [= <-]. simpl. by rewrite (IH _ _ E).
Qed.

Lemma note_quit_wf b s : events_wf s -> events_wf (note_quit b s).
Proof. unfold note_quit. by case_match. Qed.

(** The input branch of [main] keeps the queue well formed whenever it
    returns. *)
Lemma handle_input_wf fuel s err bytes input s' :
  events_wf s -> handle_input fuel s err bytes input = Ok s' -> events_wf s'.
Proof.
  intros Hwf. unfold handle_input.
  destruct err; [by intros [= <-]|]. destruct (bytes <=? 0); [by intros [= <-]|].
  pose proof (note_quit_wf (at_ input 0) s Hwf) as Hq.
  destruct (at_ input 0 =? 0x1b); [destruct (at_ input 1 =? 0x5b); [|by intros [= <-]]|].
  - destruct (key_of_byte (at_ input 2)); intros [= <-]; auto with red.
  - destruct (char_loop fuel input bytes (0, note_quit (at_ input 0) s)) as [[u s1]| |] eqn:E;
      simpl; try discriminate. intros [= <-].
    apply (while_loop_inv _ _ (fun st => events_wf (snd st)) ) in E; [done| |done].
    intros [u0 s0] st' H _. unfold char_body. cbn. destruct (utf8_to_32 _ _).
    intros [= <-]. simpl. auto with red.
Qed.

Lemma push_close s t v : should_close (push s t v) = should_close s.
Proof. unfold push, push_event. by destruct (EVENTS_LEN <=? ev_count s). Qed.

(** A push raises the count until the queue is full. *)
Lemma push_count s t d :
  events_wf s -> ev_count (push s t d) = Z.min EVENTS_LEN (ev_count s + 1).
Proof.
  unfold events_wf, push, push_event, EVENTS_LEN. intros [_ Hc].
  case_match; zbool_hyps; simpl; lia.
Qed.

Lemma take_nth_snoc (l : list Event) n :
  (n < length l)%nat -> take (S n) l = take n l ++ [nth n l event_zero].
Proof.
  intros Hn. apply take_S_r.
  rewrite nth_lookup. destruct (lookup_lt_is_Some_2 l n Hn) as [x ->]. done.
Qed.

Lemma push_spec s t d :
  events_wf s -> queued (push s t d) = abs_push (queued s) (mkEvent t d).
Proof.
  unfold events_wf, queued, push, push_event, abs_push, EVENTS_LEN. intros [Hl Hc].
  rewrite length_take, Hl.
  case_match; zbool_hyps; simpl.
  - destruct (Nat.ltb_spec (Z.to_nat (ev_count s) `min` 4) 4); [lia|done].
  - destruct (Nat.ltb_spec (Z.to_nat (ev_count s) `min` 4) 4); [|lia].
    rewrite Z2Nat.inj_add, Nat.add_1_r, list_insert_insert_eq by lia.
    rewrite take_nth_snoc by (rewrite length_insert; lia).
    rewrite take_insert_ge by lia. f_equal. rewrite nth_lookup.
    rewrite list_lookup_insert_eq by lia. done.
Qed.

(** [get_event] refines [abs_get]: it returns the newest event. *)
Lemma get_event_refines s :
  events_wf s ->
  queued (fst (get_event s)) = fst (abs_get (queued s)) /\
  snd (get_event s) = snd (abs_get (queued s)).
Proof.
  unfold events_wf, queued, get_event, abs_get, EVENTS_LEN. intros [Hl Hc].
  case_match; zbool_hyps; simpl.
  - by replace (Z.to_nat (ev_count s)) with 0%nat by lia.
  - replace (Z.to_nat (ev_count s)) with (S (Z.to_nat (ev_count s - 1))) by lia.
    rewrite take_nth_snoc by lia. rewrite rev_app_distr. simpl.
    by rewrite rev_involutive.
Qed.

Lemma drain_events_queue fuel s :
  events_wf s -> (Z.to_nat (ev_count s) < fuel)%nat ->
  exists s', drain_events fuel s = Ok (s', rev (queued s)) /\ ev_count s' = 0.
Proof.
  revert s. induction fuel as [|n IH]; intros s Hwf Hf; [lia|].
  destruct (get_event_refines s Hwf) as [Hq He]. simpl.
  destruct (get_event s) as [s1 [e|]] eqn:Hg; simpl in *.
  - destruct (IH s1) as (s' & Hd & Hc).
    + pose proof (get_event_wf s Hwf) as W. by rewrite Hg in W.
    + unfold get_event in Hg. case_match; simplify_eq/=; zbool_hyps; lia.
    + rewrite Hd. exists s'. split; [|done]. simpl. rewrite Hq.
      unfold abs_get in *. destruct (rev (queued s)); simplify_eq/=.
      by rewrite rev_involutive.
  - exists s1. unfold get_event in Hg. destruct Hwf as [_ Hc].
    case_match; simplify_eq/=; zbool_hyps.
    unfold queued. replace (Z.to_nat (ev_count s1)) with 0%nat by lia.
    split; [done|lia].
Qed.

(** C27: the loop of [editor_frame] empties the queue, handling the events
    newest first (the queue is a stack, not a FIFO). *)
Theorem drain_events_lifo fuel s :
  events_wf s -> (Z.to_nat (ev_count s) < fuel)%nat ->
  exists s', drain_events fuel s = Ok (s', rev (queued s)) /\ ev_count s' = 0.
Proof. eapply drain_events_queue; eassumption. Qed.

Lemma drain_events_lifo_witness :
  exists s', drain_events 3
    (mkInput [mkEvent EVENT_CHAR 0x61; mkEvent EVENT_KEY 1; event_zero; event_zero] 2
             event_zero false) =
    Ok (s', [mkEvent EVENT_KEY 1; mkEvent EVENT_CHAR 0x61]) /\ ev_count s' = 0.
Proof.
  apply (drain_events_lifo 3); [split; [reflexivity|vm_compute; split; congruence]|vm_compute; lia].
Defined.

(** Pushing a list of events one after the other. *)
Definition push_all (s : Input_state) (evs : list Event) : Input_state :=
  fold_left (fun s e => push s (ev_type e) (ev_data e)) evs s.

(** C28: saturation: of the events pushed, only as many as fit are kept, in
    order, the kept ones are not disturbed, the count stops at
    [EVENTS_LEN] and the queue stays well formed: the pushes that do not
    fit go to [event_null]. *)
Theorem push_all_saturates s evs :
  events_wf s ->
  queued (push_all s evs) = queued s ++ take (4 - length (queued s)) evs /\
  ev_count (push_all s evs) = Z.min EVENTS_LEN (ev_count s + Z.of_nat (length evs)) /\
  events_wf (push_all s evs).
Proof.
  revert s. induction evs as [|[t d] evs IH]; intros s Hwf; simpl.
  - rewrite take_nil, app_nil_r. split_and!; [done| |done].
    destruct Hwf as [_ Hc]. unfold EVENTS_LEN in *. lia.
  - destruct (IH (push s t d)) as (Hq & Hc & Hw); [auto with red|].
    split_and!; [|rewrite Hc, push_count by done; unfold EVENTS_LEN; lia|done].
    rewrite Hq, push_spec by done.
    unfold abs_push. destruct (Nat.ltb_spec (length (queued s)) 4).
    + rewrite length_app. simpl. rewrite <- app_assoc.
      replace (4 - length (queued s))%nat with (S (4 - (length (queued s) + 1)))
        by lia. done.
    + by replace (4 - length (queued s))%nat with 0%nat by lia.
Qed.

(** Witness at the spec's example: five events pushed onto an empty queue
    leave exactly the first four retrievable. *)
Lemma push_all_saturates_witness :
  let s := push_all (mkInput (repeat event_zero 4) 0 event_zero false)
             [mkEvent EVENT_CHAR 1; mkEvent EVENT_CHAR 2; mkEvent EVENT_CHAR 3;
              mkEvent EVENT_CHAR 4; mkEvent EVENT_CHAR 5] in
  queued s = queued (mkInput (repeat event_zero 4) 0 event_zero false) ++
             take (4 - length (queued (mkInput (repeat event_zero 4) 0 event_zero false)))
               [mkEvent EVENT_CHAR 1; mkEvent EVENT_CHAR 2; mkEvent EVENT_CHAR 3;
                mkEvent EVENT_CHAR 4; mkEvent EVENT_CHAR 5] /\
  ev_count s = Z.min EVENTS_LEN (0 + Z.of_nat 5) /\ events_wf s.
Proof.
  apply (push_all_saturates (mkInput (repeat event_zero 4) 0 event_zero false)).
  split; [reflexivity|vm_compute; split; congruence].
Defined.

(** ** The input branch of [main] *)

Lemma char_body_ok input bytes used s :
  char_body input bytes (used, s) =
    Ok (used_after used (snd (utf8_to_32 input (bytes - used))),
        push s EVENT_CHAR (fst (utf8_to_32 input (bytes - used)))).
Proof. unfold char_body. by destruct (utf8_to_32 input (bytes - used)). Qed.

(** The character loop always decodes from [input], never from
    [input + used], and overwrites [used] instead of adding to it: [used]
    can only ever be 0 or the length announced by [input[0]]. *)
Lemma char_loop_stuck fuel input bytes s :
  0 < bytes -> lead_len (at_ input 0) <> bytes ->
  char_loop fuel input bytes (0, s) = OutOfFuel.
Proof.
  intros Hb HL. unfold char_loop.
  apply (while_loop_diverges _ _
           (fun st => (fst st = 0 \/ fst st = lead_len (at_ input 0)) /\ fst st < bytes));
    [| |simpl; lia].
  - intros [u q] [_ H]. unfold char_cond. simpl. by apply Z.ltb_lt.
  - intros [u q] [Hu Hlt]. cbn [fst] in Hu, Hlt.
    rewrite char_body_ok. eexists; split; [reflexivity|].
    simpl. destruct (utf8_to_32_ok input (bytes - u)) as [-> _].
    case_match; zbool_hyps; cbn [used_after fst]; lia.
Qed.

(** C8: a chunk of text that is not exactly one UTF-8 sequence (two typed
    characters arriving in one [read], a pasted string, a lone invalid or
    truncated byte) makes [main] loop forever: no fuel is enough. *)
Theorem handle_input_hangs fuel s bytes input :
  0 < bytes -> at_ input 0 <> 0x1b -> lead_len (at_ input 0) <> bytes ->
  handle_input fuel s false bytes input = OutOfFuel.
Proof.
  intros Hb He HL. unfold handle_input. zbool.
  by rewrite char_loop_stuck.
Qed.

(** Witness: the two bytes ["ab"] in one read. *)
Lemma handle_input_hangs_witness :
  handle_input 1000 (mkInput (repeat event_zero 4) 0 event_zero false) false 2
    ([0x61; 0x62] ++ repeat 0 14) = OutOfFuel.
Proof. apply handle_input_hangs; vm_compute; congruence. Defined.

Lemma handle_input_one fuel s bytes input :
  (2 <= fuel)%nat -> at_ input 0 <> 0x1b ->
  1 <= lead_len (at_ input 0) -> lead_len (at_ input 0) = bytes ->
  handle_input fuel s false bytes input =
    Ok (push (note_quit (at_ input 0) s) EVENT_CHAR (fst (utf8_to_32 input bytes))).
Proof.
  intros Hf He H1 HL. destruct fuel as [|[|n]]; [lia|lia|].
  unfold handle_input. zbool. unfold char_loop.
  erewrite (while_loop_step _ _ (S n) (0, note_quit (at_ input 0) s));
    [|unfold char_cond; simpl; zbool; done|apply char_body_ok].
  rewrite Z.sub_0_r.
  destruct (utf8_to_32_ok input bytes) as [-> _]. zbool. cbn [used_after].
  rewrite while_loop_exit; [done|]. unfold char_cond. simpl. zbool. done.
Qed.

(** C24: a chunk that is exactly one UTF-8 sequence yields exactly one
    Character event carrying the decoded codepoint (after recording a
    ['q'] as the quit request). *)
Theorem handle_input_char fuel s bytes input :
  (2 <= fuel)%nat -> at_ input 0 <> 0x1b ->
  1 <= lead_len (at_ input 0) -> lead_len (at_ input 0) = bytes ->
  handle_input fuel s false bytes input =
    Ok (push (note_quit (at_ input 0) s) EVENT_CHAR (fst (utf8_to_32 input bytes))).
Proof. eapply handle_input_one; eassumption. Qed.

(** Witness at the spec's example: the bytes of "é" give one
    Character event 0xE9. *)
Lemma handle_input_char_witness :
  handle_input 2 (mkInput (repeat event_zero 4) 0 event_zero false) false 2
    ([0xC3; 0xA9] ++ repeat 0 14) =
  Ok (mkInput [mkEvent EVENT_CHAR 0xE9; event_zero; event_zero; event_zero] 1
              event_zero false).
Proof.
  rewrite handle_input_char; [reflexivity|lia|vm_compute; congruence
                             |vm_compute; congruence|reflexivity].
Defined.

(** The spec's mapping of the third byte of [ESC [ x] to a key. *)
Definition arrow_keys : list (Z * Key) :=
  [(0x41, KEY_UP); (0x42, KEY_DOWN); (0x43, KEY_RIGHT); (0x44, KEY_LEFT)].

Definition arrow_key (b : Z) : option Key :=
  option_map snd (find (fun p => fst p =? b) arrow_keys).

(** The code's [switch] agrees with the table; no byte maps to [KEY_NONE]. *)
Lemma key_of_byte_arrow b :
  key_of_byte b = (match arrow_key b with Some k => k | None => KEY_NONE end) /\
  arrow_key b <> Some KEY_NONE.
Proof.
  unfold key_of_byte, arrow_key. cbn [find arrow_keys fst snd].
  rewrite !(Z.eqb_sym _ b). destruct (b =? 0x41), (b =? 0x42), (b =? 0x43), (b =? 0x44); done.
Qed.

(** C25: a chunk starting with [ESC [] queues exactly one Key event when
    the third byte is one of [A B C D], with the key the spec's table
    gives it (up, down, right, left), and no event otherwise; it never
    sets [should_close].  This holds for every [bytes > 0]: the decision
    reads [input[1]] and [input[2]] even when [read] returned fewer than
    three bytes. *)
Theorem handle_input_key fuel s bytes input :
  events_wf s -> 0 < bytes -> at_ input 0 = 0x1b -> at_ input 1 = 0x5b ->
  exists s', handle_input fuel s false bytes input = Ok s' /\
    should_close s' = should_close s /\
    queued s' = match arrow_key (at_ input 2) with
                | Some k => abs_push (queued s) (mkEvent EVENT_KEY (key_code k))
                | None => queued s
                end.
Proof.
  intros Hwf Hb H0 H1. unfold handle_input, note_quit. rewrite H0, H1. zbool.
  destruct (key_of_byte_arrow (at_ input 2)) as [-> Hn].
  destruct (arrow_key (at_ input 2)) as [[]|]; try done;
    eexists; (split; [reflexivity|]); by rewrite ?push_close, ?push_spec.
Qed.

Lemma handle_input_key_witness :
  exists s', handle_input 0 (mkInput (repeat event_zero 4) 0 event_zero false) false 3
    ([0x1b; 0x5b; 0x41] ++ repeat 0 13) = Ok s' /\
    should_close s' = false /\
    queued s' = abs_push [] (mkEvent EVENT_KEY (key_code KEY_UP)).
Proof.
  apply (handle_input_key 0 (mkInput (repeat event_zero 4) 0 event_zero false) 3
           ([0x1b; 0x5b; 0x41] ++ repeat 0 13));
    [split; [reflexivity|unfold EVENTS_LEN; simpl; lia]|lia|reflexivity|reflexivity].
Defined.

End Input.
