(* ===== verification/Arena.v ===== *)
(** * Arena: the bump allocator of src/red_linux.cpp

    [mem_buffer], [mem_used] and [mem_used_max] with [mem_alloc_zeroed]
    and [mem_realloc_zeroed].  The static byte array is a total function
    from offsets to bytes (zero-initialised, as a static array is); a
    pointer into it is its offset, and the null pointer is [None].  The
    [ASSERT] of [mem_alloc_zeroed] is modelled as in a [DEBUG] build: a
    failed check is [Panic].  Clients write bytes with [wr8], [store_u32].

    Proved here: the arena invariant (the memory above the high-water mark
    is zero and [mem_used_max] equals [mem_used]) is kept by every
    operation and by every client write below the mark; the grow-in-place
    and the move behaviour of [mem_realloc_zeroed], the second losing the
    old contents; exhaustion. *)

From Stdlib Require Import ZArith Lia List.
From stdpp Require Import base list list_numbers.
From S2P Require Import Prelude.
Import ListNotations.
Local Open Scope Z_scope.

Module Arena.

(** [#define MEM_CAPACITY (640*1024)] *)
Definition MEM_CAPACITY : Z := 640 * 1024.

(** [mem_buffer], [mem_used], [mem_used_max]. *)
Record Arena := mkArena {
  mem_buffer : Z -> Z;
  mem_used : Z;
  mem_used_max : Z }.

(** The program's initial arena: the static buffer is all zero. *)
Definition arena_init : Arena := mkArena (fun _ => 0) 0 0.

Definition rd (a : Arena) (addr : Z) : Z := mem_buffer a addr.

Definition upd (m : Z -> Z) (addr v : Z) : Z -> Z :=
  fun x => if x =? addr then v else m x.

(** [memset(buffer, 0, len)]. *)
Definition memset0 (m : Z -> Z) (p len : Z) : Z -> Z :=
  fold_left (fun m i => upd m (p + i) 0) (seqZ 0 len) m.

(** [static void *mem_alloc_zeroed(size_t sz)]: the arena after the call
    and the returned pointer. *)
Definition mem_alloc_zeroed (a : Arena) (sz : Z) : res (Arena * Z) :=
  let* _ := assert (mem_used a + sz <=? MEM_CAPACITY) in
  let buffer := mem_used a in
  let used := mem_used a + sz in
  if mem_used_max a <? used then Ok (mkArena (mem_buffer a) used used, buffer)
  else if used <? mem_used_max a then
    Ok (mkArena (memset0 (mem_buffer a) buffer (mem_used_max a - used)) used
                (mem_used_max a), buffer)
  else Ok (mkArena (mem_buffer a) used (mem_used_max a), buffer).

(** [static void *mem_realloc_zeroed(void *ptr, size_t sz, size_t newsz)]. *)
Definition mem_realloc_zeroed (a : Arena) (ptr : option Z) (sz newsz : Z)
    : res (Arena * Z) :=
  match ptr with
  | None => mem_alloc_zeroed a newsz
  | Some p =>
      if newsz <=? sz then Ok (a, p)
      else if p =? mem_used a - sz then
        let* r := mem_alloc_zeroed a (newsz - sz) in Ok (fst r, p)
      else mem_alloc_zeroed a newsz
  end.

(** A client's one-byte store through a [uint8_t] pointer. *)
Definition wr8 (a : Arena) (addr v : Z) : Arena :=
  mkArena (upd (mem_buffer a) addr (u8 v)) (mem_used a) (mem_used_max a).

(** A client's [uint32_t] store and load, little-endian (the x86-64 Linux
    target of red_linux.cpp). *)
Definition store_u32 (a : Arena) (addr v : Z) : Arena :=
  wr8 (wr8 (wr8 (wr8 a addr v) (addr + 1) (Z.shiftr v 8))
           (addr + 2) (Z.shiftr v 16)) (addr + 3) (Z.shiftr v 24).

Definition load_u32 (a : Arena) (addr : Z) : Z :=
  rd a addr + 256 * rd a (addr + 1) + 65536 * rd a (addr + 2)
  + 16777216 * rd a (addr + 3).

(** ** The arena invariant *)

(** The high-water mark is within the buffer, [mem_used_max] never differs
    from [mem_used] (no operation lowers [mem_used]), and every byte at or
    above the mark is zero. *)
Definition arena_wf (a : Arena) : Prop :=
  0 <= mem_used a <= MEM_CAPACITY /\ mem_used_max a = mem_used a /\
  forall x, mem_used a <= x -> rd a x = 0.

Lemma arena_init_wf : arena_wf arena_init.
Proof. unfold arena_wf, MEM_CAPACITY. simpl. split; [lia|done]. Qed.

(** The arena after a bump of [sz] bytes, contents unchanged. *)
Definition bump (a : Arena) (sz : Z) : Arena :=
  mkArena (mem_buffer a) (mem_used a + sz) (mem_used a + sz).

(** Two arenas agree on the bytes of [p, p + n). *)
Definition same_bytes (a a' : Arena) (p n : Z) : Prop :=
  forall x, p <= x < p + n -> rd a' x = rd a x.

(** ** Allocation *)

Lemma mem_alloc_zeroed_ok a sz :
  arena_wf a -> 0 <= sz -> mem_used a + sz <= MEM_CAPACITY ->
  mem_alloc_zeroed a sz = Ok (bump a sz, mem_used a).
Proof.
  destruct a as [m u um]. unfold arena_wf, mem_alloc_zeroed, bump. simpl.
  intros (Hu & -> & Hz) Hsz Hcap. zbool. simpl.
  destruct (Z.ltb_spec u (u + sz)); [done|].
  replace sz with 0 by lia. by rewrite Z.add_0_r.
Qed.

(** Exhaustion is fatal: the [ASSERT] fails when the request does not fit. *)
Theorem mem_alloc_zeroed_exhausted a sz :
  MEM_CAPACITY < mem_used a + sz -> mem_alloc_zeroed a sz = Panic.
Proof. intros H. unfold mem_alloc_zeroed. zbool. done. Qed.

Lemma bump_wf a sz :
  arena_wf a -> 0 <= sz -> mem_used a + sz <= MEM_CAPACITY -> arena_wf (bump a sz).
Proof.
  unfold arena_wf, bump, rd. simpl. intros (Hu & Hm & Hz) Hsz Hcap.
  split; [lia|]. split; [done|]. intros x Hx. apply Hz. lia.
Qed.

(** The bytes handed out by a bump are zero. *)
Lemma bump_zero a sz x :
  arena_wf a -> mem_used a <= x -> rd (bump a sz) x = 0.
Proof. intros (_ & _ & Hz) Hx. apply Hz, Hx. Qed.

#[export] Hint Resolve bump_wf : red.

(** ** Reallocation *)

Lemma mem_realloc_zeroed_shrink a p sz newsz :
  newsz <= sz -> mem_realloc_zeroed a (Some p) sz newsz = Ok (a, p).
Proof. intros H. simpl. zbool. done. Qed.

(** Growing the most recent block (the one ending at the high-water
    mark) extends it in place: the same pointer is returned, the old bytes
    are untouched and the added bytes are zero. *)
Theorem mem_realloc_zeroed_in_place a p sz newsz :
  arena_wf a -> 0 <= sz < newsz -> p = mem_used a - sz ->
  p + newsz <= MEM_CAPACITY ->
  mem_realloc_zeroed a (Some p) sz newsz = Ok (bump a (newsz - sz), p) /\
  same_bytes a (bump a (newsz - sz)) p sz /\
  (forall x, p + sz <= x < p + newsz -> rd (bump a (newsz - sz)) x = 0).
Proof.
  intros Hwf Hsz -> Hcap. split; [|split].
  - simpl. zbool. rewrite mem_alloc_zeroed_ok by (done || lia). done.
  - intros x Hx. done.
  - intros x Hx. apply bump_zero; [done|lia].
Qed.

(** Growing a block that is not the most recent one allocates a fresh
    block at the high-water mark. *)
Lemma mem_realloc_zeroed_other a p sz newsz :
  arena_wf a -> 0 <= sz < newsz -> p <> mem_used a - sz ->
  mem_used a + newsz <= MEM_CAPACITY ->
  mem_realloc_zeroed a (Some p) sz newsz = Ok (bump a newsz, mem_used a).
Proof. intros Hwf Hsz Hp Hcap. simpl. zbool. apply mem_alloc_zeroed_ok; [done|lia|lia]. Qed.

(** C18: growing any other block returns a fresh block at the high-water
    mark, zero-filled: the old contents are not copied, so every nonzero
    byte of the old block is lost in the new one. *)
Theorem mem_realloc_zeroed_moves a p sz newsz :
  arena_wf a -> 0 <= sz < newsz -> p <> mem_used a - sz ->
  mem_used a + newsz <= MEM_CAPACITY ->
  mem_realloc_zeroed a (Some p) sz newsz = Ok (bump a newsz, mem_used a) /\
  (forall i, 0 <= i < sz -> rd a (p + i) <> 0 ->
     rd (bump a newsz) (mem_used a + i) <> rd a (p + i)).
Proof.
  intros Hwf Hsz Hp Hcap. split; [by apply mem_realloc_zeroed_other|].
  - intros i Hi Hnz. rewrite bump_zero by (done || lia). congruence.
Qed.

(** Witness: an 8-byte block at the base of the arena, once 8 more
    bytes are allocated above it, moves to the top when it grows. *)
Lemma mem_realloc_zeroed_moves_witness :
  mem_realloc_zeroed (bump arena_init 16) (Some 0) 8 16 =
    Ok (bump (bump arena_init 16) 16, 16) /\
  (forall i, 0 <= i < 8 -> rd (bump arena_init 16) (0 + i) <> 0 ->
     rd (bump (bump arena_init 16) 16) (16 + i) <> rd (bump arena_init 16) (0 + i)).
Proof.
  refine (mem_realloc_zeroed_moves (bump arena_init 16) 0 8 16 _ _ _ _).
  - apply bump_wf; [exact arena_init_wf|lia|unfold MEM_CAPACITY; simpl; lia].
  - lia.
  - simpl. lia.
  - unfold MEM_CAPACITY. simpl. lia.
Defined.

Lemma mem_alloc_zeroed_wf a sz a' q :
  arena_wf a -> 0 <= sz -> mem_alloc_zeroed a sz = Ok (a', q) -> arena_wf a'.
Proof.
  intros Hwf Hsz. destruct (Z.leb_spec (mem_used a + sz) MEM_CAPACITY).
  - rewrite mem_alloc_zeroed_ok by done. intros [= <- _]. auto with red.
  - rewrite mem_alloc_zeroed_exhausted by lia. discriminate.
Qed.

(** The invariant is kept by [mem_realloc_zeroed] whenever it returns. *)
Lemma mem_realloc_zeroed_wf a ptr sz newsz a' q :
  arena_wf a -> 0 <= sz -> 0 <= newsz ->
  mem_realloc_zeroed a ptr sz newsz = Ok (a', q) -> arena_wf a'.
Proof.
  intros Hwf Hsz Hnew. destruct ptr as [p|]; simpl; [|apply mem_alloc_zeroed_wf; done].
  destruct (Z.leb_spec newsz sz); [by intros [= <- _]|].
  destruct (Z.eqb_spec p (mem_used a - sz)); [|apply mem_alloc_zeroed_wf; done].
  destruct (mem_alloc_zeroed a (newsz - sz)) as [[a1 q1]| |] eqn:E; simpl; try discriminate.
  intros [= <- _]. apply (mem_alloc_zeroed_wf a (newsz - sz) a1 q1); [done|lia|done].
Qed.

(** ** Client stores *)

Lemma rd_wr8 a addr v x : rd (wr8 a addr v) x = if x =? addr then u8 v else rd a x.
Proof. reflexivity. Qed.

Lemma wr8_wf a addr v : arena_wf a -> addr < mem_used a -> arena_wf (wr8 a addr v).
Proof.
  intros (Hu & Hm & Hz) Ha. split; [done|]. split; [done|].
  intros x Hx. rewrite rd_wr8. simpl in Hx. zbool. by apply Hz.
Qed.

Lemma store_u32_wf a p v :
  arena_wf a -> p + 4 <= mem_used a -> arena_wf (store_u32 a p v).
Proof. intros Hwf Hp. unfold store_u32. repeat apply wr8_wf; simpl; lia || done. Qed.

Lemma rd_store_u32_other a p v x :
  x < p \/ p + 4 <= x -> rd (store_u32 a p v) x = rd a x.
Proof. intros Hx. unfold store_u32. rewrite !rd_wr8. zbool. done. Qed.

Lemma load_store_u32 a p v : 0 <= v < 2 ^ 32 -> load_u32 (store_u32 a p v) p = v.
Proof.
  intros Hv. unfold load_u32, store_u32. rewrite !rd_wr8. zbool.
  unfold u8, wrap. rewrite !Z.shiftr_div_pow2 by lia. zlia.
Qed.

Lemma load_store_u32_other a p q v :
  q + 4 <= p \/ p + 4 <= q -> load_u32 (store_u32 a p v) q = load_u32 a q.
Proof. intros H. unfold load_u32. rewrite !rd_store_u32_other by lia. done. Qed.

Lemma load_u32_bump a sz q : load_u32 (bump a sz) q = load_u32 a q.
Proof. reflexivity. Qed.

Lemma load_u32_ext a a' q :
  (forall x, mem_buffer a' x = mem_buffer a x) -> load_u32 a' q = load_u32 a q.
Proof. intros H. unfold load_u32, rd. by rewrite !H. Qed.

#[export] Hint Resolve store_u32_wf : red.

(** ** What a returning (re)allocation gives *)

Lemma mem_alloc_zeroed_inv a sz a' q :
  arena_wf a -> 0 <= sz -> mem_alloc_zeroed a sz = Ok (a', q) ->
  a' = bump a sz /\ q = mem_used a /\ mem_used a + sz <= MEM_CAPACITY.
Proof.
  intros Hwf Hsz. destruct (Z.leb_spec (mem_used a + sz) MEM_CAPACITY).
  - rewrite mem_alloc_zeroed_ok by done. by intros [= <- <-].
  - rewrite mem_alloc_zeroed_exhausted by lia. discriminate.
Qed.

(** A growing reallocation returns a block of [newsz] bytes inside the
    allocated part of the arena, and never lowers the high-water mark. *)
Lemma mem_realloc_zeroed_block a ptr sz newsz a' q :
  arena_wf a -> 0 <= sz < newsz ->
  match ptr with None => sz = 0 | Some p => 0 <= p /\ p + sz <= mem_used a end ->
  mem_realloc_zeroed a ptr sz newsz = Ok (a', q) ->
  0 <= q /\ q + newsz <= mem_used a' /\ mem_used a <= mem_used a' /\
  mem_buffer a' = mem_buffer a.
Proof.
  intros Hwf Hsz Hp. pose proof Hwf as (Hu & _ & _).
  destruct ptr as [p|]; simpl.
  - zbool. destruct (Z.eqb_spec p (mem_used a - sz)).
    + destruct (mem_alloc_zeroed a (newsz - sz)) as [[a1 q1]| |] eqn:E; try discriminate.
      apply mem_alloc_zeroed_inv in E as (-> & -> & _); [|done|lia].
      intros [= <- <-]. simpl. repeat split; lia || done.
    + intros E. apply mem_alloc_zeroed_inv in E as (-> & -> & _); [|done|lia].
      simpl. repeat split; lia || done.
  - intros E. apply mem_alloc_zeroed_inv in E as (-> & -> & _); [|done|lia].
    simpl. repeat split; lia || done.
Qed.

End Arena.
