(* ===== verification/Array.v ===== *)
(** * Growable array over the arena (src/editor.cpp)

    The templates [array_ensure], [array_append_many] and [array_append]
    of src/editor.cpp, for an array struct with [data], [count] and
    [capacity] (the [Region] of the editor is one, with 4-byte [uint32_t]
    elements).  The element size (the [sizeof] of an element) is a parameter.
    The pointer [array_append_many] returns is [None] when [data] is null.

    Proved here: [array_ensure] establishes [capacity >= count + n] with
    the growth policy of the code; an array whose block is the most recent
    allocation of the arena (or not yet allocated) keeps its elements
    across any number of appends, while a full array that is not reads
    as zeros followed by the new value once it grows (the arena hands out
    a fresh zeroed block and does not copy). *)

From Stdlib Require Import ZArith Lia List.
From stdpp Require Import base list list_numbers.
From S2P Require Import Prelude Arena.
Import ListNotations.
Local Open Scope Z_scope.

Module Array.
Import Arena.

(** An array struct: [T *data; size_t count; size_t capacity;]. *)
Record Array := mkArray { data : option Z; count : Z; capacity : Z }.

(** The zero-initialised struct (as [alloc_zeroed] gives it). *)
Definition array_zero : Array := mkArray None 0 0.

Section Growable.
Context (esz : Z).

(** [template<typename T> static void array_ensure(Platform *p, T *array,
    size_t count)]. *)
Definition array_ensure (a : Arena) (arr : Array) (n : Z) : res (Arena * Array) :=
  if capacity arr <? count arr + n then
    let old_capacity := capacity arr in
    let cap := capacity arr + Z.max (capacity arr) n in
    let* r := mem_realloc_zeroed a (data arr) (old_capacity * esz) (cap * esz) in
    Ok (fst r, mkArray (Some (snd r)) (count arr) cap)
  else Ok (a, arr).

(** [array_append_many]: the arena, the array after the call, and the
    returned pointer [&array->data[array->count]] (taken before the count
    is raised). *)
Definition array_append_many (a : Arena) (arr : Array) (n : Z)
    : res (Arena * Array * option Z) :=
  let* r := array_ensure a arr n in
  let arr1 := snd r in
  Ok (fst r, mkArray (data arr1) (count arr1 + n) (capacity arr1),
      option_map (fun d => d + count arr1 * esz) (data arr1)).

(** [array_append]. *)
Definition array_append (a : Arena) (arr : Array) : res (Arena * Array * option Z) :=
  array_append_many a arr 1.

End Growable.

(** [*array_append(p, region) = v] for a [uint32_t] array; a store
    through the null pointer faults. *)
Definition append_u32 (a : Arena) (arr : Array) (v : Z) : res (Arena * Array) :=
  let* r := array_append 4 a arr in
  match snd r with
  | None => Panic
  | Some q => Ok (store_u32 (fst (fst r)) q v, snd (fst r))
  end.

(** The elements of a [uint32_t] array, as read from the arena. *)
Definition elems (a : Arena) (arr : Array) : list Z :=
  match data arr with
  | None => []
  | Some d => map (fun i => load_u32 a (d + 4 * i)) (seqZ 0 (count arr))
  end.

(** ** Invariants *)

(** The array's block lies inside the allocated part of the arena and
    holds [capacity] elements of [esz] bytes, at least [count] of them. *)
Definition array_wf (esz : Z) (a : Arena) (arr : Array) : Prop :=
  0 <= count arr <= capacity arr /\
  match data arr with
  | None => capacity arr = 0
  | Some d => 0 <= d /\ d + capacity arr * esz <= mem_used a
  end.

(** The array's block is the most recent allocation of the arena, or the
    array has no block yet. *)
Definition array_top (esz : Z) (a : Arena) (arr : Array) : Prop :=
  match data arr with
  | None => True
  | Some d => d + capacity arr * esz = mem_used a
  end.

(** ** [array_ensure] *)

Section Ensure.
Context (esz : Z) (Hesz : 0 < esz).

Lemma array_ensure_noop a arr n :
  count arr + n <= capacity arr -> array_ensure esz a arr n = Ok (a, arr).
Proof. intros H. unfold array_ensure. zbool. done. Qed.

Lemma array_ensure_ok a arr n a' arr' :
  arena_wf a -> array_wf esz a arr -> 0 <= n ->
  array_ensure esz a arr n = Ok (a', arr') ->
  arena_wf a' /\ array_wf esz a' arr' /\ count arr' = count arr /\
  count arr + n <= capacity arr' /\
  capacity arr' = (if capacity arr <? count arr + n
                   then capacity arr + Z.max (capacity arr) n else capacity arr).
Proof.
  intros Hwf [Hc Hd] Hn. unfold array_ensure.
  destruct (Z.ltb_spec (capacity arr) (count arr + n)) as [Hg|Hg]; [|intros [= <- <-]; done].
  destruct (mem_realloc_zeroed a (data arr) _ _) as [[a1 q]| |] eqn:E; try discriminate.
  intros [= <- <-]. simpl.
  assert (Hm : 0 < Z.max (capacity arr) n) by lia.
  assert (Hlt : 0 <= capacity arr * esz < (capacity arr + Z.max (capacity arr) n) * esz) by nia.
  assert (arena_wf a1) by (eapply mem_realloc_zeroed_wf; [done| | |exact E]; lia).
  apply mem_realloc_zeroed_block in E as (Hq & Hq' & _);
    [|done|done|destruct (data arr); [lia|nia]].
  split; [done|]. unfold array_wf. simpl. zbool. repeat split; lia.
Qed.

(** C22: when [array_ensure] returns, the arena and the array are still
    well formed, the count is unchanged, the capacity covers [count + n],
    and it grew by [max(capacity, n)] exactly when it had to. *)
Theorem array_ensure_spec a arr n a' arr' :
  arena_wf a -> array_wf esz a arr -> 0 <= n ->
  array_ensure esz a arr n = Ok (a', arr') ->
  arena_wf a' /\ array_wf esz a' arr' /\ count arr' = count arr /\
  count arr + n <= capacity arr' /\
  capacity arr' = (if capacity arr <? count arr + n
                   then capacity arr + Z.max (capacity arr) n else capacity arr).
Proof. eapply array_ensure_ok; eassumption. Qed.

(** An array on top of the arena stays on top across [array_ensure], and
    keeps its elements. *)
Lemma array_ensure_top a arr n a' arr' :
  arena_wf a -> array_wf esz a arr -> array_top esz a arr -> 0 < n ->
  array_ensure esz a arr n = Ok (a', arr') ->
  array_top esz a' arr' /\ data arr' <> None /\
  (forall x, mem_buffer a' x = mem_buffer a x) /\
  (data arr = data arr' \/ count arr = 0).
Proof.
  intros Hwf [Hc Hd] Ht Hn. unfold array_ensure, array_top in *.
  destruct (Z.ltb_spec (capacity arr) (count arr + n)) as [Hg|Hg].
  2:{ intros [= <- <-]. repeat split; auto. destruct (data arr); [done|lia]. }
  assert (Hlt : capacity arr * esz < (capacity arr + Z.max (capacity arr) n) * esz) by nia.
  destruct (data arr) as [d|] eqn:Ed; simpl.
  - zbool.
    destruct (mem_alloc_zeroed a _) as [[a1 q1]| |] eqn:E; try discriminate. simpl.
    apply mem_alloc_zeroed_inv in E as (-> & -> & _); [|done|nia].
    intros [= <- <-]. simpl. repeat split; try nia; auto.
  - destruct (mem_alloc_zeroed a _) as [[a1 q1]| |] eqn:E; try discriminate. simpl.
    apply mem_alloc_zeroed_inv in E as (-> & -> & _); [|done|nia].
    intros [= <- <-]. simpl. repeat split; try lia; auto.
Qed.

End Ensure.

(** Witness: a first [array_ensure] of 3 [uint32_t] on an empty
    array in a fresh arena. *)
Lemma array_ensure_spec_witness :
  exists a' arr', array_ensure 4 arena_init array_zero 3 = Ok (a', arr') /\
  (arena_wf a' /\ array_wf 4 a' arr' /\ count arr' = count array_zero /\
   count array_zero + 3 <= capacity arr' /\
   capacity arr' = (if capacity array_zero <? count array_zero + 3
                    then capacity array_zero + Z.max (capacity array_zero) 3
                    else capacity array_zero)).
Proof.
  eexists _, _. split; [vm_compute; reflexivity|].
  apply (array_ensure_spec 4 ltac:(lia) arena_init array_zero 3).
  - exact arena_init_wf.
  - unfold array_wf. simpl. lia.
  - lia.
  - vm_compute. reflexivity.
Defined.

(** ** Appending *)

Lemma elems_store a d c cap v :
  0 <= c -> 0 <= v < 2 ^ 32 ->
  elems (store_u32 a (d + c * 4) v) (mkArray (Some d) (c + 1) cap) =
  elems a (mkArray (Some d) c cap) ++ [v].
Proof.
  intros Hc Hv. unfold elems. simpl. rewrite seqZ_snoc, map_app by lia. simpl. f_equal.
  - apply map_seqZ_ext. intros i Hi. apply load_store_u32_other. lia.
  - rewrite (Z.mul_comm 4 c). by rewrite load_store_u32.
Qed.

(** The elements depend only on the bytes of the array's block. *)
Lemma elems_same a a' arr d :
  data arr = Some d -> count arr <= capacity arr ->
  (forall z, d <= z < d + capacity arr * 4 -> rd a' z = rd a z) -> elems a' arr = elems a arr.
Proof.
  intros Hd Hc H. unfold elems. rewrite Hd. apply map_seqZ_ext. intros i Hi.
  unfold load_u32. rewrite !H by lia. done.
Qed.

Lemma elems_ext a a' arr :
  (forall x, mem_buffer a' x = mem_buffer a x) -> elems a' arr = elems a arr.
Proof.
  intros H. unfold elems. destruct (data arr); [|done].
  apply map_ext. intros i. by apply load_u32_ext.
Qed.

(** Appending a [uint32_t] to an array whose block is the most recent
    allocation: the value is added after the old elements, which are kept,
    and the array stays on top. *)
Lemma append_u32_top a arr v a' arr' :
  arena_wf a -> array_wf 4 a arr -> array_top 4 a arr -> 0 <= v < 2 ^ 32 ->
  append_u32 a arr v = Ok (a', arr') ->
  arena_wf a' /\ array_wf 4 a' arr' /\ array_top 4 a' arr' /\
  elems a' arr' = elems a arr ++ [v] /\ count arr' = count arr + 1.
Proof.
  intros Hwf Haw Ht Hv. unfold append_u32, array_append, array_append_many.
  destruct (array_ensure 4 a arr 1) as [[a1 arr1]| |] eqn:E; try discriminate. simpl.
  destruct (array_ensure_ok 4 ltac:(lia) a arr 1 a1 arr1 Hwf Haw ltac:(lia) E)
    as (Hwf1 & [Hc1 Hd1] & Hcount & Hcap & _).
  destruct (array_ensure_top 4 ltac:(lia) a arr 1 a1 arr1 Hwf Haw Ht ltac:(lia) E)
    as (Ht1 & Hnn & Hbuf & Hsame).
  unfold array_top in *.
  destruct (data arr1) as [d|] eqn:Ed; [|done]. simpl. intros [= <- <-].
  rewrite Hcount. split; [|split; [|split; [|split]]].
  - apply store_u32_wf; [done|lia].
  - unfold array_wf. simpl. lia.
  - simpl. lia.
  - destruct arr1 as [d1 c1 cap1]. simpl in *. subst.
    rewrite (elems_store a1 d (count arr) cap1 v) by lia.
    rewrite (elems_ext a a1) by done. f_equal.
    unfold elems. simpl. destruct Hsame as [-> | H0]; [done|].
    rewrite H0. destruct (data arr); done.
  - done.
Qed.

(** Appending to an array with room left: no reallocation, the value is
    stored after the old elements. *)
Lemma append_u32_room a arr d v :
  arena_wf a -> array_wf 4 a arr -> data arr = Some d ->
  count arr + 1 <= capacity arr -> 0 <= v < 2 ^ 32 ->
  exists a',
    append_u32 a arr v = Ok (a', mkArray (Some d) (count arr + 1) (capacity arr)) /\
    arena_wf a' /\ array_wf 4 a' (mkArray (Some d) (count arr + 1) (capacity arr)) /\
    mem_used a' = mem_used a /\
    elems a' (mkArray (Some d) (count arr + 1) (capacity arr)) = elems a arr ++ [v].
Proof.
  intros Hwf [Hc Hd] Ed Hroom Hv. rewrite Ed in Hd.
  unfold append_u32, array_append, array_append_many.
  rewrite array_ensure_noop by lia. simpl. rewrite Ed. simpl.
  eexists. split; [reflexivity|]. split; [|split; [|split]].
  - apply store_u32_wf; [done|lia].
  - unfold array_wf. simpl. lia.
  - done.
  - destruct arr as [d0 c cap]. simpl in *. subst. apply elems_store; lia.
Qed.

(** Appending values one at a time, as the loader does. *)
Fixpoint append_all (a : Arena) (arr : Array) (vs : list Z) : res (Arena * Array) :=
  match vs with
  | [] => Ok (a, arr)
  | v :: vs' => let* r := append_u32 a arr v in append_all (fst r) (snd r) vs'
  end.

Definition u32_list (vs : list Z) : Prop := Forall (fun v => 0 <= v < 2 ^ 32) vs.

(** C16: appending values one at a time to an array whose block is the
    most recent allocation (or that has none yet) never loses an element:
    when the appends return, the array holds the old elements followed by
    the new ones, and the count grew by their number. *)
Theorem append_all_keeps a arr vs a' arr' :
  arena_wf a -> array_wf 4 a arr -> array_top 4 a arr -> u32_list vs ->
  append_all a arr vs = Ok (a', arr') ->
  elems a' arr' = elems a arr ++ vs /\ count arr' = count arr + Z.of_nat (length vs) /\
  arena_wf a' /\ array_wf 4 a' arr' /\ array_top 4 a' arr'.
Proof.
  revert a arr. induction vs as [|v vs IH]; intros a arr Hwf Haw Ht Hvs; simpl.
  - intros [= <- <-]. rewrite app_nil_r. split; [done|split; [simpl; lia|done]].
  - inversion Hvs as [|? ? Hv Hvs']; subst.
    destruct (append_u32 a arr v) as [[a1 arr1]| |] eqn:E; try discriminate. simpl.
    destruct (append_u32_top a arr v a1 arr1 Hwf Haw Ht Hv E) as (W1 & A1 & T1 & E1 & C1).
    intros H. destruct (IH a1 arr1 W1 A1 T1 Hvs' H) as (E2 & C2 & ?).
    rewrite E2, E1, <- app_assoc, C2, C1. split; [done|split; [simpl length; lia|done]].
Qed.

(** Witness at the spec's example: five values appended to an empty
    region in a fresh arena cross the growth boundaries 1, 2 and 4. *)
Lemma append_all_keeps_witness :
  exists a' arr', append_all arena_init array_zero [1; 2; 3; 4; 5] = Ok (a', arr') /\
  (elems a' arr' = elems arena_init array_zero ++ [1; 2; 3; 4; 5] /\
   count arr' = count array_zero + Z.of_nat (length [1; 2; 3; 4; 5]) /\
   arena_wf a' /\ array_wf 4 a' arr' /\ array_top 4 a' arr').
Proof.
  destruct (append_all arena_init array_zero [1; 2; 3; 4; 5]) as [[a' arr']| |] eqn:E;
    [|vm_compute in E; discriminate|vm_compute in E; discriminate].
  exists a', arr'. split; [done|].
  apply (append_all_keeps arena_init array_zero [1; 2; 3; 4; 5]).
  - exact arena_init_wf.
  - unfold array_wf. simpl. lia.
  - exact I.
  - unfold u32_list. repeat constructor; simpl; lia.
  - exact E.
Defined.

(** The elements of an array in a freshly bumped block are zeros. *)
Lemma elems_fresh a n c cap :
  arena_wf a -> 0 <= c ->
  elems (bump a n) (mkArray (Some (mem_used a)) c cap) = repeat 0 (Z.to_nat c).
Proof.
  intros Hwf Hc. unfold elems. cbn [data count].
  rewrite (map_ext_in _ (fun _ => 0)), map_const, length_seqZ; [f_equal; lia|].
  intros i Hi. apply list_elem_of_In, elem_of_seqZ in Hi.
  unfold load_u32. rewrite !bump_zero by (done || lia). done.
Qed.

(** C38: an array that is not the most recent allocation loses its
    elements when it grows: appending to a full array whose block lies
    below another allocation moves it to a fresh zeroed block without
    copying, so the array then reads [count] zeros followed by the new
    value, whatever it held. *)
Theorem append_not_top_loses a arr d v :
  arena_wf a -> array_wf 4 a arr -> data arr = Some d -> ~ array_top 4 a arr ->
  count arr = capacity arr -> 0 < count arr -> 0 <= v < 2 ^ 32 ->
  mem_used a + 2 * capacity arr * 4 <= MEM_CAPACITY ->
  exists a' arr', append_u32 a arr v = Ok (a', arr') /\ data arr' = Some (mem_used a) /\
    elems a' arr' = repeat 0 (Z.to_nat (count arr)) ++ [v].
Proof.
  intros Hwf [Hc Hd] Ed Ht Hfull Hpos Hv Hcap. rewrite Ed in Hd.
  unfold array_top in Ht. rewrite Ed in Ht.
  unfold append_u32, array_append, array_append_many, array_ensure.
  destruct (Z.ltb_spec (capacity arr) (count arr + 1)); [|lia]. rewrite Ed.
  rewrite Z.max_l by lia. rewrite mem_realloc_zeroed_other by (done || lia).
  cbn [res_bind fst snd data count capacity option_map]. eexists _, _. split; [reflexivity|].
  split; [done|]. rewrite elems_store by lia. f_equal. apply elems_fresh; [done|lia].
Qed.

(** Witness: the array [7] at 0, below an allocation of 8 bytes, gets 9
    appended. *)
Lemma append_not_top_loses_witness :
  exists a' arr', append_u32 (bump (store_u32 (bump arena_init 4) 0 7) 8) (mkArray (Some 0) 1 1) 9 = Ok (a', arr') /\
    data arr' = Some (mem_used (bump (store_u32 (bump arena_init 4) 0 7) 8)) /\
    elems a' arr' = repeat 0 (Z.to_nat (count (mkArray (Some 0) 1 1))) ++ [9].
Proof.
  apply append_not_top_loses with (d := 0).
  - apply bump_wf; [apply store_u32_wf; [apply bump_wf; [exact arena_init_wf|lia|unfold MEM_CAPACITY; simpl; lia]|simpl; lia]|lia|unfold MEM_CAPACITY; simpl; lia].
  - unfold array_wf. simpl. lia.
  - reflexivity.
  - unfold array_top. simpl. lia.
  - reflexivity.
  - simpl. lia.
  - lia.
  - unfold MEM_CAPACITY. simpl. lia.
Defined.

End Array.
