(* ===== verification/Loader.v ===== *)
(** * Buffer loader (src/editor.cpp: ed_load_file_region)

    [ed_load_file_region] decodes the mapped bytes of a file with
    [utf8_to_32], normalises line endings with the [prev_cr] flag, and
    appends the codepoints to the editor's [Region] (a [uint32_t] array in
    the arena).  The mapping [p->fs.map(file, size, offset)] is the list
    [src] of the file's bytes; [unmap] has no effect on the model.

    The abstract specification is a pure pipeline: [decode_utf8] (decode
    the whole buffer) followed by [norm_lines] (the line-ending rule of the
    loop, on codepoints).  Proved here: the loader refines that pipeline
    on every well-formed file, with enough fuel, and fills the region with
    the normalisation the spec describes ([normalize_spec]) whenever every
    [\r] is followed by another character; on a file with a malformed
    sequence it never returns; and on every file followed by a [\r] it
    drops that [\r], where the spec asks for a final [\n]. *)

From Stdlib Require Import ZArith Lia List.
From stdpp Require Import base list list_numbers.
From S2P Require Import Prelude Utf8 Arena Array.
Import ListNotations.
Local Open Scope Z_scope.

Module Loader.
Import Codec Arena Array.

(** ** The pure pipeline *)

(** Decode a whole buffer, one sequence after the other, as long as every
    sequence decodes; [None] at the first failure. *)
Fixpoint decode_fuel (fuel : nat) (bs : list Z) : option (list Z) :=
  match fuel, bs with
  | _, [] => Some []
  | O, _ => None
  | S f, _ =>
      match utf8_to_32 bs (Z.of_nat (length bs)) with
      | (cp, Some u) => option_map (cons cp) (decode_fuel f (drop (Z.to_nat u) bs))
      | (_, None) => None
      end
  end.

Definition decode_utf8 (bs : list Z) : option (list Z) := decode_fuel (length bs) bs.

(** The line-ending rule of the loop, on codepoints, with the [prev_cr]
    flag as an argument. *)
Fixpoint norm_lines (prev_cr : bool) (cps : list Z) : list Z :=
  match cps with
  | [] => []
  | cp :: rest =>
      if cp =? 13 then norm_lines true rest
      else if prev_cr then
        10 :: (if cp =? 10 then norm_lines false rest else cp :: norm_lines false rest)
      else cp :: norm_lines false rest
  end.

(** The normalisation the spec describes: [\r\n], [\r] and [\n] each
    become one [\n]. *)
Fixpoint normalize_spec (cps : list Z) : list Z :=
  match cps with
  | [] => []
  | cp :: rest =>
      if cp =? 13 then
        match rest with
        | c :: rest' => if c =? 10 then 10 :: normalize_spec rest' else 10 :: normalize_spec rest
        | [] => [10]
        end
      else cp :: normalize_spec rest
  end.

(** ** The loop of [ed_load_file_region] *)

(** The loop's variables: the arena, the region, [pos] and [prev_cr]. *)
Record Load_state := mkLoad {
  ld_arena : Arena;
  ld_region : Array;
  ld_pos : Z;
  ld_prev_cr : bool }.

(** [while (pos < size)] *)
Definition load_cond (size : Z) (st : Load_state) : bool := ld_pos st <? size.

(** The body: [used = 0; cp = utf8_to_32(&src[pos], size-pos, &used);
    pos += used;] then the [\r] handling and the appends. *)
Definition load_body (src : list Z) (size : Z) (st : Load_state) : res Load_state :=
  let d := utf8_to_32 (drop (Z.to_nat (ld_pos st)) src) (size - ld_pos st) in
  let cp := fst d in
  let pos := ld_pos st + used_after 0 (snd d) in
  if cp =? 13 then Ok (mkLoad (ld_arena st) (ld_region st) pos true)
  else if ld_prev_cr st then
    let* r := append_u32 (ld_arena st) (ld_region st) 10 in
    if cp =? 10 then Ok (mkLoad (fst r) (snd r) pos false)
    else
      let* r2 := append_u32 (fst r) (snd r) cp in
      Ok (mkLoad (fst r2) (snd r2) pos false)
  else
    let* r := append_u32 (ld_arena st) (ld_region st) cp in
    Ok (mkLoad (fst r) (snd r) pos false).

(** [static void ed_load_file_region(Platform *p, Region *region,
    Handle file, size_t size, size_t offset)], with [src] the mapped
    bytes; the loop gets [fuel] iterations. *)
Definition ed_load_file_region (fuel : nat) (a : Arena) (region : Array)
    (src : list Z) (size : Z) : res (Arena * Array) :=
  let* r := array_ensure 4 a region size in
  let* st := while_loop (load_cond size) (load_body src size) fuel
               (mkLoad (fst r) (snd r) 0 false) in
  Ok (ld_arena st, ld_region st).

(** ** The pure decoder *)

Lemma decode_fuel_enough fuel bs :
  (length bs <= fuel)%nat -> decode_fuel fuel bs = decode_utf8 bs.
Proof.
  unfold decode_utf8. remember (length bs) as n eqn:Hn.
  revert bs fuel Hn. induction n as [n IH] using lt_wf_ind. intros bs fuel Hn Hf.
  destruct bs as [|b bs']; [by destruct fuel, n|].
  destruct fuel as [|f]; [simpl in Hn; lia|]. destruct n as [|n]; [done|].
  cbn [decode_fuel]. destruct (utf8_to_32 _ _) as [cp [u|]] eqn:E; [|done]. f_equal.
  apply utf8_to_32_some in E. rewrite <- Hn in E.
  assert (Hl : (length (drop (Z.to_nat u) (b :: bs')) < S n)%nat)
    by (rewrite length_drop; lia).
  rewrite (IH _ Hl _ f eq_refl) by lia. rewrite (IH _ Hl _ n eq_refl) by lia. done.
Qed.

(** One step of the pure decoder. *)
Lemma decode_utf8_cons bs :
  bs <> [] ->
  decode_utf8 bs =
    match utf8_to_32 bs (Z.of_nat (length bs)) with
    | (cp, Some u) => option_map (cons cp) (decode_utf8 (drop (Z.to_nat u) bs))
    | (_, None) => None
    end.
Proof.
  destruct bs as [|b bs']; [done|]. intros _. unfold decode_utf8 at 1. simpl length.
  cbn [decode_fuel]. destruct (utf8_to_32 _ _) as [cp [u|]] eqn:E; [|done].
  apply utf8_to_32_some in E. rewrite decode_fuel_enough; [done|].
  rewrite length_drop. simpl length in *. lia.
Qed.

Lemma decode_utf8_nil : decode_utf8 [] = Some [].
Proof. reflexivity. Qed.

(** ** The loop invariant *)

Lemma drop_drop_Z (src : list Z) pos u :
  0 <= pos -> 0 <= u ->
  drop (Z.to_nat u) (drop (Z.to_nat pos) src) = drop (Z.to_nat (pos + u)) src.
Proof. intros. rewrite drop_drop, Z2Nat.inj_add by lia. done. Qed.

Lemma norm_lines_app_cons prev (e : list Z) cp rest :
  e ++ norm_lines prev (cp :: rest) =
  if cp =? 13 then e ++ norm_lines true rest
  else if prev then
    (e ++ [10]) ++ (if cp =? 10 then norm_lines false rest else cp :: norm_lines false rest)
  else (e ++ [cp]) ++ norm_lines false rest.
Proof. simpl. destruct (cp =? 13), prev; rewrite <- ?app_assoc; done. Qed.

Section LoadLoop.
Context (src : list Z) (d cap mu : Z) (final : list Z).
Let size := Z.of_nat (length src).

(** What holds before every test of [pos < size]: the arena's top is
    fixed at [mu], the region's block is fixed and has room for [size] codepoints, the region holds at most
    as many codepoints as bytes consumed (one less when a [\r] is pending),
    the rest of the file decodes, and what is written plus what the rest
    will give is the final result. *)
Definition load_inv (st : Load_state) : Prop :=
  arena_wf (ld_arena st) /\ mem_used (ld_arena st) = mu /\ array_wf 4 (ld_arena st) (ld_region st) /\
  data (ld_region st) = Some d /\ capacity (ld_region st) = cap /\ size <= cap /\
  0 <= ld_pos st <= size /\
  count (ld_region st) + (if ld_prev_cr st then 1 else 0) <= ld_pos st /\
  exists rest, decode_utf8 (drop (Z.to_nat (ld_pos st)) src) = Some rest /\
    elems (ld_arena st) (ld_region st) ++ norm_lines (ld_prev_cr st) rest = final.

Lemma load_inv_intro a r pos (prev : bool) (rest : list Z) :
  arena_wf a -> mem_used a = mu -> array_wf 4 a r -> data r = Some d -> capacity r = cap -> size <= cap ->
  0 <= pos <= size -> count r + (if prev then 1 else 0) <= pos ->
  decode_utf8 (drop (Z.to_nat pos) src) = Some rest ->
  elems a r ++ norm_lines prev rest = final ->
  load_inv (mkLoad a r pos prev).
Proof. intros. unfold load_inv. cbn. do 8 (split; [done|]). eauto. Qed.

Lemma load_body_inv st :
  load_inv st -> ld_pos st < size ->
  exists st', load_body src size st = Ok st' /\ load_inv st' /\ ld_pos st < ld_pos st'.
Proof.
  destruct st as [a r pos prev].
  intros (Hwf & Hmu & Haw & Hd & Hcap & Hsc & Hpos & Hcnt & rest & Hdec & Hfin) Hlt.
  cbn [ld_arena ld_region ld_pos ld_prev_cr] in *.
  pose proof Haw as [Hc _].
  set (bs := drop (Z.to_nat pos) src) in *.
  assert (Hlen : Z.of_nat (length bs) = size - pos)
    by (subst bs size; rewrite length_drop; lia).
  rewrite decode_utf8_cons in Hdec by (intros Hn; rewrite Hn in Hlen; simpl in Hlen; lia).
  unfold load_body. cbn [ld_arena ld_region ld_pos ld_prev_cr]. fold bs. rewrite <- Hlen.
  pose proof (utf8_to_32_cp_bound bs (Z.of_nat (length bs))) as Hb.
  destruct (utf8_to_32 bs _) as [cp [u|]] eqn:E; [|discriminate].
  apply utf8_to_32_some in E. cbn [fst snd used_after] in *.
  destruct (decode_utf8 (drop (Z.to_nat u) bs)) as [rest'|] eqn:Hrest; [|discriminate].
  injection Hdec as <-. subst bs. rewrite drop_drop_Z in Hrest by lia.
  rewrite norm_lines_app_cons in Hfin.
  destruct (cp =? 13) eqn:H13.
  { eexists. split; [reflexivity|]. split; [|simpl; lia].
    apply (load_inv_intro _ _ _ _ rest'); try done; [lia|destruct prev; lia]. }
  destruct prev.
  - destruct (append_u32_room a r d 10 Hwf Haw Hd ltac:(lia) ltac:(lia))
      as (a1 & Ea1 & W1 & A1 & U1 & E1).
    rewrite Ea1. simpl. destruct (cp =? 10) eqn:H10.
    + eexists. split; [reflexivity|]. split; [|simpl; lia].
      apply (load_inv_intro _ _ _ _ rest'); try done; try (simpl; lia).
      by rewrite E1.
    + destruct (append_u32_room a1 (mkArray (Some d) (count r + 1) (capacity r)) d cp W1 A1
                  eq_refl ltac:(simpl; lia) ltac:(lia)) as (a2 & Ea2 & W2 & A2 & U2 & E2).
      cbn [count capacity] in Ea2, W2, A2, E2. rewrite Ea2. simpl. eexists. split; [reflexivity|]. split; [|simpl; lia].
      apply (load_inv_intro _ _ _ _ rest'); try done; try (simpl; lia).
      rewrite E2, E1, <- Hfin, <- !app_assoc. done.
  - destruct (append_u32_room a r d cp Hwf Haw Hd ltac:(lia) ltac:(lia))
      as (a1 & Ea1 & W1 & A1 & U1 & E1).
    rewrite Ea1. simpl. eexists. split; [reflexivity|]. split; [|simpl; lia].
    apply (load_inv_intro _ _ _ _ rest'); try done; try (simpl; lia).
    by rewrite E1.
Qed.

End LoadLoop.

(** The loader on a file whose bytes decode: it returns the normalised
    codepoints in a block of one [uint32_t] per byte of the file, taken
    from the top of the arena. *)
Lemma ed_load_file_region_spec fuel a src cps :
  arena_wf a -> decode_utf8 src = Some cps -> (length src < fuel)%nat ->
  mem_used a + Z.of_nat (length src) * 4 <= MEM_CAPACITY ->
  exists a' r', ed_load_file_region fuel a array_zero src (Z.of_nat (length src)) = Ok (a', r')
    /\ elems a' r' = norm_lines false cps /\ arena_wf a' /\ array_wf 4 a' r' /\
    mem_used a' = mem_used a + Z.of_nat (length src) * 4 /\
    capacity r' = Z.of_nat (length src) /\ (src <> [] -> data r' = Some (mem_used a)).
Proof.
  intros Hwf Hdec Hfuel Hroom. unfold ed_load_file_region.
  destruct (length src) as [|n] eqn:Hn.
  - apply length_zero_iff_nil in Hn as ->. injection Hdec as <-.
    rewrite array_ensure_noop by done. simpl. destruct fuel as [|f]; [lia|].
    rewrite while_loop_exit by done. simpl. eexists _, _. split; [done|].
    split; [done|]. split; [done|]. split; [unfold array_wf; simpl; lia|].
    simpl. split; [lia|]. split; [done|]. done.
  - unfold array_ensure. simpl count. simpl capacity. zbool. simpl.
    rewrite mem_alloc_zeroed_ok by (done || lia). simpl.
    set (size := Z.of_nat (S n)).
    assert (Hsize : Z.of_nat (length src) = size) by (subst size; rewrite Hn; done).
    assert (Hs0 : 0 < size) by (subst size; lia). clearbody size.
    rewrite !Z.add_0_l. set (st0 := mkLoad (bump a (Z.max 0 size * 4)) (mkArray (Some (mem_used a)) 0 (Z.max 0 size)) 0 false).
    assert (Hinv : load_inv src (mem_used a) (Z.max 0 size) (mem_used a + Z.max 0 size * 4) (norm_lines false cps) st0).
    { apply (load_inv_intro _ _ _ _ _ _ _ _ _ cps); try done; cbn; try lia.
      - apply bump_wf; [done|lia|lia].
      - unfold array_wf. simpl. destruct Hwf as (? & _ & _). lia. }
    destruct (while_loop_terminates (load_cond size) (load_body src size)
                (load_inv src (mem_used a) (Z.max 0 size) (mem_used a + Z.max 0 size * 4) (norm_lines false cps))
                (fun st => Z.to_nat (size - ld_pos st))) with (fuel := fuel) (s := st0)
      as (st & Hst & Hi & Hc); [|exact Hinv|simpl; lia|].
    { intros st Hi Hc. unfold load_cond in Hc. zbool_hyps.
      destruct (load_body_inv src _ _ _ _ st Hi) as (st' & E & Hi' & Hp);
        [lia|].
      rewrite Hsize in E. exists st'. split; [done|]. split; [done|].
      destruct Hi' as (_ & _ & _ & _ & _ & _ & Hb' & _). lia. }
    rewrite Hst. simpl. eexists _, _. split; [done|].
    destruct Hi as (W & U & A & D & C & _ & Hp & _ & rest & Hr & Hf).
    unfold load_cond in Hc. zbool_hyps.
    assert (ld_pos st = size) as Heq by lia. rewrite Heq in Hr.
    rewrite drop_ge in Hr by lia. injection Hr as <-.
    rewrite app_nil_r in Hf. do 3 (split; [done|]).
    split; [lia|]. split; [lia|]. by intros _.
Qed.

(** C5: on a file whose bytes decode, [ed_load_file_region] with more
    iterations than bytes returns, and the region, loaded into the
    zero-initialised [Region] of [editor_init], holds exactly the decoded
    codepoints with their line endings normalised by [norm_lines]. *)
Theorem ed_load_file_region_refines fuel a src cps :
  arena_wf a -> decode_utf8 src = Some cps -> (length src < fuel)%nat ->
  mem_used a + Z.of_nat (length src) * 4 <= MEM_CAPACITY ->
  exists a' r', ed_load_file_region fuel a array_zero src (Z.of_nat (length src)) = Ok (a', r')
    /\ elems a' r' = norm_lines false cps /\ arena_wf a' /\ array_wf 4 a' r'.
Proof.
  intros Hwf Hdec Hf Hroom.
  destruct (ed_load_file_region_spec fuel a src cps Hwf Hdec Hf Hroom)
    as (a' & r' & E & He & W & A & _). eauto 6.
Qed.

(** Witness at the spec's example ["a\r\nb\rc\nd"]: the region holds
    [a \n b \n c \n d]. *)
Lemma ed_load_file_region_refines_witness :
  exists a' r',
    ed_load_file_region 10 arena_init array_zero [97; 13; 10; 98; 13; 99; 10; 100] 8 = Ok (a', r')
    /\ elems a' r' = [97; 10; 98; 10; 99; 10; 100] /\ arena_wf a' /\ array_wf 4 a' r'.
Proof.
  exact (ed_load_file_region_refines 10 arena_init [97; 13; 10; 98; 13; 99; 10; 100]
           [97; 13; 10; 98; 13; 99; 10; 100] arena_init_wf eq_refl ltac:(simpl; lia)
           ltac:(vm_compute; congruence)).
Defined.

Lemma load_body_pos src size st st' :
  load_body src size st = Ok st' ->
  ld_pos st' = ld_pos st +
    used_after 0 (snd (utf8_to_32 (drop (Z.to_nat (ld_pos st)) src) (size - ld_pos st))).
Proof.
  unfold load_body. cbv zeta.
  destruct (_ =? 13); [by intros [= <-]|]. destruct (ld_prev_cr st).
  - destruct (append_u32 _ _ 10); simpl; try discriminate.
    destruct (_ =? 10); [by intros [= <-]|].
    destruct (append_u32 _ _ _); simpl; try discriminate. by intros [= <-].
  - destruct (append_u32 _ _ _); simpl; try discriminate. by intros [= <-].
Qed.

(** C15: on a file with a malformed sequence (a stray continuation byte, a
    leading byte matching no pattern, a sequence cut by the end of the
    file), [ed_load_file_region] never returns normally: at the bad byte
    [used] stays 0, [pos] stops advancing, and the loop appends U+0000 for
    ever (until the arena's [ASSERT] fires, or the fuel runs out). *)
Theorem ed_load_file_region_malformed fuel a region src r :
  decode_utf8 src = None ->
  ed_load_file_region fuel a region src (Z.of_nat (length src)) <> Ok r.
Proof.
  intros Hdec. unfold ed_load_file_region.
  destruct (array_ensure 4 a region _) as [r0| |]; simpl; try done.
  destruct (while_loop _ _ fuel _) as [st| |] eqn:E; simpl; try done. intros _.
  revert E. eapply (while_loop_never_ok _ _
    (fun st => 0 <= ld_pos st /\ decode_utf8 (drop (Z.to_nat (ld_pos st)) src) = None));
    [| |simpl; split; [lia|done]].
  - intros st' [Hp Hd]. unfold load_cond. apply Z.ltb_lt.
    destruct (Z.lt_ge_cases (ld_pos st') (Z.of_nat (length src))); [done|].
    rewrite drop_ge in Hd by lia. discriminate.
  - intros s1 s2 [Hp Hd] E. pose proof (load_body_pos _ _ _ _ E) as ->.
    assert (Hne : drop (Z.to_nat (ld_pos s1)) src <> [])
      by (intros Hn; rewrite Hn in Hd; discriminate).
    assert (Hl : Z.of_nat (length src) - ld_pos s1 =
                 Z.of_nat (length (drop (Z.to_nat (ld_pos s1)) src)))
      by (rewrite length_drop; destruct (drop _ _) eqn:X; [done|];
          apply (f_equal length) in X; rewrite length_drop in X; simpl in X; lia).
    rewrite Hl. pose proof Hd as Hd0. rewrite decode_utf8_cons in Hd by done.
    destruct (utf8_to_32 _ _) as [cp [u|]] eqn:Eu; cbn [snd used_after].
    + apply utf8_to_32_some in Eu. split; [lia|].
      rewrite <- drop_drop_Z by lia.
      destruct (decode_utf8 (drop (Z.to_nat u) _)); [discriminate|done].
    + split; [lia|]. by rewrite Z.add_0_r.
Qed.

Lemma ed_load_file_region_malformed_witness :
  ed_load_file_region 1000 arena_init array_zero [0x61; 0x80; 0x62] 3 <>
  Ok (arena_init, array_zero).
Proof.
  apply (ed_load_file_region_malformed 1000 arena_init array_zero [0x61; 0x80; 0x62]).
  vm_compute. reflexivity.
Defined.

(** ** Line endings *)

(** No carriage return survives normalisation. *)
Theorem norm_lines_no_cr prev cps : ~ In 13 (norm_lines prev cps).
Proof.
  revert prev. induction cps as [|cp rest IH]; intros prev; simpl; [tauto|].
  repeat case_match; zbool_hyps; simpl; intros Hin;
    repeat (destruct Hin as [Hin|Hin]; [lia|]); eapply IH; eauto.
Qed.

(** Every [\r] is followed by a character that is not [\r]: no [\r\r]
    and no [\r] at the end. *)
Fixpoint cr_isolated (cps : list Z) : bool :=
  match cps with
  | [] => true
  | c :: rest =>
      (if c =? 13 then match rest with d :: _ => negb (d =? 13) | [] => false end
       else true) && cr_isolated rest
  end.

Lemma cr_isolated_tail c rest : cr_isolated (c :: rest) = true -> cr_isolated rest = true.
Proof. simpl. rewrite andb_true_iff. tauto. Qed.

(** On text where every [\r] is followed by something other than [\r],
    the loader's rule is the spec's: [\r\n], [\r] and [\n] each become
    one [\n]. *)
Lemma norm_lines_spec cps :
  cr_isolated cps = true -> norm_lines false cps = normalize_spec cps.
Proof.
  remember (length cps) as n eqn:Hn. revert cps Hn.
  induction n as [n IH] using lt_wf_ind. intros cps Hn Hi.
  destruct cps as [|c rest]; [done|].
  pose proof (cr_isolated_tail _ _ Hi) as Hr.
  destruct (Z.eqb_spec c 13) as [->|H13].
  - destruct rest as [|c2 rest']; [done|].
    pose proof (cr_isolated_tail _ _ Hr) as Hr'.
    assert (E13 : (c2 =? 13) = false).
    { simpl in Hi. destruct (c2 =? 13); [done|reflexivity]. }
    cbn [norm_lines normalize_spec]. rewrite E13. simpl.
    destruct (Z.eqb_spec c2 10) as [->|H10].
    + f_equal. apply (IH (length rest')); [simpl in Hn; lia|done|done].
    + f_equal. cbn [normalize_spec]. rewrite ?E13. f_equal.
      apply (IH (length rest')); [simpl in Hn; lia|done|done].
  - cbn [norm_lines normalize_spec].
    rewrite (proj2 (Z.eqb_neq c 13) H13). f_equal.
    apply (IH (length rest)); [simpl in Hn; lia|done|done].
Qed.


(** Where the code and the spec part: a [\r] at the end of the file is
    dropped, and [\r\r] gives one [\n] instead of two. *)
Example norm_lines_trailing_cr :
  norm_lines false [97; 13] = [97] /\ normalize_spec [97; 13] = [97; 10].
Proof. split; reflexivity. Qed.

Example norm_lines_double_cr :
  norm_lines false [97; 13; 13; 98] = [97; 10; 98] /\ normalize_spec [97; 13; 13; 98] = [97; 10; 10; 98].
Proof. split; reflexivity. Qed.

(** Appending a [\r] to a file that decodes appends it to the codepoints. *)
Lemma decode_utf8_app_cr src cps :
  decode_utf8 src = Some cps -> decode_utf8 (src ++ [13]) = Some (cps ++ [13]).
Proof.
  remember (length src) as n eqn:Hn. revert src cps Hn.
  induction n as [n IH] using lt_wf_ind. intros src cps Hn Hdec.
  destruct src as [|b src']; [by injection Hdec as <-|].
  rewrite decode_utf8_cons in Hdec by done.
  destruct (utf8_to_32 _ _) as [cp [u|]] eqn:E; [|done].
  destruct (decode_utf8 (drop (Z.to_nat u) (b :: src'))) as [cps'|] eqn:Hd; [|done].
  injection Hdec as <-. pose proof (utf8_to_32_some _ _ _ _ E) as [Hu _].
  rewrite decode_utf8_cons by (destruct src'; done).
  rewrite (utf8_to_32_app _ [13] _ _ cp u) by (done || (rewrite length_app; lia)).
  rewrite drop_app_le by (simpl length in *; lia).
  rewrite (IH (length (drop (Z.to_nat u) (b :: src'))) ltac:(rewrite length_drop; simpl length in *; lia)
             _ cps' eq_refl Hd).
  done.
Qed.

(** The loader's rule drops a [\r] at the end. *)
Lemma norm_lines_app_cr prev cps : norm_lines prev (cps ++ [13]) = norm_lines prev cps.
Proof.
  revert prev. induction cps as [|cp r IH]; intros prev; [done|]. cbn [app norm_lines].
  by repeat case_match; rewrite ?IH.
Qed.

(** The spec's rule turns a [\r] at the end into a [\n]. *)
Lemma normalize_spec_app_cr cps : normalize_spec (cps ++ [13]) = normalize_spec cps ++ [10].
Proof.
  remember (length cps) as n eqn:Hn. revert cps Hn.
  induction n as [n IH] using lt_wf_ind. intros cps Hn.
  destruct cps as [|c r]; [done|]. cbn [app normalize_spec].
  destruct (Z.eqb_spec c 13) as [->|Hc].
  - destruct r as [|c2 r']; [done|]. cbn [app].
    destruct (c2 =? 10); cbn [app]; f_equal.
    + apply (IH (length r')); [simpl in Hn; lia|done].
    + change (c2 :: r' ++ [13]) with ((c2 :: r') ++ [13]).
      apply (IH (length (c2 :: r'))); [simpl in *; lia|done].
  - cbn [app]. f_equal. apply (IH (length r)); [simpl in Hn; lia|done].
Qed.

(** C37: the loader drops a [\r] at the end of a file, where the spec
    asks for a [\n]: for every file that decodes (to [cps]), the region
    the loader fills from the file followed by [\r] holds the same
    codepoints as for the file alone; on text whose [\r]s are followed by
    another character it is the spec's normalisation of [cps], and the
    spec's normalisation of [cps ++ [\r]] is that with a final [\n]. *)
Theorem ed_load_file_region_trailing_cr fuel a src cps :
  arena_wf a -> decode_utf8 src = Some cps -> (S (length src) < fuel)%nat ->
  mem_used a + Z.of_nat (S (length src)) * 4 <= MEM_CAPACITY ->
  exists a' r', ed_load_file_region fuel a array_zero (src ++ [13]) (Z.of_nat (S (length src))) = Ok (a', r')
    /\ elems a' r' = norm_lines false cps /\
    (cr_isolated cps = true -> elems a' r' = normalize_spec cps /\
       normalize_spec (cps ++ [13]) = elems a' r' ++ [10]).
Proof.
  intros Hwf Hdec Hf Hroom. pose proof (decode_utf8_app_cr _ _ Hdec) as Hdec'.
  assert (Hl : length (src ++ [13]) = S (length src)) by (rewrite length_app; simpl; lia).
  destruct (ed_load_file_region_spec fuel a (src ++ [13]) (cps ++ [13]) Hwf Hdec')
    as (a' & r' & E & He & _); [lia|rewrite Hl; lia|].
  rewrite Hl in E. exists a', r'. split; [done|].
  rewrite He, norm_lines_app_cr. split; [done|]. intros Hi.
  rewrite norm_lines_spec, normalize_spec_app_cr by done. done.
Qed.

Lemma ed_load_file_region_trailing_cr_witness :
  exists a' r', ed_load_file_region 3 arena_init array_zero ([97] ++ [13]) (Z.of_nat (S (length [97]))) = Ok (a', r')
    /\ elems a' r' = norm_lines false [97] /\
    (cr_isolated [97] = true -> elems a' r' = normalize_spec [97] /\
       normalize_spec ([97] ++ [13]) = elems a' r' ++ [10]).
Proof.
  exact (ed_load_file_region_trailing_cr 3 arena_init [97] [97] arena_init_wf eq_refl
           ltac:(simpl; lia) ltac:(vm_compute; congruence)).
Defined.

(** C26: on a file that decodes and whose every [\r] is followed by
    another character, the loader's region holds exactly the spec's
    normalisation of the decoded text: [\r\n], [\r] and [\n] each become
    one [\n]. *)
Theorem ed_load_file_region_normalizes fuel a src cps :
  arena_wf a -> decode_utf8 src = Some cps -> cr_isolated cps = true ->
  (length src < fuel)%nat -> mem_used a + Z.of_nat (length src) * 4 <= MEM_CAPACITY ->
  exists a' r', ed_load_file_region fuel a array_zero src (Z.of_nat (length src)) = Ok (a', r')
    /\ elems a' r' = normalize_spec cps.
Proof.
  intros Hwf Hdec Hi Hf Hroom.
  destruct (ed_load_file_region_spec fuel a src cps Hwf Hdec Hf Hroom) as (a' & r' & E & He & _).
  exists a', r'. split; [done|]. by rewrite He, norm_lines_spec.
Qed.

(** Witness at the spec's example ["a\r\nb\rc\nd"]. *)
Lemma ed_load_file_region_normalizes_witness :
  exists a' r',
    ed_load_file_region 10 arena_init array_zero [97; 13; 10; 98; 13; 99; 10; 100] 8 = Ok (a', r')
    /\ elems a' r' = normalize_spec [97; 13; 10; 98; 13; 99; 10; 100].
Proof.
  exact (ed_load_file_region_normalizes 10 arena_init [97; 13; 10; 98; 13; 99; 10; 100]
           [97; 13; 10; 98; 13; 99; 10; 100] arena_init_wf eq_refl eq_refl ltac:(simpl; lia)
           ltac:(vm_compute; congruence)).
Defined.

End Loader.
