(* ===== verification/Storage.v ===== *)
(** * Storage: the platform's file interface (src/platform.h: the [fs]
    table of [Platform]; src/red_linux.cpp: [fs_open] ... [fs_unmap])

    [editor.cpp] reaches files only through the function pointers of
    [p->fs]: [open], [close], [valid], [size], [map], [unmap].  This file
    states that table as a type class [Storage] over a file-system state
    [FS] (the interface the editor is written against), the contract the
    editor relies on as a second class [StorageSpec], and the Linux
    adapter of red_linux.cpp as an instance of both, over a small model
    of the POSIX calls it makes ([open(path, O_RDWR)], [fstat], [mmap]).

    The loader's own use of the table, [p->fs.map] before the loop and
    [p->fs.unmap] after it, is [ed_load_file_region_fs]: the mapped view is
    the byte list the loop of Loader.v reads.  A failed map ([MAP_FAILED])
    is not checked by the code; the first read through it faults.

    Model of the POSIX side: a file has bytes and a write permission (an
    [O_RDWR] open of a file the process may not write fails with
    [EACCES]); descriptors are numbered from a counter (POSIX's
    lowest-free rule changes only the numbers); [mmap] of length 0 fails
    ([EINVAL]); the bytes of a mapping past the end of the file read as
    zero (as in the file's last page; the loader maps exactly the file's
    size).  [Handle.data] is a [size_t]; the descriptor is converted to
    it and back to [int] with the wrap-around of x86-64.

    Proved here: the conversions round-trip on every [int] (so [fs_valid]
    is exactly "the open succeeded"); the adapter meets the contract; a
    file the process may read but not write is not loaded. *)

From Stdlib Require Import ZArith Lia List String.
From stdpp Require Import base list.
From S2P Require Import Prelude Arena Array Loader.
Import ListNotations.
Local Open Scope Z_scope.

Module Storage.
Import Arena Array Loader.

(** ** The interface *)

(** [struct Handle { size_t data; }]. *)
Record Handle := mkHandle { h_data : Z }.

(** The [fs] table: [open] and [close] change the file-system state;
    [map] gives the mapped bytes, or [None] for [MAP_FAILED]; [unmap]
    changes nothing the model keeps. *)
Class Storage (FS : Type) := {
  fs_open : FS -> string -> FS * Handle;
  fs_close : FS -> Handle -> FS;
  fs_valid : Handle -> bool;
  fs_size : FS -> Handle -> Z;
  fs_map : FS -> Handle -> Z -> Z -> option (list Z) }.

(** What the editor relies on, for a file-system state [fs_ok]:
    [fs_file fs path] is the content an open of [path] gives access to
    ([None]: the open fails); a failed open is not valid, a successful
    one is, and its size and map give the content. *)
Class StorageSpec (FS : Type) `{Storage FS} := {
  fs_ok : FS -> Prop;
  fs_file : FS -> string -> option (list Z);
  fs_open_valid fs path :
    fs_ok fs ->
    fs_valid (snd (fs_open fs path)) = match fs_file fs path with Some _ => true | None => false end;
  fs_open_size fs path bs :
    fs_ok fs -> fs_file fs path = Some bs ->
    fs_size (fst (fs_open fs path)) (snd (fs_open fs path)) = Z.of_nat (length bs);
  fs_open_map fs path bs :
    fs_ok fs -> fs_file fs path = Some bs -> bs <> [] ->
    fs_map (fst (fs_open fs path)) (snd (fs_open fs path)) (Z.of_nat (length bs)) 0 = Some bs }.

(** [ed_load_file_region(p, region, file, size, offset)] with its calls
    of the table: [src = p->fs.map(file, size, offset)], the loop over
    [src] (Loader.v), [p->fs.unmap(src, size)].  When the map fails the
    loop's first read of [src[0]] faults; with [size] 0 the loop does not
    run. *)
Definition ed_load_file_region_fs {FS} `{Storage FS} (fuel : nat) (a : Arena) (region : Array)
    (fs : FS) (file : Handle) (size offset : Z) : res (Arena * Array) :=
  match fs_map fs file size offset with
  | Some src => ed_load_file_region fuel a region src size
  | None => if size <=? 0 then ed_load_file_region fuel a region [] size else Panic
  end.

(** ** The Linux adapter *)

(** A file: its bytes and whether the process may write it. *)
Record File := mkFile { f_bytes : list Z; f_writable : bool }.

(** The files by path, the open descriptors with their paths, and the
    next descriptor number. *)
Record PosixFS := mkFS {
  fs_files : list (string * File);
  fs_fds : list (Z * string);
  fs_next_fd : Z }.

Definition lookup_file (fs : PosixFS) (path : string) : option File :=
  option_map snd (List.find (fun p => String.eqb (fst p) path) (fs_files fs)).

Definition lookup_fd (fs : PosixFS) (fd : Z) : option File :=
  match List.find (fun p => fst p =? fd) (fs_fds fs) with
  | Some (_, path) => lookup_file fs path
  | None => None
  end.

(** The implicit conversion of an [int] to [size_t], and the cast
    [(int)] of a [size_t] (the low 32 bits, two's complement). *)
Definition size_t_of_int (x : Z) : Z := wrap 64 x.
Definition int_of_size_t (x : Z) : Z :=
  let y := wrap 32 x in if y <? 2 ^ 31 then y else y - 2 ^ 32.

(** [static Handle fs_open(const char *path)]: [open(path, O_RDWR)],
    then [handle.data = fd]. *)
Definition posix_open (fs : PosixFS) (path : string) : PosixFS * Handle :=
  match lookup_file fs path with
  | Some f =>
      if f_writable f then
        let fd := fs_next_fd fs in
        (mkFS (fs_files fs) ((fd, path) :: fs_fds fs) (fd + 1), mkHandle (size_t_of_int fd))
      else (fs, mkHandle (size_t_of_int (-1)))
  | None => (fs, mkHandle (size_t_of_int (-1)))
  end.

(** [static void fs_close(Handle file)]: [close(file.data)]. *)
Definition posix_close (fs : PosixFS) (h : Handle) : PosixFS :=
  let fd := int_of_size_t (h_data h) in
  mkFS (fs_files fs) (List.filter (fun p => negb (fst p =? fd)) (fs_fds fs)) (fs_next_fd fs).

(** [static bool fs_valid(Handle file)]: [(int)file.data >= 0]. *)
Definition posix_valid (h : Handle) : bool := 0 <=? int_of_size_t (h_data h).

(** [static size_t fs_size(Handle file)]: [fstat], [st.st_size]; on a
    descriptor that is not open [fstat] fails and [st] is left as it was
    (never reached from [editor_init], modelled as 0). *)
Definition posix_size (fs : PosixFS) (h : Handle) : Z :=
  match lookup_fd fs (int_of_size_t (h_data h)) with
  | Some f => Z.of_nat (length (f_bytes f))
  | None => 0
  end.

(** [static void *fs_map(Handle file, size_t sz, size_t offset)]:
    [mmap(0, sz, PROT_READ|PROT_WRITE, MAP_PRIVATE, file.data, offset)]. *)
Definition posix_map (fs : PosixFS) (h : Handle) (sz offset : Z) : option (list Z) :=
  if sz <=? 0 then None
  else match lookup_fd fs (int_of_size_t (h_data h)) with
       | Some f => Some (take (Z.to_nat sz) (drop (Z.to_nat offset) (f_bytes f) ++ repeat 0 (Z.to_nat sz)))
       | None => None
       end.

#[export] Instance posix_storage : Storage PosixFS := {
  fs_open := posix_open;
  fs_close := posix_close;
  fs_valid := posix_valid;
  fs_size := posix_size;
  fs_map := posix_map }.

(** The content an [O_RDWR] open gives access to. *)
Definition posix_file (fs : PosixFS) (path : string) : option (list Z) :=
  match lookup_file fs path with
  | Some f => if f_writable f then Some (f_bytes f) else None
  | None => None
  end.

(** Descriptors are [int]s: the counter stays in their range. *)
Definition posix_wf (fs : PosixFS) : Prop := 0 <= fs_next_fd fs < 2 ^ 31 - 1.

(** ** Lemmas *)

(** The descriptor survives the round trip through [size_t] and back
    to [int]: every [int], [-1] included. *)
Lemma int_of_size_t_of_int x :
  - 2 ^ 31 <= x < 2 ^ 31 -> int_of_size_t (size_t_of_int x) = x.
Proof.
  intros Hx. unfold int_of_size_t, size_t_of_int, wrap.
  rewrite Z.mod_mod_divide by (exists (2 ^ 32); reflexivity).
  destruct (Z.ltb_spec (x mod 2 ^ 32) (2 ^ 31)); zlia.
Qed.

Lemma lookup_file_open fs path fd p :
  lookup_file (mkFS (fs_files fs) ((fd, p) :: fs_fds fs) (fd + 1)) path = lookup_file fs path.
Proof. reflexivity. Qed.

(** The descriptor [open] returns leads back to the file it opened. *)
Lemma lookup_fd_open fs path :
  0 <= fs_next_fd fs < 2 ^ 31 ->
  lookup_fd (mkFS (fs_files fs) ((fs_next_fd fs, path) :: fs_fds fs) (fs_next_fd fs + 1))
    (int_of_size_t (size_t_of_int (fs_next_fd fs))) = lookup_file fs path.
Proof.
  intros H. rewrite int_of_size_t_of_int by lia. unfold lookup_fd. cbn [List.find fst fs_fds].
  by rewrite Z.eqb_refl.
Qed.

Section Posix.
Context (fs : PosixFS) (path : string) (Hwf : posix_wf fs).

Lemma posix_open_valid :
  posix_valid (snd (posix_open fs path)) =
    match posix_file fs path with Some _ => true | None => false end.
Proof.
  unfold posix_file, posix_open, posix_valid. unfold posix_wf in Hwf.
  destruct (lookup_file fs path) as [f|]; [destruct (f_writable f)|]; cbn [snd h_data];
    rewrite int_of_size_t_of_int by lia; zbool; lia.
Qed.

Lemma posix_open_size bs :
  posix_file fs path = Some bs ->
  posix_size (fst (posix_open fs path)) (snd (posix_open fs path)) = Z.of_nat (length bs).
Proof.
  unfold posix_file, posix_open, posix_size. unfold posix_wf in Hwf.
  destruct (lookup_file fs path) as [f|] eqn:E; [destruct (f_writable f)|]; try discriminate.
  intros [= <-]. cbn [fst snd h_data]. rewrite lookup_fd_open, E by lia. done.
Qed.

Lemma posix_open_map bs :
  posix_file fs path = Some bs -> bs <> [] ->
  posix_map (fst (posix_open fs path)) (snd (posix_open fs path)) (Z.of_nat (length bs)) 0 = Some bs.
Proof.
  unfold posix_file, posix_open, posix_map. unfold posix_wf in Hwf.
  destruct (lookup_file fs path) as [f|] eqn:E; [destruct (f_writable f)|]; try discriminate.
  intros [= <-] Hne. cbn [fst snd h_data]. rewrite lookup_fd_open, E by lia.
  destruct (f_bytes f) as [|b bs] eqn:Hb; [done|]. rewrite (proj2 (Z.leb_gt _ _)) by (simpl; lia).
  rewrite Nat2Z.id, drop_0, take_app_length. done.
Qed.

End Posix.

(** The Linux adapter meets the contract the editor relies on. *)
#[export] Instance posix_storage_spec : StorageSpec PosixFS := {
  fs_ok := posix_wf;
  fs_file := posix_file;
  fs_open_valid := posix_open_valid;
  fs_open_size fs path bs Hwf := posix_open_size fs path Hwf bs;
  fs_open_map fs path bs Hwf := posix_open_map fs path Hwf bs }.

(** Against the contract: the loader reading an opened file reads its
    content. *)
Lemma ed_load_file_region_fs_open {FS} `{StorageSpec FS} fuel a region fs path bs :
  fs_ok fs -> fs_file fs path = Some bs -> bs <> [] ->
  let '(fs1, file) := fs_open fs path in
  ed_load_file_region_fs fuel a region fs1 file (fs_size fs1 file) 0 =
    ed_load_file_region fuel a region bs (Z.of_nat (length bs)).
Proof.
  intros Hok Hf Hne. pose proof (fs_open_size fs path bs Hok Hf) as Hs.
  pose proof (fs_open_map fs path bs Hok Hf Hne) as Hm.
  destruct (fs_open fs path) as [fs1 file]. cbn [fst snd] in *.
  unfold ed_load_file_region_fs. by rewrite Hs, Hm.
Qed.

(** C33: [fs_valid] tests exactly that the open succeeded: for every
    [int] descriptor [open] can return, [-1] included, the handle that
    stores it in a [size_t] is valid if and only if the descriptor is not
    negative (the [size_t] to [int] cast undoes the wrap-around). *)
Theorem posix_valid_exact fd :
  - 2 ^ 31 <= fd < 2 ^ 31 -> posix_valid (mkHandle (size_t_of_int fd)) = (0 <=? fd).
Proof. intros H. unfold posix_valid. cbn [h_data]. by rewrite int_of_size_t_of_int. Qed.

Lemma posix_valid_exact_witness :
  posix_valid (mkHandle (size_t_of_int (-1))) = false /\ posix_valid (mkHandle (size_t_of_int 3)) = true.
Proof. split; [apply (posix_valid_exact (-1)) | apply (posix_valid_exact 3)]; lia. Defined.

End Storage.
