(* ===== verification/Terminal.v ===== *)
(** * The terminal: the environment the renderer writes to

    The renderer of src/red_linux.cpp writes bytes to [stdout], a terminal
    emulator.  This file models that environment, which is not code of the
    repository: a screen of cells, a cursor, the current colours (SGR
    state), and the byte-at-a-time parser of an ANSI/VT terminal, with the
    states ground, escape, control sequence (CSI, with its numeric
    parameters) and inside a UTF-8 sequence.  It interprets exactly the
    sequences the renderer can emit: [CSI r;c H] (cursor position),
    [CSI n m] (SGR colours 0, 30-37, 39, 40-47, 49, 90-97, 100-107) and
    [CSI 2 J] (erase the screen with the current background); other
    sequences and control characters leave the screen alone.

    Simplifications, all immaterial to the renderer (which positions the
    cursor before every glyph it writes): a printable character writes one
    cell and moves the cursor one column right, with no wrapping or
    scrolling and no double-width cells; the screen is unbounded (the
    frames are sized from the terminal's own window size).

    Also here: [print_int], the decimal conversion of [printf("%d")]. *)

From Stdlib Require Import ZArith Lia List.
From Stdlib Require String Ascii.
From stdpp Require Import base list.
From S2P Require Import Prelude Utf8.
Import ListNotations.
Local Open Scope Z_scope.

Module Terminal.
Import Codec.

(** ** State *)

(** A colour as the terminal knows it: the default colour, one of the
    eight ANSI colours, or one of their bright variants. *)
Inductive TColor := TDefault | TAnsi (n : Z) | TBright (n : Z).

#[export] Instance TColor_eq_dec : EqDecision TColor.
Proof. solve_decision. Defined.

Record Cell := mkCell { c_cp : Z; c_fg : TColor; c_bg : TColor }.

#[export] Instance Cell_eq_dec : EqDecision Cell.
Proof. solve_decision. Defined.

(** An erased cell: a space in the default foreground on background [bg]. *)
Definition blank (bg : TColor) : Cell := mkCell 32 TDefault bg.

(** The parser's state: ground, after [ESC], inside [ESC [] with the
    parameters read so far and the one being read, or inside a UTF-8
    sequence with the number of continuation bytes still expected and the
    bits accumulated. *)
Inductive Pstate := Ground | Escape | Csi (ps : list Z) (cur : Z) | Useq (need acc : Z).

Record Term := mkTerm {
  t_scr : Z -> Z -> Cell;
  t_row : Z;
  t_col : Z;
  t_fg : TColor;
  t_bg : TColor;
  t_ps : Pstate }.

Definition with_ps (t : Term) (p : Pstate) : Term :=
  mkTerm (t_scr t) (t_row t) (t_col t) (t_fg t) (t_bg t) p.

Definition with_colors (t : Term) (fg bg : TColor) : Term :=
  mkTerm (t_scr t) (t_row t) (t_col t) fg bg (t_ps t).

Definition with_cursor (t : Term) (row col : Z) : Term :=
  mkTerm (t_scr t) row col (t_fg t) (t_bg t) (t_ps t).

(** ** Interpretation of one byte *)

(** Characters that take a cell: not a C0 or C1 control, not DEL, not a
    surrogate, at most 0x10FFFF. *)
Definition printable (cp : Z) : bool :=
  ((0x20 <=? cp) && (cp <? 0x7F)) ||
  ((0xA0 <=? cp) && (cp <=? 0x10FFFF) && negb ((0xD800 <=? cp) && (cp <=? 0xDFFF))).

Definition put_char (t : Term) (cp : Z) : Term :=
  if printable cp then
    mkTerm (fun r c => if (r =? t_row t) && (c =? t_col t)
                       then mkCell cp (t_fg t) (t_bg t) else t_scr t r c)
      (t_row t) (t_col t + 1) (t_fg t) (t_bg t) Ground
  else with_ps t Ground.

(** Select Graphic Rendition, one parameter. *)
Definition sgr (t : Term) (p : Z) : Term :=
  if p =? 0 then with_colors t TDefault TDefault
  else if (30 <=? p) && (p <=? 37) then with_colors t (TAnsi (p - 30)) (t_bg t)
  else if p =? 39 then with_colors t TDefault (t_bg t)
  else if (40 <=? p) && (p <=? 47) then with_colors t (t_fg t) (TAnsi (p - 40))
  else if p =? 49 then with_colors t (t_fg t) TDefault
  else if (90 <=? p) && (p <=? 97) then with_colors t (TBright (p - 90)) (t_bg t)
  else if (100 <=? p) && (p <=? 107) then with_colors t (t_fg t) (TBright (p - 100))
  else t.

(** The final byte of a control sequence: [m], [H] or [J]. *)
Definition csi_dispatch (t : Term) (ps : list Z) (f : Z) : Term :=
  if f =? 109 then fold_left sgr ps t
  else if f =? 72 then
    with_cursor t (Z.max (nth 0 ps 0) 1 - 1) (Z.max (nth 1 ps 0) 1 - 1)
  else if f =? 74 then
    (if nth 0 ps 0 =? 2 then
       mkTerm (fun _ _ => blank (t_bg t)) (t_row t) (t_col t) (t_fg t) (t_bg t) (t_ps t)
     else t)
  else t.

Definition term_byte (t : Term) (b : Z) : Term :=
  match t_ps t with
  | Ground =>
      if b =? 27 then with_ps t Escape
      else if b <? 0x80 then put_char t b
      else if b <? 0xC0 then t
      else if b <? 0xE0 then with_ps t (Useq 1 (b - 0xC0))
      else if b <? 0xF0 then with_ps t (Useq 2 (b - 0xE0))
      else if b <? 0xF8 then with_ps t (Useq 3 (b - 0xF0))
      else t
  | Escape => if b =? 91 then with_ps t (Csi [] 0) else with_ps t Ground
  | Csi ps cur =>
      if (48 <=? b) && (b <=? 57) then with_ps t (Csi ps (cur * 10 + (b - 48)))
      else if b =? 59 then with_ps t (Csi (ps ++ [cur]) 0)
      else if (0x40 <=? b) && (b <=? 0x7E) then csi_dispatch (with_ps t Ground) (ps ++ [cur]) b
      else t
  | Useq n acc =>
      if (0x80 <=? b) && (b <? 0xC0) then
        if n =? 1 then put_char t (acc * 64 + (b - 0x80))
        else with_ps t (Useq (n - 1) (acc * 64 + (b - 0x80)))
      else with_ps t Ground
  end.

(** The terminal after it has read the bytes [bs]. *)
Definition term_run (t : Term) (bs : list Z) : Term := fold_left term_byte bs t.

(** ** [printf("%d", n)] *)

Fixpoint dec_fuel (fuel : nat) (n : Z) : list Z :=
  match fuel with
  | O => []
  | S f => if n <? 10 then [48 + n] else dec_fuel f (n / 10) ++ [48 + n mod 10]
  end.

(** The decimal digits of [n >= 0]; [n + 1] steps are more than enough. *)
Definition print_dec (n : Z) : list Z := dec_fuel (S (Z.to_nat n)) n.

Definition print_int (n : Z) : list Z :=
  if n <? 0 then 45 :: print_dec (- n) else print_dec n.

(** The bytes of an ASCII string literal. *)
Definition bytes (s : String.string) : list Z :=
  map (fun c => Z.of_nat (Ascii.nat_of_ascii c)) (String.list_ascii_of_string s).

(** ** Lemmas on the parser *)

Lemma printable_spec cp :
  printable cp = true <->
  (0x20 <= cp < 0x7F \/ (0xA0 <= cp <= 0x10FFFF /\ ~ (0xD800 <= cp <= 0xDFFF))).
Proof.
  unfold printable.
  rewrite orb_true_iff, !andb_true_iff, negb_true_iff, andb_false_iff,
    !Z.leb_le, !Z.ltb_lt, !Z.leb_gt.
  lia.
Qed.

Lemma term_run_app t l1 l2 : term_run t (l1 ++ l2) = term_run (term_run t l1) l2.
Proof. apply fold_left_app. Qed.

Lemma term_run_cons t b l : term_run t (b :: l) = term_run (term_byte t b) l.
Proof. reflexivity. Qed.

Lemma with_ps_with_ps t p q : with_ps (with_ps t p) q = with_ps t q.
Proof. reflexivity. Qed.

Lemma with_ps_same t : with_ps t (t_ps t) = t.
Proof. by destruct t. Qed.

Lemma put_char_with_ps t p cp : put_char (with_ps t p) cp = put_char t cp.
Proof. unfold put_char. by destruct (printable cp). Qed.

Section Bytes.
Context (t : Term) (Hg : t_ps t = Ground).

Lemma tb_ascii b : 0 <= b < 0x80 -> b <> 27 -> term_byte t b = put_char t b.
Proof. intros. unfold term_byte. rewrite Hg. zbool. done. Qed.

Lemma tb_esc : term_byte t 27 = with_ps t Escape.
Proof. unfold term_byte. by rewrite Hg. Qed.

Lemma tb_lead2 b : 0xC0 <= b < 0xE0 -> term_byte t b = with_ps t (Useq 1 (b - 0xC0)).
Proof. intros. unfold term_byte. rewrite Hg. zbool. done. Qed.

Lemma tb_lead3 b : 0xE0 <= b < 0xF0 -> term_byte t b = with_ps t (Useq 2 (b - 0xE0)).
Proof. intros. unfold term_byte. rewrite Hg. zbool. done. Qed.

Lemma tb_lead4 b : 0xF0 <= b < 0xF8 -> term_byte t b = with_ps t (Useq 3 (b - 0xF0)).
Proof. intros. unfold term_byte. rewrite Hg. zbool. done. Qed.

End Bytes.

Lemma tb_cont_last t acc b :
  0x80 <= b < 0xC0 -> term_byte (with_ps t (Useq 1 acc)) b = put_char t (acc * 64 + (b - 0x80)).
Proof. intros. unfold term_byte. simpl. zbool. apply put_char_with_ps. Qed.

Lemma tb_cont_more t n acc b :
  0x80 <= b < 0xC0 -> n <> 1 ->
  term_byte (with_ps t (Useq n acc)) b = with_ps t (Useq (n - 1) (acc * 64 + (b - 0x80))).
Proof. intros. unfold term_byte. simpl. zbool. done. Qed.

Lemma tb_escape_csi t : term_byte (with_ps t Escape) 91 = with_ps t (Csi [] 0).
Proof. reflexivity. Qed.

Lemma tb_digit t ps cur b :
  48 <= b <= 57 -> term_byte (with_ps t (Csi ps cur)) b = with_ps t (Csi ps (cur * 10 + (b - 48))).
Proof. intros. unfold term_byte. simpl. zbool. done. Qed.

Lemma tb_semicolon t ps cur : term_byte (with_ps t (Csi ps cur)) 59 = with_ps t (Csi (ps ++ [cur]) 0).
Proof. reflexivity. Qed.

Lemma tb_final t ps cur f :
  0x40 <= f <= 0x7E ->
  term_byte (with_ps t (Csi ps cur)) f = csi_dispatch (with_ps t Ground) (ps ++ [cur]) f.
Proof. intros. unfold term_byte. simpl. zbool. done. Qed.

(** ** Decimal numbers read back *)

Lemma dec_fuel_digits fuel n :
  0 <= n < Z.of_nat fuel -> Forall (fun d => 48 <= d <= 57) (dec_fuel fuel n).
Proof.
  revert n. induction fuel as [|f IH]; intros n Hn; simpl; [constructor|].
  destruct (Z.ltb_spec n 10).
  - repeat constructor; lia.
  - apply Forall_app. split; [apply IH; zlia|repeat constructor; zlia].
Qed.

(** Reading the digits [printf("%d")] prints for [n >= 0] inside a control
    sequence accumulates exactly [n]. *)
Lemma term_run_dec_fuel t ps fuel n :
  0 <= n < Z.of_nat fuel ->
  term_run (with_ps t (Csi ps 0)) (dec_fuel fuel n) = with_ps t (Csi ps n).
Proof.
  revert n. induction fuel as [|f IH]; intros n Hn; [lia|]. simpl dec_fuel.
  destruct (Z.ltb_spec n 10).
  - cbn [term_run fold_left]. rewrite tb_digit by lia. do 2 f_equal. lia.
  - rewrite term_run_app, IH by zlia. cbn [term_run fold_left].
    rewrite tb_digit by zlia. do 2 f_equal. zlia.
Qed.

Lemma term_run_print_dec t ps n :
  0 <= n -> term_run (with_ps t (Csi ps 0)) (print_dec n) = with_ps t (Csi ps n).
Proof. intros. apply term_run_dec_fuel. lia. Qed.

Lemma print_dec_digits n : 0 <= n -> Forall (fun d => 48 <= d <= 57) (print_dec n).
Proof. intros. apply dec_fuel_digits. lia. Qed.

(** A control sequence with one and with two non-negative decimal
    parameters, read from the ground state. *)
Lemma term_run_csi1 t n f :
  t_ps t = Ground -> 0 <= n -> 0x40 <= f <= 0x7E ->
  term_run t ([27; 91] ++ print_dec n ++ [f]) = csi_dispatch (with_ps t Ground) [n] f.
Proof.
  intros Hg Hn Hf. rewrite !term_run_app. cbn [term_run fold_left app].
  rewrite tb_esc, tb_escape_csi by done. rewrite term_run_print_dec by done.
  cbn [term_run fold_left]. rewrite tb_final by done. done.
Qed.

Lemma term_run_csi2 t n m f :
  t_ps t = Ground -> 0 <= n -> 0 <= m -> 0x40 <= f <= 0x7E ->
  term_run t ([27; 91] ++ print_dec n ++ [59] ++ print_dec m ++ [f]) =
  csi_dispatch (with_ps t Ground) [n; m] f.
Proof.
  intros Hg Hn Hm Hf. rewrite !term_run_app. cbn [term_run fold_left app].
  rewrite tb_esc, tb_escape_csi by done. rewrite term_run_print_dec by done.
  cbn [term_run fold_left]. rewrite tb_semicolon. simpl app.
  rewrite term_run_print_dec by done.
  cbn [term_run fold_left]. rewrite tb_final by done. done.
Qed.

(** ** Characters read back *)

Lemma term_run_utf8 t cp :
  t_ps t = Ground -> printable cp = true ->
  term_run t (utf32_to_8 cp 4) = put_char t cp.
Proof.
  intros Hg Hp. apply printable_spec in Hp.
  rewrite utf32_to_8_bytes by (unfold enc_len; zbool; lia || (repeat case_match; lia)).
  unfold cont.
  destruct (Z.leb_spec cp 0x7F); [|destruct (Z.leb_spec cp 0x7FF);
    [|destruct (Z.leb_spec cp 0xFFFF); [|destruct (Z.leb_spec cp 0x10FFFF); [|lia]]]];
    cbn [term_run fold_left].
  - apply tb_ascii; [done|lia|lia].
  - rewrite (tb_lead2 t), (tb_cont_last t) by (done || zlia). f_equal. zlia.
  - rewrite (tb_lead3 t), (tb_cont_more t), (tb_cont_last t) by (done || zlia).
    f_equal. zlia.
  - rewrite (tb_lead4 t), (tb_cont_more t), (tb_cont_more t), (tb_cont_last t)
      by (done || zlia).
    f_equal. zlia.
Qed.

(** C19: the terminal decodes the bytes [utf32_to_8] writes (into the
    4-byte buffer of [display]) for any printable character back into that
    character, and puts it at the cursor in the current colours. *)
Lemma term_run_utf32_to_8 t cp :
  t_ps t = Ground -> printable cp = true ->
  term_run t (utf32_to_8 cp 4) = put_char t cp.
Proof. eapply term_run_utf8; eassumption. Qed.

Lemma term_run_utf32_to_8_witness :
  term_run (mkTerm (fun _ _ => blank TDefault) 0 0 TDefault TDefault Ground) (utf32_to_8 0x20AC 4) =
  put_char (mkTerm (fun _ _ => blank TDefault) 0 0 TDefault TDefault Ground) 0x20AC.
Proof. apply term_run_utf32_to_8; reflexivity. Defined.

End Terminal.
