(* ===== verification/Frame.v ===== *)
(** * Frames of glyphs in the arena (src/platform.h, src/editor.cpp,
    src/red_linux.cpp)

    A [Frame] is a [width] x [height] array of [Text_Glyph]s, row-major,
    in an arena block.  A glyph is 8 bytes: the [uint32_t] codepoint
    (little-endian) at offset 0, the [fg] and [bg] [Color] bytes at
    offsets 4 and 5, and two bytes of padding (the struct's alignment is
    that of [uint32_t]).  The program has two frames, [front] and [back];
    the editor paints [back] (the platform's [frame]) with [ed_pf_clear]
    and [ed_pf_put]; [frame_resize] resizes a frame with
    [mem_realloc_zeroed].

    Proved here: [ed_pf_clear] and [ed_pf_put] write exactly the fields
    they name and keep the arena invariant; [ed_pf_put] outside the frame
    is the [ASSERT] failure; [frame_resize] of a frame that is not the most
    recent block gives a zeroed frame, and shrinking keeps the old bytes,
    which the new width reinterprets. *)

From Stdlib Require Import ZArith Lia List.
From stdpp Require Import base list list_numbers.
From S2P Require Import Prelude Arena.
Import ListNotations.
Local Open Scope Z_scope.

Module Frame.
Import Arena.

(** ** Data *)

(** [enum Color: uint8_t]. *)
Inductive Color :=
| COLOR_DEFAULT | COLOR_BLACK | COLOR_RED | COLOR_YELLOW | COLOR_BLUE
| COLOR_LIGHT_YELLOW | COLOR_LIGHT_BLUE.

#[export] Instance Color_eq_dec : EqDecision Color.
Proof. solve_decision. Defined.

Definition color_code (c : Color) : Z :=
  match c with
  | COLOR_DEFAULT => 0 | COLOR_BLACK => 1 | COLOR_RED => 2 | COLOR_YELLOW => 3
  | COLOR_BLUE => 4 | COLOR_LIGHT_YELLOW => 5 | COLOR_LIGHT_BLUE => 6
  end.

Definition COLOR_COUNT : Z := 7.

(** [struct Text_Glyph], as the values a client writes. *)
Record Text_Glyph := mkGlyph { codepoint : Z; fg : Color; bg : Color }.

(** [sizeof(Text_Glyph)]. *)
Definition GLYPH_SIZE : Z := 8.

(** [struct Frame { Text_Glyph *glyphs; int width; int height; }]. *)
Record Frame := mkFrame { glyphs : option Z; width : Z; height : Z }.

(** [static Frame front = {0}, back = {0};] *)
Definition frame_zero : Frame := mkFrame None 0 0.

(** ** Glyph access *)

(** [&frame->glyphs[idx]]; dereferencing it faults when [glyphs] is null. *)
Definition glyph_ptr (f : Frame) (idx : Z) : res Z :=
  match glyphs f with
  | None => Panic
  | Some p => Ok (p + idx * GLYPH_SIZE)
  end.

Definition glyph_cp (a : Arena) (g : Z) : Z := load_u32 a g.
Definition glyph_fg (a : Arena) (g : Z) : Z := rd a (g + 4).
Definition glyph_bg (a : Arena) (g : Z) : Z := rd a (g + 5).

(** ** Painting ([src/editor.cpp]) *)

(** [g->codepoint = ' '; g->bg = COLOR_DEFAULT;] *)
Definition clear_glyph (a : Arena) (g : Z) : Arena :=
  wr8 (store_u32 a g 32) (g + 5) (color_code COLOR_DEFAULT).

(** [glyph->codepoint = cp; glyph->fg = fg; glyph->bg = bg;] *)
Definition put_glyph (a : Arena) (g cp fgc bgc : Z) : Arena :=
  wr8 (wr8 (store_u32 a g cp) (g + 4) fgc) (g + 5) bgc.

(** [static void ed_pf_clear(Platform *p)]: every glyph gets codepoint
    [' '] and background [COLOR_DEFAULT]; the foreground is not touched. *)
Definition ed_pf_clear (a : Arena) (f : Frame) : res Arena :=
  let h := height f in
  let w := width f in
  for_range h (fun y a =>
    for_range w (fun x a =>
      let* g := glyph_ptr f (y * w + x) in
      Ok (clear_glyph a g)) a) a.

(** [static void ed_pf_put(Platform *p, int x, int y, uint32_t cp,
    Color fg, Color bg)]. *)
Definition ed_pf_put (a : Arena) (f : Frame) (x y cp : Z) (fg bg : Color) : res Arena :=
  let* _ := assert ((x <? width f) && (y <? height f)) in
  let* g := glyph_ptr f (y * width f + x) in
  Ok (put_glyph a g cp (color_code fg) (color_code bg)).

(** ** Resizing ([src/red_linux.cpp]) *)

(** [static size_t frame_buf_size(Frame *frame)]. *)
Definition frame_buf_size (f : Frame) : Z := width f * height f * GLYPH_SIZE.

(** [static void frame_resize(Frame *frame, int width, int height)]. *)
Definition frame_resize (a : Arena) (f : Frame) (w h : Z) : res (Arena * Frame) :=
  let old_size := frame_buf_size f in
  let f1 := mkFrame (glyphs f) w h in
  let new_size := frame_buf_size f1 in
  let* r := mem_realloc_zeroed a (glyphs f) old_size new_size in
  Ok (fst r, mkFrame (Some (snd r)) w h).

(** ** Invariant *)

(** The frame's block lies in the allocated part of the arena. *)
Definition frame_wf (a : Arena) (f : Frame) : Prop :=
  0 <= width f /\ 0 <= height f /\
  match glyphs f with
  | None => frame_buf_size f = 0
  | Some p => 0 <= p /\ p + frame_buf_size f <= mem_used a
  end.

(** The frame's block is the most recent allocation of the arena. *)
Definition frame_top (a : Arena) (f : Frame) : Prop :=
  match glyphs f with
  | None => True
  | Some p => p + frame_buf_size f = mem_used a
  end.

(** ** Glyph bytes *)

(** The three fields of the glyph at address [g]. *)
Definition glyph_at (a : Arena) (g : Z) : Z * Z * Z := (glyph_cp a g, glyph_fg a g, glyph_bg a g).

(** The fields of glyph [idx] of a frame. *)
Definition frame_glyph (a : Arena) (f : Frame) (idx : Z) : Z * Z * Z :=
  match glyphs f with
  | None => (0, 0, 0)
  | Some p => glyph_at a (p + idx * GLYPH_SIZE)
  end.

(** A glyph's fields are read from its own eight bytes only. *)
Lemma glyph_at_ext a a' g :
  (forall z, g <= z < g + 8 -> rd a' z = rd a z) -> glyph_at a' g = glyph_at a g.
Proof.
  intros H. unfold glyph_at, glyph_cp, glyph_fg, glyph_bg, load_u32.
  rewrite !H by lia. done.
Qed.

Lemma clear_glyph_other a g z : z < g \/ g + 8 <= z -> rd (clear_glyph a g) z = rd a z.
Proof.
  intros Hz. unfold clear_glyph. rewrite rd_wr8, rd_store_u32_other by lia. zbool. done.
Qed.

Lemma put_glyph_other a g cp fc bc z :
  z < g \/ g + 8 <= z -> rd (put_glyph a g cp fc bc) z = rd a z.
Proof.
  intros Hz. unfold put_glyph. rewrite !rd_wr8, rd_store_u32_other by lia. zbool. done.
Qed.

Lemma glyph_at_clear_glyph a g : glyph_at (clear_glyph a g) g = (32, glyph_fg a g, 0).
Proof.
  unfold glyph_at, glyph_cp, glyph_fg, glyph_bg, clear_glyph.
  rewrite !rd_wr8, rd_store_u32_other by lia. zbool.
  unfold load_u32. rewrite !rd_wr8. zbool. fold (load_u32 (store_u32 a g 32) g).
  rewrite load_store_u32 by lia. done.
Qed.

Lemma glyph_at_put_glyph a g cp fc bc :
  0 <= cp < 2 ^ 32 -> 0 <= fc < 256 -> 0 <= bc < 256 ->
  glyph_at (put_glyph a g cp fc bc) g = (cp, fc, bc).
Proof.
  intros Hcp Hf Hb. unfold glyph_at, glyph_cp, glyph_fg, glyph_bg, put_glyph.
  rewrite !rd_wr8. zbool. unfold u8, wrap. rewrite !Z.mod_small by lia.
  unfold load_u32. rewrite !rd_wr8. zbool. fold (load_u32 (store_u32 a g cp) g).
  rewrite load_store_u32 by lia. done.
Qed.

Lemma clear_glyph_wf a g : arena_wf a -> g + 8 <= mem_used a -> arena_wf (clear_glyph a g).
Proof. intros. unfold clear_glyph. apply wr8_wf; [apply store_u32_wf|]; simpl; (done || lia). Qed.

Lemma put_glyph_wf a g cp fc bc :
  arena_wf a -> g + 8 <= mem_used a -> arena_wf (put_glyph a g cp fc bc).
Proof.
  intros. unfold put_glyph. repeat apply wr8_wf; try apply store_u32_wf; simpl; (done || lia).
Qed.

#[export] Hint Resolve clear_glyph_wf put_glyph_wf : red.

Lemma color_code_byte c : 0 <= color_code c < COLOR_COUNT.
Proof. unfold COLOR_COUNT. destruct c; simpl; lia. Qed.

(** Two different glyphs of a frame do not share a byte. *)
Lemma glyph_disjoint p i j z :
  i <> j -> p + j * GLYPH_SIZE <= z < p + j * GLYPH_SIZE + 8 ->
  z < p + i * GLYPH_SIZE \/ p + i * GLYPH_SIZE + 8 <= z.
Proof. unfold GLYPH_SIZE. lia. Qed.

(** Writing one glyph of a frame leaves every other glyph of it alone. *)
Lemma frame_glyph_put_other a f p i j cp fc bc :
  glyphs f = Some p -> i <> j ->
  frame_glyph (put_glyph a (p + i * GLYPH_SIZE) cp fc bc) f j = frame_glyph a f j.
Proof.
  intros Hp Hij. unfold frame_glyph. rewrite Hp. apply glyph_at_ext.
  intros z Hz. apply put_glyph_other, (glyph_disjoint p i j z Hij Hz).
Qed.

(** ** [ed_pf_put] *)

(** [ed_pf_put] inside the frame writes the three fields of glyph
    [y * width + x] and no byte outside it. *)
Lemma ed_pf_put_spec a f x y cp fg bg :
  arena_wf a -> frame_wf a f -> 0 <= x < width f -> 0 <= y < height f -> 0 <= cp < 2 ^ 32 ->
  exists p a', glyphs f = Some p /\ ed_pf_put a f x y cp fg bg = Ok a' /\
    a' = put_glyph a (p + (y * width f + x) * GLYPH_SIZE) cp (color_code fg) (color_code bg) /\
    arena_wf a' /\ mem_used a' = mem_used a /\
    frame_glyph a' f (y * width f + x) = (cp, color_code fg, color_code bg).
Proof.
  intros Hwf (Hw & Hh & Hg) Hx Hy Hcp. unfold frame_buf_size, GLYPH_SIZE in Hg.
  destruct (glyphs f) as [p|] eqn:Ep; [|nia].
  assert (Hin : p + (y * width f + x) * GLYPH_SIZE + 8 <= mem_used a) by (unfold GLYPH_SIZE; nia).
  eexists p, _. split; [done|]. unfold ed_pf_put, glyph_ptr. rewrite Ep. zbool. simpl.
  split; [done|]. split; [done|]. split; [auto with red|]. split; [done|].
  unfold frame_glyph. rewrite Ep.
  apply glyph_at_put_glyph; [done| |]; pose proof (color_code_byte fg);
    pose proof (color_code_byte bg); unfold COLOR_COUNT in *; lia.
Qed.

(** C29: [ed_pf_put] outside the frame's width or height is the failure of
    its [ASSERT]. *)
Theorem ed_pf_put_oob a f x y cp fg bg :
  width f <= x \/ height f <= y -> ed_pf_put a f x y cp fg bg = Panic.
Proof. intros H. unfold ed_pf_put. destruct H; zbool; rewrite ?andb_false_r; done. Qed.

(** ** [ed_pf_clear] *)

Section Clear.
Context (a0 : Arena) (f : Frame) (p : Z) (Hp : glyphs f = Some p).
Let w := width f.
Let h := height f.

(** After the first [k] glyphs (in row-major order) are cleared. *)
Definition clear_inv (k : Z) (a : Arena) : Prop :=
  arena_wf a /\ mem_used a = mem_used a0 /\
  (forall z, z < p \/ p + w * h * GLYPH_SIZE <= z -> rd a z = rd a0 z) /\
  (forall i, 0 <= i < w * h ->
     frame_glyph a f i =
       if i <? k then (32, glyph_fg a0 (p + i * GLYPH_SIZE), 0) else frame_glyph a0 f i).

Lemma clear_inv_step k a :
  0 <= w -> 0 <= h -> 0 <= p -> p + w * h * GLYPH_SIZE <= mem_used a0 ->
  0 <= k < w * h -> clear_inv k a ->
  clear_inv (k + 1) (clear_glyph a (p + k * GLYPH_SIZE)).
Proof.
  intros Hw Hh Hp0 Hblk Hk (Hwf & Hu & Hout & Hin). unfold clear_inv. unfold GLYPH_SIZE in *.
  assert (k * 8 + 8 <= w * h * 8) by lia.
  split; [apply clear_glyph_wf; [done|lia]|]. split; [done|]. split.
  - intros z Hz. rewrite clear_glyph_other by lia. auto.
  - intros i Hi. unfold frame_glyph in *. rewrite Hp in *.
    destruct (Z.eq_dec i k) as [->|Hne].
    + rewrite glyph_at_clear_glyph. zbool.
      specialize (Hin k Hk). rewrite Z.ltb_irrefl in Hin. unfold glyph_at in Hin. change GLYPH_SIZE with 8 in *. congruence.
    + rewrite glyph_at_ext with (a := a).
      2:{ intros z Hz. apply clear_glyph_other. apply (glyph_disjoint p k i z); [lia|exact Hz]. }
      rewrite Hin by done. destruct (Z.ltb_spec i k), (Z.ltb_spec i (k + 1)); try done; lia.
Qed.

End Clear.

(** [ed_pf_clear] on a frame in the arena returns, sets every glyph's
    codepoint to [' '] and background to [COLOR_DEFAULT], keeps every
    foreground, and writes nothing outside the frame's block. *)
Lemma ed_pf_clear_spec a f p :
  arena_wf a -> frame_wf a f -> glyphs f = Some p ->
  exists a', ed_pf_clear a f = Ok a' /\ clear_inv a f p (width f * height f) a'.
Proof.
  intros Hwf (Hw & Hh & Hg) Hp. rewrite Hp in Hg. unfold frame_buf_size in Hg.
  unfold ed_pf_clear. rewrite (Z.mul_comm (width f) (height f)).
  apply (for_range_inv (fun y a' => clear_inv a f p (y * width f) a')); [lia| |].
  - split; [done|]. split; [done|]. split; [done|].
    intros i Hi. zbool. done.
  - intros y a1 Hy Hinv.
    destruct (for_range_inv (fun x a' => clear_inv a f p (y * width f + x) a') (width f)
                (fun x a' => let* g := glyph_ptr f (y * width f + x) in Ok (clear_glyph a' g)) a1)
      as (a2 & E & Hinv2); [lia|by rewrite Z.add_0_r| |].
    + intros x a' Hx Hi. unfold glyph_ptr. rewrite Hp. simpl. eexists. split; [done|].
      rewrite Z.add_assoc. apply clear_inv_step; try done; nia.
    + exists a2. split; [exact E|]. replace ((y + 1) * width f) with (y * width f + width f) by lia.
      exact Hinv2.
Qed.

Lemma ed_pf_clear_ok a f p :
  arena_wf a -> frame_wf a f -> glyphs f = Some p ->
  exists a', ed_pf_clear a f = Ok a' /\ arena_wf a' /\ mem_used a' = mem_used a /\
    (forall idx, 0 <= idx < width f * height f ->
       frame_glyph a' f idx = (32, glyph_fg a (p + idx * GLYPH_SIZE), 0)) /\
    (forall z, z < p \/ p + frame_buf_size f <= z -> rd a' z = rd a z).
Proof.
  intros Hwf Hf Hp. destruct (ed_pf_clear_spec a f p Hwf Hf Hp) as (a' & E & Hw & Hu & Hout & Hin).
  exists a'. split; [done|]. split; [done|]. split; [done|]. split.
  - intros idx Hi. rewrite Hin by done. zbool. done.
  - intros z Hz. apply Hout. unfold frame_buf_size in Hz. lia.
Qed.

(** C21: [ed_pf_clear] on a frame in the arena returns; afterwards every
    glyph of the frame has codepoint [' '] and background [COLOR_DEFAULT]
    and keeps its old foreground; no byte outside the frame's block
    changes, and the arena invariant holds. *)
Theorem ed_pf_clear_result a f p :
  arena_wf a -> frame_wf a f -> glyphs f = Some p ->
  exists a', ed_pf_clear a f = Ok a' /\ arena_wf a' /\ mem_used a' = mem_used a /\
    (forall idx, 0 <= idx < width f * height f ->
       frame_glyph a' f idx = (32, glyph_fg a (p + idx * GLYPH_SIZE), 0)) /\
    (forall z, z < p \/ p + frame_buf_size f <= z -> rd a' z = rd a z).
Proof. eapply ed_pf_clear_ok; eassumption. Qed.

(** Witnesses: a 2 x 1 frame at the base of an arena of 16 bytes. *)
Lemma ed_pf_clear_result_witness :
  exists a', ed_pf_clear (bump arena_init 16) (mkFrame (Some 0) 2 1) = Ok a' /\
    arena_wf a' /\ mem_used a' = mem_used (bump arena_init 16) /\
    (forall idx, 0 <= idx < width (mkFrame (Some 0) 2 1) * height (mkFrame (Some 0) 2 1) ->
       frame_glyph a' (mkFrame (Some 0) 2 1) idx =
         (32, glyph_fg (bump arena_init 16) (0 + idx * GLYPH_SIZE), 0)) /\
    (forall z, z < 0 \/ 0 + frame_buf_size (mkFrame (Some 0) 2 1) <= z ->
       rd a' z = rd (bump arena_init 16) z).
Proof.
  apply ed_pf_clear_result; [| |reflexivity].
  - apply bump_wf; [exact arena_init_wf|lia|unfold MEM_CAPACITY; simpl; lia].
  - unfold frame_wf, frame_buf_size, GLYPH_SIZE. simpl. lia.
Defined.

Lemma ed_pf_put_oob_witness :
  ed_pf_put (bump arena_init 16) (mkFrame (Some 0) 2 1) 2 0 97 COLOR_DEFAULT COLOR_DEFAULT = Panic.
Proof. apply ed_pf_put_oob. simpl. lia. Defined.

End Frame.
