(* ===== verification/Render.v ===== *)
(** * The renderer (src/red_linux.cpp: [display] and its helpers)

    [display] compares the [back] frame (what the editor painted) with the
    [front] frame (what was last sent to the terminal) glyph by glyph with
    [mem_equal], and for every glyph that differs positions the cursor
    with [set_term_cursor], switches colours with the [fg_escapes] and
    [bg_escapes] tables when they change, and prints the glyph's UTF-8
    bytes.  It ends by parking the cursor and copying [back] over [front].

    The bytes [display] writes are a [list Z]; [printf] of the constant
    escape strings appends their bytes, [printf("\x1b[%d;%dH")] appends the
    decimal digits [print_int] gives.  The abstract specification is the
    terminal of Terminal.v: the screen after it reads the output.

    Proved here: every entry of the colour tables selects the colour its
    name says; the terminal reads [set_term_cursor] back as the cursor
    position; [display] refines "the screen shows [back]": from a screen
    that agrees with [back] wherever the frames' bytes agree, the terminal
    ends up showing [back] and [front] becomes a copy of [back]; when the
    frames agree everywhere [display] sends only three constant control
    sequences; afterwards [front] and [back] agree byte for byte.  The
    [fflush(stdout)] that ends [display] is modelled with the [stdout]
    stream in Stdio.v. *)

From Stdlib Require Import ZArith Lia List.
From stdpp Require Import base list list_numbers strings.
From S2P Require Import Prelude Utf8 Arena Terminal Frame.
Import ListNotations.
Local Open Scope Z_scope.

Module Render.
Import Codec Arena Terminal Frame.

(** ** Constants and helpers *)

(** [ESC_HOME], [ESC_RESET], [ESC_CLEAR]. *)
Definition ESC_HOME : list Z := 27 :: bytes "[H"%string.
Definition ESC_RESET : list Z := 27 :: bytes "[0m"%string.
Definition ESC_CLEAR : list Z := 27 :: bytes "[2J"%string.

(** [static const char *fg_escapes[]], indexed by [Color]. *)
Definition fg_escapes : list (list Z) :=
  map (fun s => 27 :: bytes s)
    ["[39m"; "[30m"; "[31m"; "[33m"; "[34m"; "[93m"; "[94m"]%string.

(** [static const char *bg_escapes[]], indexed by [Color]. *)
Definition bg_escapes : list (list Z) :=
  map (fun s => 27 :: bytes s)
    ["[49m"; "[40m"; "[41m"; "[43m"; "[44m"; "[103m"; "[104m"]%string.

(** [table[i]]: reading outside the array is undefined behaviour, a
    fault of the model. *)
Definition table_at (t : list (list Z)) (i : Z) : res (list Z) :=
  if 0 <=? i then
    match nth_error t (Z.to_nat i) with Some s => Ok s | None => Panic end
  else Panic.

(** [static void set_term_cursor(int x, int y)]. *)
Definition set_term_cursor (x y : Z) : list Z :=
  [27; 91] ++ print_int (y + 1) ++ [59] ++ print_int (x + 1) ++ [72].

(** [static bool mem_equal(void *a, void *b, size_t sz)]. *)
Fixpoint mem_equal (a : Arena) (pa pb : Z) (sz : nat) : bool :=
  match sz with
  | O => true
  | S n => if rd a pa =? rd a pb then mem_equal a (pa + 1) (pb + 1) n else false
  end.

(** [memcpy(dst, src, n)] for blocks that do not overlap. *)
Definition memcpy (a : Arena) (dst src n : Z) : Arena :=
  mkArena (fun x => if (dst <=? x) && (x <? dst + n) then mem_buffer a (src + (x - dst))
                    else mem_buffer a x)
    (mem_used a) (mem_used_max a).

(** ** [display] *)

(** The bytes written so far and the local [fg] and [bg]. *)
Record Disp := mkDisp { d_out : list Z; d_fg : Z; d_bg : Z }.

(** [if (g->fg != fg) { fg = g->fg; printf(fg_escapes[fg]); }], and the
    same for [bg]: the output and the new value of the local. *)
Definition switch_color (table : list (list Z)) (out : list Z) (cur want : Z)
    : res (list Z * Z) :=
  if negb (want =? cur) then
    let* e := table_at table want in Ok (out ++ e, want)
  else Ok (out, cur).

(** The body of the inner loop of [display], at [(col, row)]. *)
Definition display_cell (a : Arena) (front back : Frame) (row col : Z) (s : Disp)
    : res Disp :=
  let idx := row * width back + col in
  let* g := glyph_ptr back idx in
  let* gf := glyph_ptr front idx in
  if mem_equal a g gf 8 then Ok s
  else
    let out1 := d_out s ++ set_term_cursor col row in
    let buf := utf32_to_8 (glyph_cp a g) 4 in
    let* r1 := switch_color fg_escapes out1 (d_fg s) (glyph_fg a g) in
    let* r2 := switch_color bg_escapes (fst r1) (d_bg s) (glyph_bg a g) in
    Ok (mkDisp (fst r2 ++ buf) (snd r1) (snd r2)).

(** [memcpy(front.glyphs, back.glyphs, frame_buf_size(&back))]. *)
Definition copy_frame (a : Arena) (front back : Frame) : res Arena :=
  let n := frame_buf_size back in
  if n =? 0 then Ok a
  else match glyphs front, glyphs back with
       | Some d, Some s => Ok (memcpy a d s n)
       | _, _ => Panic
       end.

(** [static void display(void)]: the arena after the call and the bytes
    written to [stdout]. *)
Definition display (a : Arena) (front back : Frame) : res (Arena * list Z) :=
  let out0 := ESC_HOME in
  let* _ := assert (width front =? width back) in
  let* _ := assert (height front =? height back) in
  let s0 := mkDisp (out0 ++ ESC_RESET) (color_code COLOR_DEFAULT) (color_code COLOR_DEFAULT) in
  let* s := for_range (height back) (fun row s =>
              for_range (width back) (fun col s => display_cell a front back row col s) s) s0 in
  let out := d_out s ++ set_term_cursor (width back - 1) (height back - 1) in
  let* a' := copy_frame a front back in
  Ok (a', out).

(** [static void frame_resize_all_to_fit_term(void)], with the window size
    [(w, h)] the [TIOCGWINSZ] query returns: the arena, the new [front]
    and [back], and the bytes written. *)
Definition frame_resize_all (a : Arena) (front back : Frame) (w h : Z)
    : res (Arena * Frame * Frame * list Z) :=
  let out := ESC_CLEAR ++ ESC_HOME in
  let* r1 := frame_resize a back w h in
  let* r2 := frame_resize (fst r1) front w h in
  Ok (fst r2, snd r2, snd r1, out).

(** ** What the screen should show *)

(** The colour each [Color] names, in the terminal's SGR numbering
    (black 0, red 1, yellow 3, blue 4; light = bright). *)
Definition color_meaning (c : Color) : TColor :=
  match c with
  | COLOR_DEFAULT => TDefault
  | COLOR_BLACK => TAnsi 0
  | COLOR_RED => TAnsi 1
  | COLOR_YELLOW => TAnsi 3
  | COLOR_BLUE => TAnsi 4
  | COLOR_LIGHT_YELLOW => TBright 3
  | COLOR_LIGHT_BLUE => TBright 4
  end.

Definition color_of_code (z : Z) : option Color :=
  find (fun c => color_code c =? z)
    [COLOR_DEFAULT; COLOR_BLACK; COLOR_RED; COLOR_YELLOW; COLOR_BLUE;
     COLOR_LIGHT_YELLOW; COLOR_LIGHT_BLUE].

(** The colour of a [Color] byte read from a glyph. *)
Definition cell_color (z : Z) : TColor :=
  match color_of_code z with Some c => color_meaning c | None => TDefault end.

(** The cell a glyph should produce on the screen. *)
Definition view (a : Arena) (g : Z) : Cell :=
  mkCell (glyph_cp a g) (cell_color (glyph_fg a g)) (cell_color (glyph_bg a g)).

Definition frame_view (a : Arena) (f : Frame) (idx : Z) : Cell :=
  match glyphs f with
  | Some p => view a (p + idx * GLYPH_SIZE)
  | None => blank TDefault
  end.

(** The screen shows frame [f] at every position of the frame. *)
Definition shows (t : Term) (a : Arena) (f : Frame) : Prop :=
  forall row col, 0 <= row < height f -> 0 <= col < width f ->
    t_scr t row col = frame_view a f (row * width f + col).

(** A glyph the terminal can show: a printable codepoint and two valid
    [Color] bytes. *)
Definition glyph_ok (a : Arena) (g : Z) : Prop :=
  printable (glyph_cp a g) = true /\
  0 <= glyph_fg a g < COLOR_COUNT /\ 0 <= glyph_bg a g < COLOR_COUNT.

Definition glyph_okb (a : Arena) (g : Z) : bool :=
  printable (glyph_cp a g) && (0 <=? glyph_fg a g) && (glyph_fg a g <? COLOR_COUNT) &&
  (0 <=? glyph_bg a g) && (glyph_bg a g <? COLOR_COUNT).

Lemma glyph_okb_ok a g : glyph_okb a g = true -> glyph_ok a g.
Proof.
  unfold glyph_okb, glyph_ok. rewrite !andb_true_iff, !Z.leb_le, !Z.ltb_lt. tauto.
Qed.

Definition upd_scr (scr : Z -> Z -> Cell) (r c : Z) (x : Cell) : Z -> Z -> Cell :=
  fun r' c' => if (r' =? r) && (c' =? c) then x else scr r' c'.

(** ** The escape tables *)

Lemma color_of_code_code c : color_of_code (color_code c) = Some c.
Proof. by destruct c. Qed.

Lemma code_color z : 0 <= z < COLOR_COUNT -> exists c, color_code c = z.
Proof.
  unfold COLOR_COUNT. intros Hz.
  assert (z = 0 \/ z = 1 \/ z = 2 \/ z = 3 \/ z = 4 \/ z = 5 \/ z = 6) as Hc by lia.
  repeat destruct Hc as [->|Hc]; subst;
    [exists COLOR_DEFAULT|exists COLOR_BLACK|exists COLOR_RED|exists COLOR_YELLOW
    |exists COLOR_BLUE|exists COLOR_LIGHT_YELLOW|exists COLOR_LIGHT_BLUE]; done.
Qed.

Lemma escapes_spec c t :
  t_ps t = Ground ->
  (exists e, table_at fg_escapes (color_code c) = Ok e /\
     term_run t e = with_colors t (color_meaning c) (t_bg t)) /\
  (exists e, table_at bg_escapes (color_code c) = Ok e /\
     term_run t e = with_colors t (t_fg t) (color_meaning c)).
Proof.
  destruct t as [scr row col fg bg ps]. simpl. intros ->.
  destruct c; split; eexists; split; reflexivity.
Qed.

(** C17: each entry of [fg_escapes] and [bg_escapes], read by the terminal,
    selects exactly the foreground (background) colour its [Color] names
    and changes nothing else. *)
Theorem escapes_meaning c t :
  t_ps t = Ground ->
  (exists e, table_at fg_escapes (color_code c) = Ok e /\
     term_run t e = with_colors t (color_meaning c) (t_bg t)) /\
  (exists e, table_at bg_escapes (color_code c) = Ok e /\
     term_run t e = with_colors t (t_fg t) (color_meaning c)).
Proof. eapply escapes_spec; eassumption. Qed.

Lemma with_colors_same t : with_colors t (t_fg t) (t_bg t) = t.
Proof. by destruct t. Qed.

Lemma switch_color_fg t0 out cur want :
  t_ps (term_run t0 out) = Ground -> t_fg (term_run t0 out) = cell_color cur ->
  0 <= want < COLOR_COUNT ->
  exists r, switch_color fg_escapes out cur want = Ok r /\ snd r = want /\
    term_run t0 (fst r) =
      with_colors (term_run t0 out) (cell_color want) (t_bg (term_run t0 out)).
Proof.
  intros Hg Hf Hw. unfold switch_color.
  destruct (Z.eqb_spec want cur) as [->|Hne]; simpl.
  - eexists. split; [done|]. split; [done|]. simpl. by rewrite <- Hf, with_colors_same.
  - destruct (code_color want Hw) as [c <-].
    destruct (escapes_spec c (term_run t0 out) Hg) as [(e & -> & He) _].
    eexists. split; [done|]. split; [done|]. simpl.
    rewrite term_run_app, He. unfold cell_color. by rewrite color_of_code_code.
Qed.

Lemma switch_color_bg t0 out cur want :
  t_ps (term_run t0 out) = Ground -> t_bg (term_run t0 out) = cell_color cur ->
  0 <= want < COLOR_COUNT ->
  exists r, switch_color bg_escapes out cur want = Ok r /\ snd r = want /\
    term_run t0 (fst r) =
      with_colors (term_run t0 out) (t_fg (term_run t0 out)) (cell_color want).
Proof.
  intros Hg Hb Hw. unfold switch_color.
  destruct (Z.eqb_spec want cur) as [->|Hne]; simpl.
  - eexists. split; [done|]. split; [done|]. simpl. by rewrite <- Hb, with_colors_same.
  - destruct (code_color want Hw) as [c <-].
    destruct (escapes_spec c (term_run t0 out) Hg) as [_ (e & -> & He)].
    eexists. split; [done|]. split; [done|]. simpl.
    rewrite term_run_app, He. unfold cell_color. by rewrite color_of_code_code.
Qed.

(** ** The cursor *)

(** The terminal reads [set_term_cursor x y] as "move to column [x], row
    [y]" (clamped at 0 as the terminal does). *)
Lemma term_run_set_term_cursor t x y :
  t_ps t = Ground -> -1 <= x -> -1 <= y ->
  term_run t (set_term_cursor x y) = with_cursor t (Z.max (y + 1) 1 - 1) (Z.max (x + 1) 1 - 1).
Proof.
  intros Hg Hx Hy. unfold set_term_cursor, print_int. zbool.
  rewrite term_run_csi2 by (done || lia).
  destruct t as [scr row col fg bg ps]. simpl in Hg. subst. reflexivity.
Qed.

Lemma term_run_home_reset t :
  t_ps t = Ground ->
  term_run t (ESC_HOME ++ ESC_RESET) = with_colors (with_cursor t 0 0) TDefault TDefault.
Proof. destruct t as [scr row col fg bg ps]. simpl. intros ->. reflexivity. Qed.

(** ** [mem_equal] and [memcpy] *)

Lemma mem_equal_spec a x y n :
  mem_equal a x y n = true <-> forall i, 0 <= i < Z.of_nat n -> rd a (x + i) = rd a (y + i).
Proof.
  revert x y. induction n as [|n IH]; intros x y; simpl; split; try done.
  - intros _ i Hi. lia.
  - destruct (Z.eqb_spec (rd a x) (rd a y)) as [E|E]; [|done].
    rewrite IH. intros H i Hi.
    destruct (Z.eq_dec i 0) as [->|Hi0]; [by rewrite !Z.add_0_r|].
    replace (x + i) with (x + 1 + (i - 1)) by lia.
    replace (y + i) with (y + 1 + (i - 1)) by lia. apply H. lia.
  - intros H. pose proof (H 0 ltac:(lia)) as H0. rewrite !Z.add_0_r in H0.
    rewrite H0, Z.eqb_refl. apply IH. intros i Hi. rewrite <- !Z.add_assoc. apply H. lia.
Qed.

(** Glyphs whose eight bytes are equal have equal fields. *)
Lemma glyph_at_shift a a' g g' :
  (forall i, 0 <= i < 8 -> rd a' (g' + i) = rd a (g + i)) -> glyph_at a' g' = glyph_at a g.
Proof.
  intros H. unfold glyph_at, glyph_cp, glyph_fg, glyph_bg, load_u32.
  pose proof (H 0 ltac:(lia)) as H0. rewrite !Z.add_0_r in H0.
  rewrite H0, (H 1), (H 2), (H 3), (H 4), (H 5) by lia. done.
Qed.

Lemma view_glyph_at a a' g g' : glyph_at a' g' = glyph_at a g -> view a' g' = view a g.
Proof. unfold view, glyph_at. intros [= -> -> ->]. done. Qed.

Lemma rd_memcpy a d s n x :
  rd (memcpy a d s n) x = if (d <=? x) && (x <? d + n) then rd a (s + (x - d)) else rd a x.
Proof. reflexivity. Qed.

Lemma memcpy_wf a d s n :
  arena_wf a -> 0 <= d -> d + n <= mem_used a -> arena_wf (memcpy a d s n).
Proof.
  intros (Hu & Hm & Hz) Hd Hn. split; [done|]. split; [done|].
  intros x Hx. rewrite rd_memcpy. simpl in Hx. zbool. rewrite andb_false_r. by apply Hz.
Qed.

(** ** The loop of [display] *)

Section DisplayLoop.
Context (a : Arena) (front back : Frame) (pf pb : Z) (t0 : Term).
Context (Hpf : glyphs front = Some pf) (Hpb : glyphs back = Some pb).
Let w := width back.

Definition gb (row col : Z) : Z := pb + (row * width back + col) * GLYPH_SIZE.
Definition gf (row col : Z) : Z := pf + (row * width back + col) * GLYPH_SIZE.

(** The terminal after the output so far is in the ground state, with the
    colours the locals [fg] and [bg] say. *)
Definition disp_ok (s : Disp) : Prop :=
  let t := term_run t0 (d_out s) in
  t_ps t = Ground /\ t_fg t = cell_color (d_fg s) /\ t_bg t = cell_color (d_bg s) /\
  0 <= d_fg s < COLOR_COUNT /\ 0 <= d_bg s < COLOR_COUNT.

(** Position [(r, c)] comes before glyph [k] in the loop's order. *)
Definition processed (k r c : Z) : bool :=
  (0 <=? r) && (0 <=? c) && (c <? width back) && (r * width back + c <? k).

(** After the first [k] glyphs: the glyphs that differed are on the
    screen, the rest of the screen is as it was. *)
Definition disp_inv (k : Z) (s : Disp) : Prop :=
  disp_ok s /\
  forall r c, t_scr (term_run t0 (d_out s)) r c =
    if processed k r c && negb (mem_equal a (gb r c) (gf r c) 8)
    then view a (gb r c) else t_scr t0 r c.

Lemma processed_step row col r c :
  0 <= row -> 0 <= col < w ->
  processed (row * w + col + 1) r c = processed (row * w + col) r c || ((r =? row) && (c =? col)).
Proof.
  intros Hr Hc. unfold processed. fold w.
  destruct (Z.eqb_spec r row) as [Er|Er], (Z.eqb_spec c col) as [Ec|Ec];
    simpl; rewrite ?orb_false_r, ?orb_true_r.
  1: { subst. zbool. done. }
  all: destruct (Z.leb_spec 0 r), (Z.leb_spec 0 c), (Z.ltb_spec c w); simpl; try done;
      destruct (Z.ltb_spec (r * w + c) (row * w + col + 1)),
        (Z.ltb_spec (r * w + c) (row * w + col)); try done;
      assert (E : r * w + c = row * w + col) by lia;
      apply idx_inj in E; lia.
Qed.

Lemma display_cell_spec row col s :
  0 <= row -> 0 <= col < w -> glyph_ok a (gb row col) -> disp_ok s ->
  exists s', display_cell a front back row col s = Ok s' /\ disp_ok s' /\
    t_scr (term_run t0 (d_out s')) =
      if mem_equal a (gb row col) (gf row col) 8 then t_scr (term_run t0 (d_out s))
      else upd_scr (t_scr (term_run t0 (d_out s))) row col (view a (gb row col)).
Proof.
  intros Hr Hc (Hp & Hfr & Hbr) (Hg & Hf & Hb & Hfr0 & Hbr0).
  unfold display_cell, glyph_ptr. rewrite Hpb, Hpf. cbn [res_bind].
  fold (gb row col) (gf row col).
  destruct (mem_equal a (gb row col) (gf row col) 8) eqn:Eq; [by exists s|].
  set (t := term_run t0 (d_out s)) in *.
  assert (Hcur : term_run t0 (d_out s ++ set_term_cursor col row) = with_cursor t row col).
  { rewrite term_run_app, term_run_set_term_cursor by (done || lia). f_equal; lia. }
  destruct (switch_color_fg t0 (d_out s ++ set_term_cursor col row) (d_fg s)
              (glyph_fg a (gb row col))) as (r1 & -> & Hs1 & Ht1);
    [by rewrite Hcur|by rewrite Hcur|done|].
  simpl. rewrite Hcur in Ht1.
  destruct (switch_color_bg t0 (fst r1) (d_bg s) (glyph_bg a (gb row col)))
    as (r2 & -> & Hs2 & Ht2); [by rewrite Ht1|by rewrite Ht1|done|].
  simpl. rewrite Ht1 in Ht2. eexists. split; [reflexivity|].
  unfold disp_ok. cbn [d_out d_fg d_bg]. rewrite term_run_app, Ht2, term_run_utf8 by done.
  unfold put_char. rewrite Hp. cbn. rewrite Hs1, Hs2.
  split; [do 4 (split; [done|]); done|]. reflexivity.
Qed.

Lemma disp_inv_step row col s :
  0 <= row -> 0 <= col < w -> glyph_ok a (gb row col) -> disp_inv (row * w + col) s ->
  exists s', display_cell a front back row col s = Ok s' /\ disp_inv (row * w + col + 1) s'.
Proof.
  intros Hr Hc Hok [Hd Hinv].
  destruct (display_cell_spec row col s Hr Hc Hok Hd) as (s' & E & Hd' & Hscr).
  exists s'. split; [done|]. split; [done|]. intros r c.
  rewrite Hscr, processed_step by done.
  destruct ((r =? row) && (c =? col)) eqn:Erc.
  - apply andb_true_iff in Erc as [E1 E2]. apply Z.eqb_eq in E1, E2. subst r c.
    rewrite orb_true_r. cbn [andb].
    destruct (mem_equal a (gb row col) (gf row col) 8) eqn:Eq; cbn [negb].
    + rewrite Hinv, Eq, andb_false_r. done.
    + unfold upd_scr. by rewrite !Z.eqb_refl.
  - rewrite orb_false_r, <- Hinv.
    destruct (mem_equal a (gb row col) (gf row col) 8); [done|].
    unfold upd_scr. by rewrite Erc.
Qed.

(** The two loops of [display] return, and leave the invariant for all
    the frame's glyphs. *)
Lemma display_loop s0 :
  0 <= w -> 0 <= height back ->
  (forall r c, 0 <= r < height back -> 0 <= c < w -> glyph_ok a (gb r c)) ->
  disp_inv 0 s0 ->
  exists s, for_range (height back) (fun row s =>
              for_range w (fun col s => display_cell a front back row col s) s) s0 = Ok s /\
    disp_inv (height back * w) s.
Proof.
  intros Hw Hh Hok H0.
  apply (for_range_inv (fun row s => disp_inv (row * w) s)); [done|done|].
  intros row s1 Hrow Hs1.
  destruct (for_range_inv (fun col s => disp_inv (row * w + col) s) w
              (fun col s => display_cell a front back row col s) s1)
    as (s2 & E & Hs2); [done|by rewrite Z.add_0_r| |].
  - intros col s Hcol Hs. rewrite Z.add_assoc. apply disp_inv_step; [lia|lia|apply Hok; lia|done].
  - exists s2. split; [done|]. by replace ((row + 1) * w) with (row * w + w) by lia.
Qed.

End DisplayLoop.

(** ** [display] refines "the screen shows [back]" *)

Lemma processed_all w h r c :
  0 <= r < h -> 0 <= c < w -> (0 <=? r) && (0 <=? c) && (c <? w) && (r * w + c <? h * w) = true.
Proof. intros. zbool. assert (r * w + c < h * w) by nia. zbool. done. Qed.

Lemma copy_frame_glyph a front back pf pb idx :
  glyphs front = Some pf -> glyphs back = Some pb ->
  pf + frame_buf_size back <= pb \/ pb + frame_buf_size back <= pf ->
  0 <= idx < width back * height back ->
  view (memcpy a pf pb (frame_buf_size back)) (pf + idx * GLYPH_SIZE) = view a (pb + idx * GLYPH_SIZE).
Proof.
  intros Hpf Hpb Hd Hi. unfold frame_buf_size, GLYPH_SIZE in *.
  apply view_glyph_at, glyph_at_shift. intros i Hi'. rewrite rd_memcpy.
  assert (idx * 8 + i < width back * height back * 8) by lia. zbool.
  f_equal. lia.
Qed.

Lemma display_spec a front back pf pb t0 :
  arena_wf a -> frame_wf a front -> frame_wf a back ->
  glyphs front = Some pf -> glyphs back = Some pb ->
  width front = width back -> height front = height back ->
  pf + frame_buf_size back <= pb \/ pb + frame_buf_size back <= pf ->
  (forall idx, 0 <= idx < width back * height back -> glyph_ok a (pb + idx * GLYPH_SIZE)) ->
  t_ps t0 = Ground ->
  (forall row col, 0 <= row < height back -> 0 <= col < width back ->
     mem_equal a (pb + (row * width back + col) * GLYPH_SIZE)
       (pf + (row * width back + col) * GLYPH_SIZE) 8 = true ->
     t_scr t0 row col = frame_view a back (row * width back + col)) ->
  exists a' out, display a front back = Ok (a', out) /\
    shows (term_run t0 out) a back /\ shows (term_run t0 out) a' front /\
    t_ps (term_run t0 out) = Ground /\ arena_wf a' /\ mem_used a' = mem_used a /\
    (forall z, z < pf \/ pf + frame_buf_size back <= z -> rd a' z = rd a z).
Proof.
  intros Hwf (Hwf1 & Hhf1 & Hf) (Hwb & Hhb & Hb) Hpf Hpb Hwd Hhd Hdisj Hok Hg0 Hagree.
  rewrite Hpf in Hf. rewrite Hpb in Hb. unfold frame_buf_size in Hf.
  rewrite Hwd, Hhd in Hf. fold (frame_buf_size back) in Hf.
  unfold display. rewrite Hwd, Hhd, !Z.eqb_refl. cbn [res_bind assert].
  destruct (display_loop a front back pf pb t0 Hpf Hpb
              (mkDisp (ESC_HOME ++ ESC_RESET) (color_code COLOR_DEFAULT) (color_code COLOR_DEFAULT))
              Hwb Hhb) as (s & -> & [(Hg & _) Hinv]).
  { intros r c Hr Hc. unfold gb. apply Hok. nia. }
  { split.
    - unfold disp_ok. cbn [d_out d_fg d_bg]. rewrite term_run_home_reset by done.
      unfold COLOR_COUNT. cbn. split; [done|]. repeat split; lia.
    - intros r c. cbn [d_out]. rewrite term_run_home_reset by done.
      unfold processed. destruct (Z.ltb_spec (r * width back + c) 0); [|by rewrite andb_false_r].
      destruct (Z.leb_spec 0 r), (Z.leb_spec 0 c), (Z.ltb_spec c (width back)); try done. nia. }
  cbn [res_bind].
  set (out := d_out s ++ set_term_cursor (width back - 1) (height back - 1)).
  assert (Hout : t_scr (term_run t0 out) = t_scr (term_run t0 (d_out s)) /\
                 t_ps (term_run t0 out) = Ground).
  { unfold out. rewrite term_run_app, term_run_set_term_cursor by (done || lia). done. }
  destruct Hout as [Hscr Hgo].
  assert (Hshow : shows (term_run t0 out) a back).
  { intros r c Hr Hc. rewrite Hscr, Hinv. unfold processed. rewrite processed_all by done.
    destruct (mem_equal _ _ _ 8) eqn:Eq; cbn [negb andb]; [by apply Hagree|].
    unfold frame_view, gb. by rewrite Hpb. }
  unfold copy_frame. rewrite Hpf, Hpb.
  destruct (Z.eqb_spec (frame_buf_size back) 0) as [H0|H0]; cbn [res_bind].
  - eexists _, _. split; [reflexivity|]. split; [done|]. split; [|done].
    intros r c Hr Hc. exfalso. unfold frame_buf_size, GLYPH_SIZE in H0. rewrite Hwd, Hhd in *. nia.
  - eexists _, _. split; [reflexivity|]. split; [done|]. split; [|split; [done|split]].
    + intros r c Hr Hc. rewrite Hwd, Hhd in *. rewrite (Hshow r c Hr Hc).
      unfold frame_view. rewrite Hpf, Hpb, (copy_frame_glyph a front back pf pb) by (done || nia).
      done.
    + apply memcpy_wf; [done|lia|lia].
    + split; [done|]. intros z Hz. rewrite rd_memcpy. destruct Hz; zbool; rewrite ?andb_false_r; done.
Qed.

(** C4: [display] from a screen that agrees with [back] wherever the two
    frames' glyph bytes agree (in particular from a screen that shows
    [front]): it returns, the terminal ends up showing [back] at every
    position of the frame, [front] becomes a copy of [back] (so the screen
    shows [front] again), and nothing outside [front]'s block changes. *)
Theorem display_refines a front back pf pb t0 :
  arena_wf a -> frame_wf a front -> frame_wf a back ->
  glyphs front = Some pf -> glyphs back = Some pb ->
  width front = width back -> height front = height back ->
  pf + frame_buf_size back <= pb \/ pb + frame_buf_size back <= pf ->
  (forall idx, 0 <= idx < width back * height back -> glyph_ok a (pb + idx * GLYPH_SIZE)) ->
  t_ps t0 = Ground ->
  (forall row col, 0 <= row < height back -> 0 <= col < width back ->
     mem_equal a (pb + (row * width back + col) * GLYPH_SIZE)
       (pf + (row * width back + col) * GLYPH_SIZE) 8 = true ->
     t_scr t0 row col = frame_view a back (row * width back + col)) ->
  exists a' out, display a front back = Ok (a', out) /\
    shows (term_run t0 out) a back /\ shows (term_run t0 out) a' front /\
    t_ps (term_run t0 out) = Ground /\ arena_wf a' /\ mem_used a' = mem_used a /\
    (forall z, z < pf \/ pf + frame_buf_size back <= z -> rd a' z = rd a z).
Proof. eapply display_spec; eassumption. Qed.

(** If the screen shows [front], [display] leaves it showing [back] (and
    [front], which is now a copy of [back]): "the screen shows [front]" is
    the invariant that makes the diff sound. *)
Corollary display_mirror a front back pf pb t0 :
  arena_wf a -> frame_wf a front -> frame_wf a back ->
  glyphs front = Some pf -> glyphs back = Some pb ->
  width front = width back -> height front = height back ->
  pf + frame_buf_size back <= pb \/ pb + frame_buf_size back <= pf ->
  (forall idx, 0 <= idx < width back * height back -> glyph_ok a (pb + idx * GLYPH_SIZE)) ->
  t_ps t0 = Ground -> shows t0 a front ->
  exists a' out, display a front back = Ok (a', out) /\
    shows (term_run t0 out) a back /\ shows (term_run t0 out) a' front /\
    t_ps (term_run t0 out) = Ground /\ arena_wf a' /\ mem_used a' = mem_used a /\
    (forall z, z < pf \/ pf + frame_buf_size back <= z -> rd a' z = rd a z).
Proof.
  intros Hwf Hf Hb Hpf Hpb Hwd Hhd Hdisj Hok Hg Hshow.
  apply (display_spec a front back pf pb t0); try done.
  intros row col Hr Hc Heq. rewrite Hshow by congruence. rewrite Hwd.
  unfold frame_view. rewrite Hpf, Hpb. apply view_glyph_at, glyph_at_shift.
  intros i Hi. symmetry. apply (proj1 (mem_equal_spec a _ _ 8) Heq). simpl. lia.
Qed.

(** C20: when the two frames agree byte for byte, [display] writes only
    [ESC_HOME], [ESC_RESET] and the final cursor position: an unchanged
    frame costs three short control sequences and no glyph. *)
Theorem display_idle a front back pf pb :
  glyphs front = Some pf -> glyphs back = Some pb ->
  width front = width back -> height front = height back ->
  (forall idx, 0 <= idx < width back * height back ->
     mem_equal a (pb + idx * GLYPH_SIZE) (pf + idx * GLYPH_SIZE) 8 = true) ->
  exists a', display a front back =
    Ok (a', ESC_HOME ++ ESC_RESET ++ set_term_cursor (width back - 1) (height back - 1)).
Proof.
  intros Hpf Hpb Hwd Hhd Heq. unfold display. rewrite Hwd, Hhd, !Z.eqb_refl. cbn [res_bind assert].
  set (s0 := mkDisp (ESC_HOME ++ ESC_RESET) (color_code COLOR_DEFAULT) (color_code COLOR_DEFAULT)).
  assert (Hloop : for_range (height back) (fun row s =>
            for_range (width back) (fun col s => display_cell a front back row col s) s) s0 = Ok s0).
  { destruct (Z.le_gt_cases 0 (height back)) as [Hh|Hh]; [|apply for_range_nonpos; lia].
    destruct (for_range_inv (fun _ s => s = s0) (height back)
                (fun row s => for_range (width back)
                                (fun col s => display_cell a front back row col s) s) s0)
      as (s & E & ->); [done|done| |exact E].
    intros row s Hrow ->.
    destruct (Z.le_gt_cases 0 (width back)) as [Hw|Hw]; [|exists s0; by rewrite for_range_nonpos by lia].
    apply (for_range_inv (fun _ s => s = s0)); [done|done|].
    intros col s Hcol ->. exists s0. split; [|done].
    unfold display_cell, glyph_ptr. rewrite Hpb, Hpf. cbn [res_bind].
    rewrite Heq by nia. done. }
  rewrite Hloop. cbn [res_bind]. unfold copy_frame. rewrite Hpf, Hpb.
  destruct (frame_buf_size back =? 0); eexists; reflexivity.
Qed.

(** After [display], [front] is a byte-for-byte copy of [back]. *)
Lemma display_copies a front back pf pb a' out :
  glyphs front = Some pf -> glyphs back = Some pb ->
  pf + frame_buf_size back <= pb \/ pb + frame_buf_size back <= pf ->
  display a front back = Ok (a', out) ->
  forall i, 0 <= i < frame_buf_size back -> rd a' (pf + i) = rd a' (pb + i).
Proof.
  intros Hpf Hpb Hdisj. unfold display.
  destruct (assert _); cbn [res_bind]; try discriminate.
  destruct (assert _); cbn [res_bind]; try discriminate.
  destruct (for_range _ _ _); cbn [res_bind]; try discriminate.
  unfold copy_frame. rewrite Hpf, Hpb.
  destruct (Z.eqb_spec (frame_buf_size back) 0); [intros _ i Hi; lia|].
  cbn [res_bind]. intros [= <- _] i Hi. rewrite !rd_memcpy. zbool.
  destruct (Z.leb_spec pf (pb + i)), (Z.ltb_spec (pb + i) (pf + frame_buf_size back)); try lia;
    cbn [andb]; f_equal; lia.
Qed.

(** ** Examples *)

(** Two 1 x 1 frames: [front] at 0 (zero bytes, as allocated), [back] at 8
    holding an ['h'] in black on light yellow; and a blank terminal. *)
Definition ex_front : Frame := mkFrame (Some 0) 1 1.
Definition ex_back : Frame := mkFrame (Some 8) 1 1.
Definition ex_arena (cp : Z) : Arena :=
  put_glyph (bump arena_init 16) 8 cp (color_code COLOR_BLACK) (color_code COLOR_LIGHT_YELLOW).
Definition ex_term : Term := mkTerm (fun _ _ => blank TDefault) 0 0 TDefault TDefault Ground.

Lemma ex_arena_wf cp : arena_wf (ex_arena cp).
Proof.
  unfold ex_arena. apply put_glyph_wf.
  - apply bump_wf; [exact arena_init_wf|lia|unfold MEM_CAPACITY; simpl; lia].
  - simpl. lia.
Qed.

Lemma ex_frame_wf cp : frame_wf (ex_arena cp) ex_front /\ frame_wf (ex_arena cp) ex_back.
Proof. unfold frame_wf, frame_buf_size, GLYPH_SIZE. simpl. lia. Qed.

Lemma escapes_meaning_witness :
  (exists e, table_at fg_escapes (color_code COLOR_LIGHT_YELLOW) = Ok e /\
     term_run ex_term e = with_colors ex_term (color_meaning COLOR_LIGHT_YELLOW) (t_bg ex_term)) /\
  (exists e, table_at bg_escapes (color_code COLOR_LIGHT_YELLOW) = Ok e /\
     term_run ex_term e = with_colors ex_term (t_fg ex_term) (color_meaning COLOR_LIGHT_YELLOW)).
Proof. apply escapes_meaning. reflexivity. Defined.

Lemma display_refines_witness :
  exists a' out, display (ex_arena 104) ex_front ex_back = Ok (a', out) /\
    shows (term_run ex_term out) (ex_arena 104) ex_back /\ shows (term_run ex_term out) a' ex_front /\
    t_ps (term_run ex_term out) = Ground /\ arena_wf a' /\ mem_used a' = mem_used (ex_arena 104) /\
    (forall z, z < 0 \/ 0 + frame_buf_size ex_back <= z -> rd a' z = rd (ex_arena 104) z).
Proof.
  destruct (ex_frame_wf 104) as [Hf Hb].
  apply (display_refines (ex_arena 104) ex_front ex_back 0 8 ex_term
           (ex_arena_wf 104) Hf Hb eq_refl eq_refl eq_refl eq_refl).
  - unfold frame_buf_size, GLYPH_SIZE. simpl. lia.
  - intros idx Hidx. simpl in Hidx. replace idx with 0 by lia.
    apply glyph_okb_ok. vm_compute. reflexivity.
  - reflexivity.
  - intros r c Hr Hc Heq. simpl in Hr, Hc. replace r with 0 in * by lia. replace c with 0 in * by lia.
    vm_compute in Heq. discriminate.
Defined.

Lemma display_idle_witness :
  exists a', display (bump arena_init 16) ex_front ex_back =
    Ok (a', ESC_HOME ++ ESC_RESET ++ set_term_cursor (width ex_back - 1) (height ex_back - 1)).
Proof.
  apply (display_idle (bump arena_init 16) ex_front ex_back 0 8 eq_refl eq_refl eq_refl eq_refl).
  intros idx Hidx. simpl in Hidx. replace idx with 0 by lia. vm_compute. reflexivity.
Defined.

(** ** Resizing *)

(** Shrinking a frame (or keeping its size) neither moves nor clears its
    block: the old glyph bytes stay, read with the new width. *)
Lemma frame_resize_shrink a f w h :
  frame_buf_size (mkFrame (glyphs f) w h) <= frame_buf_size f -> glyphs f <> None ->
  exists p, glyphs f = Some p /\ frame_resize a f w h = Ok (a, mkFrame (Some p) w h).
Proof.
  intros Hs Hn. destruct (glyphs f) as [p|] eqn:E; [|done].
  exists p. split; [done|]. unfold frame_resize. rewrite E.
  cbn [res_bind]. rewrite mem_realloc_zeroed_shrink by done. done.
Qed.

End Render.
