(* ===== verification/Editor.v ===== *)
(** * The editor (src/editor.cpp: [Editor], [editor_init], [editor_frame])

    The editor owns the text [Region] and two cursors.  [editor_init]
    allocates the [Editor] struct in the arena, opens ["./editor.cpp"]
    through the platform's storage interface and loads it with
    [ed_load_file_region]; [editor_frame] drains the event queue (no event
    has an effect yet), clears the [back] frame and paints the region into
    it line by line, highlighting the primary cursor and the mark.

    The [Editor] struct is a record here; its 56 bytes are allocated in the
    arena (so the layout of later blocks is the program's), but its fields
    are not read back from arena bytes.  [editor_init] is written against
    the platform's file table, the class [Storage] of Storage.v, and its
    lemmas against the contract [StorageSpec]; System.v instantiates it
    with the Linux adapter.

    Proved here: [editor_init] loads the file the platform can open and
    map, and leaves the editor empty otherwise; with the Linux adapter a
    read-only file is not loaded; the painting loop always returns and never trips the
    [ASSERT] of [ed_pf_put]; when every visible line is shorter than the
    frame, the frame shows the text's lines, one per row, with the cursor
    colours (a refinement of the 2-D layout of [split_lines]); after a
    line at least as long as the frame is wide, every row below the
    first stays cleared, whatever the rest of the text. *)

From Stdlib Require Import ZArith Lia List String.
From stdpp Require Import base list list_numbers.
From S2P Require Import Prelude Utf8 Input Arena Array Loader Storage Frame.
Import ListNotations.
Local Open Scope Z_scope.

Module Editor.
Import Codec Input Arena Array Loader Storage Frame.

(** ** Data *)

(** [struct Cursor { uint64_t line; uint64_t col; }]. *)
Record Cursor := mkCursor { line : Z; col : Z }.

(** [struct Editor { Region region; Cursor primary; Cursor mark; }]. *)
Record Editor := mkEditor { region : Array; primary : Cursor; mark : Cursor }.

(** [sizeof(Editor)]: a [Region] (three 8-byte fields) and two cursors. *)
Definition EDITOR_SIZE : Z := 56.

(** The struct as [alloc_zeroed] returns it. *)
Definition editor_zero : Editor := mkEditor array_zero (mkCursor 0 0) (mkCursor 0 0).

(** ** [editor_init] *)

(** The file [editor_init] opens. *)
Definition EDITOR_PATH : string := "./editor.cpp".

(** [void editor_init(Platform *platform)], written against the [fs]
    table of the platform (any [Storage]), with [fuel] the iterations
    given to the loader's loop: the arena, the editor and the
    file-system state after the call. *)
Definition editor_init {FS} `{Storage FS} (fuel : nat) (a : Arena) (fs : FS)
    : res (Arena * Editor * FS) :=
  let* r := mem_alloc_zeroed a EDITOR_SIZE in
  let e := editor_zero in
  let '(fs1, file) := fs_open fs EDITOR_PATH in
  if negb (fs_valid file) then Ok (fst r, e, fs1)
  else
    let* r2 := ed_load_file_region_fs fuel (fst r) (region e) fs1 file (fs_size fs1 file) 0 in
    Ok (fst r2, mkEditor (snd r2) (mkCursor 3 6) (mark e), fs_close fs1 file).

(** ** Painting *)

(** The painting loop's variables: the arena and [x], [y]. *)
Record Paint := mkPaint { p_arena : Arena; p_x : Z; p_y : Z }.

(** [at_primary], [at_mark] and the colours chosen from them. *)
Definition paint_colors (e : Editor) (x y : Z) : Color * Color :=
  let at_primary := (x =? col (primary e)) && (y =? line (primary e)) in
  let at_mark := (x =? col (mark e)) && (y =? line (mark e)) in
  (if at_primary then COLOR_BLACK else COLOR_DEFAULT,
   if at_primary then COLOR_LIGHT_YELLOW
   else if at_mark then COLOR_LIGHT_BLUE else COLOR_DEFAULT).

(** The branch on [cp] of the loop body, once [x < width]: a newline
    moves to the next row, any other codepoint is put at [(x, y)]. *)
Definition paint_char (f : Frame) (e : Editor) (cp : Z) (s : Paint) : res Paint :=
  if cp =? 10 then Ok (mkPaint (p_arena s) 0 (p_y s + 1))
  else
    let c := paint_colors e (p_x s) (p_y s) in
    let* a' := ed_pf_put (p_arena s) f (p_x s + 0) (p_y s + 0) cp (fst c) (snd c) in
    Ok (mkPaint a' (p_x s + 1) (p_y s)).

(** [e->region.data[i]]. *)
Definition read_cp (a : Arena) (r : Array) (i : Z) : res Z :=
  match data r with
  | None => Panic
  | Some d => Ok (load_u32 a (d + 4 * i))
  end.

(** The loop body for index [i]; [None] is the [break]. *)
Definition paint_body (f : Frame) (e : Editor) (i : Z) (s : Paint) : res (option Paint) :=
  if height f <=? p_y s then Ok None
  else if p_x s <? width f then
    let* cp := read_cp (p_arena s) (region e) i in
    let* s' := paint_char f e cp s in Ok (Some s')
  else Ok (Some s).

(** [for (size_t i = 0; i < e->region.count; ++i) ...], over the indices. *)
Fixpoint paint_loop (f : Frame) (e : Editor) (idxs : list Z) (s : Paint) : res Paint :=
  match idxs with
  | [] => Ok s
  | i :: idxs' =>
      let* o := paint_body f e i s in
      match o with
      | None => Ok s
      | Some s' => paint_loop f e idxs' s'
      end
  end.

(** [void editor_frame(void)]: the event loop (each event is taken and
    ignored), [ed_pf_clear], and the painting loop from [x = y = 0] (with
    [x_begin = y_begin = 0]).  [f] is [p->frame], that is [back]. *)
Definition editor_frame (fuel : nat) (a : Arena) (f : Frame) (e : Editor) (s : Input_state)
    : res (Arena * Input_state) :=
  let* r := drain_events fuel s in
  let* a1 := ed_pf_clear a f in
  let* ps := paint_loop f e (seqZ 0 (count (region e))) (mkPaint a1 0 0) in
  Ok (p_arena ps, fst r).

(** ** The layout the painting should produce *)

(** The lines of a text: split at every [\n]; the text has one more line
    than it has newlines. *)
Fixpoint split_lines (cps : list Z) : list (list Z) :=
  match cps with
  | [] => [[]]
  | c :: r =>
      if c =? 10 then [] :: split_lines r
      else match split_lines r with
           | l :: ls => (c :: l) :: ls
           | [] => [[c]]
           end
  end.

(** Line [k] of a text (empty beyond the last line). *)
Definition line_of (cps : list Z) (k : nat) : list Z := nth k (split_lines cps) [].

(** The character in column [col] of line [row], if there is one. *)
Definition layout_cell (cps : list Z) (row col : Z) : option Z :=
  if (0 <=? row) && (0 <=? col) then nth_error (line_of cps (Z.to_nat row)) (Z.to_nat col)
  else None.

(** Every line that reaches the frame (the first [h]) is shorter than
    [w]. *)
Definition lines_fit (w h : Z) (cps : list Z) : bool :=
  forallb (fun k => Z.of_nat (length (line_of cps k)) <? w) (seq 0 (Z.to_nat h)).

(** The cell [(row, col)] should hold once [cps] is painted from
    position [(x, y)]: the first line starts at column [x] of row [y],
    the following lines at column 0 of the following rows. *)
Definition layout_from (cps : list Z) (x y row col : Z) : option Z :=
  if row =? y then
    (if x <=? col then nth_error (line_of cps 0) (Z.to_nat (col - x)) else None)
  else if y <? row then nth_error (line_of cps (Z.to_nat (row - y))) (Z.to_nat col)
  else None.

(** The lines from row [y] on fit: the first from column [x]. *)
Definition fit_from (w h : Z) (cps : list Z) (x y : Z) : Prop :=
  forall k, Z.of_nat k < h - y ->
    (if (k =? 0)%nat then x else 0) + Z.of_nat (length (line_of cps k)) < w.

(** ** Lines *)

Lemma split_lines_nonempty cps : split_lines cps <> [].
Proof. destruct cps as [|c r]; simpl; [done|]. case_match; [done|]. by case_match. Qed.

Lemma line_of_nl r k : line_of (10 :: r) k = match k with O => [] | S k' => line_of r k' end.
Proof. by destruct k. Qed.

Lemma line_of_char c r k :
  c <> 10 -> line_of (c :: r) k = match k with O => c :: line_of r 0 | S _ => line_of r k end.
Proof.
  intros Hc. unfold line_of. simpl. rewrite (proj2 (Z.eqb_neq _ _) Hc).
  pose proof (split_lines_nonempty r). destruct (split_lines r); [done|]. by destruct k.
Qed.

Lemma line_of_nil k : line_of [] k = [].
Proof. by destruct k as [|[|k]]. Qed.

Lemma Z2Nat_pos n : 0 < n -> Z.to_nat n = S (Z.to_nat (n - 1)).
Proof. intros. rewrite <- Z2Nat.inj_succ by lia. f_equal. lia. Qed.

Lemma layout_from_nil x y row col : layout_from [] x y row col = None.
Proof.
  unfold layout_from. rewrite !line_of_nil.
  repeat case_match; try done; by destruct (Z.to_nat _).
Qed.

Lemma layout_from_nl r x y row col :
  0 <= col -> layout_from (10 :: r) x y row col = layout_from r 0 (y + 1) row col.
Proof.
  intros Hc. unfold layout_from. rewrite !line_of_nl.
  destruct (Z.eqb_spec row y) as [->|Hy].
  - zbool. by case_match; [destruct (Z.to_nat _)|].
  - destruct (Z.eqb_spec row (y + 1)) as [->|Hy1].
    + zbool. replace (y + 1 - y) with 1 by lia. simpl. by rewrite Z.sub_0_r.
    + destruct (Z.ltb_spec y row); zbool; [|done].
      rewrite Z2Nat_pos by lia. do 3 f_equal. lia.
Qed.

Lemma layout_from_char c r x y row col :
  c <> 10 -> 0 <= col ->
  layout_from (c :: r) x y row col =
    if (row =? y) && (col =? x) then Some c else layout_from r (x + 1) y row col.
Proof.
  intros Hc Hcol. unfold layout_from.
  destruct (Z.eqb_spec row y) as [->|Hy]; cbn [andb]; rewrite ?Z.eqb_refl.
  - rewrite line_of_char by done.
    destruct (Z.eqb_spec col x) as [->|Hx]; [by rewrite Z.sub_diag, Z.leb_refl|].
    destruct (Z.leb_spec x col), (Z.leb_spec (x + 1) col); try done; try lia.
    rewrite Z2Nat_pos by lia. simpl. do 2 f_equal. lia.
  - destruct (Z.ltb_spec y row); [|done].
    rewrite line_of_char by done. rewrite Z2Nat_pos by lia. done.
Qed.

Lemma layout_from_00 cps row col :
  0 <= row -> 0 <= col -> layout_from cps 0 0 row col = layout_cell cps row col.
Proof.
  intros Hr Hc. unfold layout_from, layout_cell. zbool.
  destruct (Z.eqb_spec row 0) as [->|]; [by rewrite Z.sub_0_r|].
  zbool. by rewrite Z.sub_0_r.
Qed.

Lemma fit_from_nl w h r x y : fit_from w h (10 :: r) x y -> fit_from w h r 0 (y + 1).
Proof.
  intros H k Hk. specialize (H (S k) ltac:(lia)). rewrite line_of_nl in H.
  destruct k; simpl in *; lia.
Qed.

Lemma fit_from_char w h c r x y :
  c <> 10 -> fit_from w h (c :: r) x y -> fit_from w h r (x + 1) y.
Proof.
  intros Hc H k Hk. specialize (H k Hk). rewrite line_of_char in H by done.
  destruct k; simpl in *; lia.
Qed.

(** A character of a line is a character of the text, not a newline. *)
Lemma line_of_elem cps k j c : nth_error (line_of cps k) j = Some c -> In c cps /\ c <> 10.
Proof.
  revert k j. induction cps as [|c0 r IH]; intros k j.
  - rewrite line_of_nil. by destruct j.
  - destruct (Z.eqb_spec c0 10) as [->|Hc0].
    + rewrite line_of_nl. destruct k; [by destruct j|]. intros H. apply IH in H. simpl. tauto.
    + rewrite line_of_char by done. destruct k.
      * destruct j as [|j]; simpl; [intros [= <-]; tauto|]. intros H. apply IH in H. tauto.
      * intros H. apply IH in H. simpl. tauto.
Qed.

Lemma layout_cell_elem cps row col c : layout_cell cps row col = Some c -> In c cps /\ c <> 10.
Proof. unfold layout_cell. case_match; [apply line_of_elem|done]. Qed.

Lemma lines_fit_from w h cps : lines_fit w h cps = true -> fit_from w h cps 0 0.
Proof.
  unfold lines_fit. rewrite forallb_forall. intros H k Hk.
  specialize (H k). rewrite in_seq, Z.ltb_lt in H. destruct (k =? 0)%nat; apply H; lia.
Qed.

(** ** Painting a list of codepoints *)

(** The painting loop once the region's codepoints are read: the same
    body, with [cp] taken from a list. *)
Fixpoint paint_cps (f : Frame) (e : Editor) (cps : list Z) (s : Paint) : res Paint :=
  match cps with
  | [] => Ok s
  | cp :: r =>
      if height f <=? p_y s then Ok s
      else if p_x s <? width f then let* s' := paint_char f e cp s in paint_cps f e r s'
      else paint_cps f e r s
  end.

(** Once [x] has reached the frame's width the painting is over: every
    later iteration either breaks or skips its codepoint, a newline
    included. *)
Lemma paint_cps_stuck f e cps s :
  width f <= p_x s -> paint_cps f e cps s = Ok s.
Proof.
  intros Hx. induction cps as [|cp r IH]; [done|]. cbn [paint_cps].
  destruct (height f <=? p_y s); [done|]. zbool. exact IH.
Qed.

Lemma paint_cps_app f e l r s :
  paint_cps f e (l ++ r) s = let* s' := paint_cps f e l s in paint_cps f e r s'.
Proof.
  revert s. induction l as [|cp l IH]; intros s; [done|]. cbn [app paint_cps].
  destruct (height f <=? p_y s) eqn:Hy.
  - cbn [res_bind]. destruct r as [|c r]; [done|]. cbn [paint_cps]. by rewrite Hy.
  - destruct (p_x s <? width f); [|apply IH].
    destruct (paint_char f e cp s); cbn [res_bind]; [apply IH|done|done].
Qed.

(** The glyph the painting writes for [cp] at [(col, row)]. *)
Definition painted (e : Editor) (cp col row : Z) : Z * Z * Z :=
  (cp, color_code (fst (paint_colors e col row)), color_code (snd (paint_colors e col row))).

Section Paint.
Context (f : Frame) (e : Editor) (p : Z) (a0 : Arena).
Context (Hp : glyphs f = Some p) (Hf : frame_wf a0 f).
Let w := width f.
Let h := height f.

(** The painting state: the arena is well formed, of the same size as
    [a0], agrees with [a0] outside the frame's block, and [x], [y] are
    not negative. *)
Definition paint_ok (s : Paint) : Prop :=
  arena_wf (p_arena s) /\ mem_used (p_arena s) = mem_used a0 /\
  (forall z, z < p \/ p + frame_buf_size f <= z -> rd (p_arena s) z = rd a0 z) /\
  0 <= p_x s /\ 0 <= p_y s.

Lemma paint_ok_frame_wf s : paint_ok s -> frame_wf (p_arena s) f.
Proof.
  intros (_ & Hu & _). destruct Hf as (? & ? & Hg). unfold frame_wf. rewrite Hu. done.
Qed.

(** A codepoint other than [\n] at a position inside the frame is put
    there; nothing else of the frame changes. *)
Lemma paint_char_put cp s :
  paint_ok s -> p_x s < w -> p_y s < h -> cp <> 10 ->
  exists a', paint_char f e cp s = Ok (mkPaint a' (p_x s + 1) (p_y s)) /\
    a' = put_glyph (p_arena s) (p + (p_y s * w + p_x s) * GLYPH_SIZE) cp
           (color_code (fst (paint_colors e (p_x s) (p_y s))))
           (color_code (snd (paint_colors e (p_x s) (p_y s)))) /\
    paint_ok (mkPaint a' (p_x s + 1) (p_y s)).
Proof.
  intros Hs Hx Hy Hcp. pose proof (paint_ok_frame_wf s Hs) as (Hw & Hh & Hg).
  rewrite Hp in Hg. destruct Hs as (Hwf & Hu & Hout & Hx0 & Hy0).
  unfold paint_char, ed_pf_put, glyph_ptr. rewrite (proj2 (Z.eqb_neq _ _) Hcp), !Z.add_0_r, Hp.
  fold w h. zbool. cbn [res_bind]. eexists. split; [reflexivity|]. split; [done|].
  assert (Hin : p + (p_y s * w + p_x s) * GLYPH_SIZE + 8 <= mem_used (p_arena s)).
  { unfold frame_buf_size, GLYPH_SIZE in *. fold w h in Hg. nia. }
  split; [apply put_glyph_wf; [done|lia]|]. cbn [p_arena p_x p_y].
  split; [done|]. split; [|lia].
  intros z Hz. rewrite put_glyph_other; [by apply Hout|].
  unfold frame_buf_size, GLYPH_SIZE in *. fold w h in Hz. nia.
Qed.

(** The layout lemma: painting [cps] from [(x, y)], when the lines from
    row [y] fit, returns, and every cell of the frame holds what
    [layout_from] says, or what it held before where the text puts
    nothing. *)
Lemma paint_cps_layout cps s :
  Forall (fun c => 0 <= c < 2 ^ 32) cps -> paint_ok s -> fit_from w h cps (p_x s) (p_y s) ->
  exists s', paint_cps f e cps s = Ok s' /\ paint_ok s' /\
    forall row col, 0 <= row < h -> 0 <= col < w ->
      frame_glyph (p_arena s') f (row * w + col) =
        match layout_from cps (p_x s) (p_y s) row col with
        | Some cp => painted e cp col row
        | None => frame_glyph (p_arena s) f (row * w + col)
        end.
Proof.
  revert s. induction cps as [|cp r IH]; intros s Hcps Hs Hfit.
  - exists s. split; [done|]. split; [done|]. intros. by rewrite layout_from_nil.
  - inversion Hcps as [|? ? Hcp Hr]; subst. cbn [paint_cps]. fold w h.
    destruct (Z.leb_spec h (p_y s)) as [Hyh|Hyh].
    { exists s. split; [done|]. split; [done|]. intros row col Hrow Hcol.
      unfold layout_from. zbool. done. }
    assert (Hxw : p_x s < w) by (specialize (Hfit 0%nat ltac:(lia)); simpl in Hfit; lia).
    zbool. destruct (Z.eqb_spec cp 10) as [->|Hnl].
    + unfold paint_char at 1. rewrite Z.eqb_refl. cbn [res_bind].
      destruct (IH (mkPaint (p_arena s) 0 (p_y s + 1))) as (s' & E & Hs' & Hl);
        [done|destruct Hs as (? & ? & ? & ? & ?); do 3 (split; [done|]); simpl; lia
        |by apply fit_from_nl in Hfit|].
      exists s'. split; [done|]. split; [done|]. intros row col Hrow Hcol.
      rewrite Hl, layout_from_nl by (done || lia). done.
    + destruct (paint_char_put cp s Hs Hxw Hyh Hnl) as (a' & -> & Ha' & Hs1).
      cbn [res_bind].
      destruct (IH _ Hr Hs1) as (s' & E & Hs' & Hl); [by apply fit_from_char in Hfit|].
      exists s'. split; [done|]. split; [done|]. intros row col Hrow Hcol.
      rewrite Hl, layout_from_char by (done || lia). cbn [p_x p_y p_arena].
      destruct (Z.eqb_spec row (p_y s)) as [->|Hy]; destruct (Z.eqb_spec col (p_x s)) as [->|Hx];
        cbn [andb].
      1: { unfold layout_from. rewrite Z.eqb_refl. zbool. rewrite Ha'.
        unfold frame_glyph. rewrite Hp. apply glyph_at_put_glyph; [done| |];
          unfold COLOR_COUNT in *; [pose proof (color_code_byte (fst (paint_colors e (p_x s) (p_y s))))
                                   |pose proof (color_code_byte (snd (paint_colors e (p_x s) (p_y s))))];
          unfold COLOR_COUNT in *; lia. }
      all: case_match; [done|]; rewrite Ha'; apply frame_glyph_put_other; [done|].
      all: destruct Hs as (_ & _ & _ & Hx0 & _); intros E'; apply idx_inj in E'; lia.
Qed.

(** The loop of [editor_frame], which reads [e->region.data[i]] from the
    arena at every iteration, paints what [paint_cps] paints from the
    codepoints read up front: the painting never writes the region. *)
Lemma paint_loop_cps idxs s d :
  data (region e) = Some d ->
  (forall i, In i idxs -> forall z, d + 4 * i <= z < d + 4 * i + 4 ->
     z < p \/ p + frame_buf_size f <= z) ->
  paint_ok s ->
  paint_loop f e idxs s = paint_cps f e (map (fun i => load_u32 a0 (d + 4 * i)) idxs) s.
Proof.
  intros Hd. revert s. induction idxs as [|i idxs IH]; intros s Hrd Hs; [done|].
  cbn [paint_loop paint_cps map]. unfold paint_body. fold w h.
  destruct (Z.leb_spec h (p_y s)); [done|]. cbn [res_bind].
  destruct (Z.ltb_spec (p_x s) w) as [Hx|Hx].
  - unfold read_cp. rewrite Hd. cbn [res_bind].
    assert (Hcp : load_u32 (p_arena s) (d + 4 * i) = load_u32 a0 (d + 4 * i)).
    { destruct Hs as (_ & _ & Hout & _). unfold load_u32.
      rewrite !Hout; [done| | | |]; apply (Hrd i (or_introl eq_refl)); lia. }
    rewrite Hcp. set (cp := load_u32 a0 (d + 4 * i)).
    assert (Hrd' : forall j, In j idxs -> forall z, d + 4 * j <= z < d + 4 * j + 4 ->
                     z < p \/ p + frame_buf_size f <= z) by (intros j Hj z Hz; apply (Hrd j); [right|]; done).
    destruct (Z.eqb_spec cp 10) as [E|E].
    + unfold paint_char. rewrite E, Z.eqb_refl. cbn [res_bind]. apply IH; [done|].
      destruct Hs as (? & ? & ? & ? & ?). do 3 (split; [done|]). simpl. lia.
    + destruct (paint_char_put cp s Hs Hx ltac:(lia) E) as (a' & -> & _ & Hs').
      cbn [res_bind]. by apply IH.
  - apply IH; [|done]. intros j Hj z Hz. apply (Hrd j); [right|]; done.
Qed.

(** A run of codepoints without a newline, painted from a row inside
    the frame, stays on that row: it fills it up to the width and writes
    no byte outside the row. *)
Lemma paint_row cps s :
  paint_ok s -> ~ In 10 cps -> 0 <= p_y s < h -> p_x s <= w ->
  exists s', paint_cps f e cps s = Ok s' /\ paint_ok s' /\ p_y s' = p_y s /\
    p_x s' = Z.min w (p_x s + Z.of_nat (length cps)) /\
    forall z, z < p + p_y s * w * GLYPH_SIZE \/ p + (p_y s + 1) * w * GLYPH_SIZE <= z ->
      rd (p_arena s') z = rd (p_arena s) z.
Proof.
  revert s. induction cps as [|cp r IH]; intros s Hs Hnl Hy Hx.
  - exists s. split_and!; try done. simpl. lia.
  - cbn [paint_cps]. fold w h. destruct (Z.leb_spec h (p_y s)); [lia|].
    destruct (Z.ltb_spec (p_x s) w) as [Hxw|Hxw].
    + assert (Hcp : cp <> 10) by (intros ->; apply Hnl; left; done).
      destruct (paint_char_put cp s Hs Hxw ltac:(lia) Hcp) as (a' & -> & Ha' & Hs1).
      cbn [res_bind].
      destruct (IH _ Hs1) as (s' & E & Hs' & Hy' & Hx' & Hout);
        [intros Hin; apply Hnl; right; done|simpl; lia|simpl; lia|].
      exists s'. split_and!; try done.
      * rewrite Hx'. cbn [p_x length]. lia.
      * intros z Hz. rewrite Hout by (cbn [p_y]; lia). cbn [p_arena]. rewrite Ha'.
        destruct Hs as (_ & _ & _ & Hx0 & _).
        apply put_glyph_other. unfold GLYPH_SIZE in *. nia.
    + exists s. rewrite paint_cps_stuck by lia. split_and!; try done. cbn [length]. lia.
Qed.

End Paint.

(** [editor_frame] under the hypotheses of the layout theorem: the events
    are drained, [back] is cleared, and the painting loop paints the
    region's codepoints as [paint_cps] does. *)
Lemma editor_frame_cps fuel a f p e s d :
  arena_wf a -> frame_wf a f -> glyphs f = Some p ->
  array_wf 4 a (region e) -> data (region e) = Some d ->
  d + capacity (region e) * 4 <= p \/ p + frame_buf_size f <= d ->
  events_wf s -> (Z.to_nat (ev_count s) < fuel)%nat ->
  exists a1 s1, arena_wf a1 /\ frame_wf a1 f /\ mem_used a1 = mem_used a /\
    (forall idx, 0 <= idx < width f * height f ->
       frame_glyph a1 f idx = (32, glyph_fg a (p + idx * GLYPH_SIZE), 0)) /\
    (forall z, z < p \/ p + frame_buf_size f <= z -> rd a1 z = rd a z) /\
    ev_count s1 = 0 /\ events_wf s1 /\
    editor_frame fuel a f e s =
      (let* ps := paint_cps f e (elems a (region e)) (mkPaint a1 0 0) in Ok (p_arena ps, s1)).
Proof.
  intros Hwf Hfw Hp Haw Hd Hdisj Hev Hfuel.
  unfold editor_frame. destruct (drain_events_queue fuel s Hev Hfuel) as (s1 & Hd1 & Hc).
  pose proof (drain_events_wf fuel s _ Hev Hd1) as Hw1. rewrite Hd1.
  cbn [res_bind fst] in *.
  destruct (ed_pf_clear_ok a f p Hwf Hfw Hp) as (a1 & -> & Hwf1 & Hu1 & Hgl & Hout1).
  cbn [res_bind].
  assert (Hfw1 : frame_wf a1 f) by (destruct Hfw as (? & ? & ?); unfold frame_wf; by rewrite Hu1).
  assert (Hok : paint_ok f p a1 (mkPaint a1 0 0)) by (split_and!; try done; simpl; lia).
  destruct Haw as [Hc0 Hblk]. rewrite Hd in Hblk.
  rewrite (paint_loop_cps f e p a1 Hp Hfw1 _ _ d Hd); [|intros i Hi z Hz|done].
  2:{ apply list_elem_of_In, elem_of_seqZ in Hi. lia. }
  assert (Htext : map (fun i => load_u32 a1 (d + 4 * i)) (seqZ 0 (count (region e))) =
                  elems a (region e)).
  { unfold elems. rewrite Hd. apply map_seqZ_ext. intros i Hi. unfold load_u32.
    rewrite !Hout1 by lia. done. }
  rewrite Htext. exists a1, s1. split_and!; done.
Qed.

Lemma editor_frame_spec fuel a f p e s d :
  arena_wf a -> frame_wf a f -> glyphs f = Some p ->
  array_wf 4 a (region e) -> data (region e) = Some d ->
  d + capacity (region e) * 4 <= p \/ p + frame_buf_size f <= d ->
  u32_list (elems a (region e)) ->
  lines_fit (width f) (height f) (elems a (region e)) = true ->
  events_wf s -> (Z.to_nat (ev_count s) < fuel)%nat ->
  exists a' s', editor_frame fuel a f e s = Ok (a', s') /\ ev_count s' = 0 /\ events_wf s' /\
    arena_wf a' /\ mem_used a' = mem_used a /\
    (forall z, z < p \/ p + frame_buf_size f <= z -> rd a' z = rd a z) /\
    forall row col, 0 <= row < height f -> 0 <= col < width f ->
      frame_glyph a' f (row * width f + col) =
        match layout_cell (elems a (region e)) row col with
        | Some cp => painted e cp col row
        | None => (32, glyph_fg a (p + (row * width f + col) * GLYPH_SIZE), 0)
        end.
Proof.
  intros Hwf Hfw Hp Haw Hd Hdisj Hu32 Hfit Hev Hfuel.
  destruct (editor_frame_cps fuel a f p e s d Hwf Hfw Hp Haw Hd Hdisj Hev Hfuel)
    as (a1 & s1 & Hwf1 & Hfw1 & Hu1 & Hgl & Hout1 & Hc & Hw1 & ->).
  assert (Hok : paint_ok f p a1 (mkPaint a1 0 0)) by (split_and!; try done; simpl; lia).
  destruct (paint_cps_layout f e p a1 Hp Hfw1 (elems a (region e)) (mkPaint a1 0 0) Hu32 Hok)
    as (s' & -> & (Hwf' & Hu' & Hout' & _) & Hl); [by apply lines_fit_from|].
  cbn [res_bind]. eexists _, _. split; [reflexivity|]. split_and!; try done; [lia| |].
  - intros z Hz. rewrite Hout', Hout1 by done. done.
  - intros row col Hrow Hcol. rewrite Hl, layout_from_00 by lia. case_match; [done|].
    apply Hgl. nia.
Qed.

(** C6: [editor_frame] on a region loaded in the arena, when every line
    that reaches the frame is shorter than its width: it returns, the event
    queue is empty, nothing outside [back] changes, and [back] shows the
    text's lines, one per row from the top, with the cursor colours, and a
    cleared glyph (a space on the default background, the old foreground)
    wherever a line has no character. *)
Theorem editor_frame_layout fuel a f p e s d :
  arena_wf a -> frame_wf a f -> glyphs f = Some p ->
  array_wf 4 a (region e) -> data (region e) = Some d ->
  d + capacity (region e) * 4 <= p \/ p + frame_buf_size f <= d ->
  u32_list (elems a (region e)) ->
  lines_fit (width f) (height f) (elems a (region e)) = true ->
  events_wf s -> (Z.to_nat (ev_count s) < fuel)%nat ->
  exists a' s', editor_frame fuel a f e s = Ok (a', s') /\ ev_count s' = 0 /\ events_wf s' /\
    arena_wf a' /\ mem_used a' = mem_used a /\
    (forall z, z < p \/ p + frame_buf_size f <= z -> rd a' z = rd a z) /\
    forall row col, 0 <= row < height f -> 0 <= col < width f ->
      frame_glyph a' f (row * width f + col) =
        match layout_cell (elems a (region e)) row col with
        | Some cp => painted e cp col row
        | None => (32, glyph_fg a (p + (row * width f + col) * GLYPH_SIZE), 0)
        end.
Proof. eapply editor_frame_spec; eassumption. Qed.

(** ** [editor_init] against the storage contract *)

Section Init.
Context {FS} `{StorageSpec FS} (fuel : nat) (a : Arena) (fs : FS) (Hok : fs_ok fs).

(** A file the platform can open and map is loaded into the region. *)
Lemma editor_init_loads src :
  fs_file fs EDITOR_PATH = Some src -> src <> [] ->
  exists fs', editor_init fuel a fs =
    let* r := mem_alloc_zeroed a EDITOR_SIZE in
    let* r2 := ed_load_file_region fuel (fst r) array_zero src (Z.of_nat (length src)) in
    Ok (fst r2, mkEditor (snd r2) (mkCursor 3 6) (mkCursor 0 0), fs').
Proof.
  intros Hf Hne. pose proof (fs_open_valid fs EDITOR_PATH Hok) as Hv. rewrite Hf in Hv.
  unfold editor_init. destruct (fs_open fs EDITOR_PATH) as [fs1 file] eqn:Eo.
  exists (fs_close fs1 file). destruct (mem_alloc_zeroed a EDITOR_SIZE) as [r| |]; cbn [res_bind]; try done.
  cbn [snd] in Hv. rewrite Hv. cbn [negb].
  pose proof (ed_load_file_region_fs_open fuel (fst r) array_zero fs EDITOR_PATH src Hok Hf Hne) as L.
  rewrite Eo in L. change (region editor_zero) with array_zero. by rewrite L.
Qed.

(** A file the platform cannot open leaves the editor as allocated. *)
Lemma editor_init_no_file :
  fs_file fs EDITOR_PATH = None ->
  exists fs', editor_init fuel a fs =
    let* r := mem_alloc_zeroed a EDITOR_SIZE in Ok (fst r, editor_zero, fs').
Proof.
  intros Hf. pose proof (fs_open_valid fs EDITOR_PATH Hok) as Hv. rewrite Hf in Hv.
  unfold editor_init. destruct (fs_open fs EDITOR_PATH) as [fs1 file] eqn:Eo.
  exists fs1. destruct (mem_alloc_zeroed a EDITOR_SIZE) as [r| |]; cbn [res_bind]; try done.
  cbn [snd] in Hv. by rewrite Hv.
Qed.

End Init.

(** A file system of the Linux adapter holding only ["./editor.cpp"],
    with the bytes [bs], writable or not. *)
Definition ex_fs (bs : list Z) (writable : bool) : PosixFS :=
  mkFS [(EDITOR_PATH, mkFile bs writable)] [] 3.

(** C14: a file the process may read but not write is not shown: the
    Linux adapter opens ["./editor.cpp"] with [O_RDWR], the open fails,
    and [editor_init] returns the editor as allocated, with an empty
    region, whatever the file holds. *)
Theorem editor_init_readonly fuel a fs f :
  posix_wf fs -> lookup_file fs EDITOR_PATH = Some f -> f_writable f = false ->
  arena_wf a -> mem_used a + EDITOR_SIZE <= MEM_CAPACITY ->
  exists fs', editor_init fuel a fs = Ok (bump a EDITOR_SIZE, editor_zero, fs').
Proof.
  intros Hwf Hl Hw Ha Hc.
  destruct (@editor_init_no_file PosixFS posix_storage posix_storage_spec fuel a fs Hwf) as [fs' E].
  { cbn [fs_file posix_storage_spec]. unfold posix_file. by rewrite Hl, Hw. }
  exists fs'. rewrite E, mem_alloc_zeroed_ok by (done || (unfold EDITOR_SIZE; lia)). done.
Qed.

Lemma editor_init_readonly_witness :
  exists fs', editor_init 10 arena_init (ex_fs [97; 98] false) =
    Ok (bump arena_init EDITOR_SIZE, editor_zero, fs').
Proof.
  apply (editor_init_readonly 10 arena_init (ex_fs [97; 98] false) (mkFile [97; 98] false)).
  - unfold posix_wf. simpl. lia.
  - reflexivity.
  - reflexivity.
  - exact arena_init_wf.
  - unfold EDITOR_SIZE, MEM_CAPACITY. simpl. lia.
Defined.


Lemma line_of_after l rest k : ~ In 10 l -> line_of (l ++ 10 :: rest) (S k) = line_of rest k.
Proof.
  intros Hl. induction l as [|c l IH]; [done|]. cbn [app].
  rewrite line_of_char by (intros ->; apply Hl; left; done). apply IH. intros H; apply Hl; right; done.
Qed.

(** C13: a line at least as long as the frame is wide hides every line
    after it: once [x] reaches the width, the [x < width] guard skips the
    newline too, so [y] never advances.  For a region whose text is a
    newline-free line [l] of [width] characters or more, a newline and
    any [rest], [editor_frame] returns and every row of [back] below the
    first holds only cleared glyphs, although row 1 of the text's layout
    is the first line of [rest]. *)
Theorem editor_frame_wide_line fuel a f p e s d l rest :
  arena_wf a -> frame_wf a f -> glyphs f = Some p ->
  array_wf 4 a (region e) -> data (region e) = Some d ->
  d + capacity (region e) * 4 <= p \/ p + frame_buf_size f <= d ->
  events_wf s -> (Z.to_nat (ev_count s) < fuel)%nat -> 1 < height f ->
  elems a (region e) = l ++ 10 :: rest -> ~ In 10 l -> width f <= Z.of_nat (length l) ->
  exists a' s', editor_frame fuel a f e s = Ok (a', s') /\
    (forall col, layout_cell (elems a (region e)) 1 col = layout_cell rest 0 col) /\
    forall row col, 1 <= row < height f -> 0 <= col < width f ->
      frame_glyph a' f (row * width f + col) =
        (32, glyph_fg a (p + (row * width f + col) * GLYPH_SIZE), 0).
Proof.
  intros Hwf Hfw Hp Haw Hd Hdisj Hev Hfuel Hh Hel Hl Hlen.
  destruct (editor_frame_cps fuel a f p e s d Hwf Hfw Hp Haw Hd Hdisj Hev Hfuel)
    as (a1 & s1 & Hwf1 & Hfw1 & Hu1 & Hgl & Hout1 & Hc & Hw1 & ->).
  assert (Hok : paint_ok f p a1 (mkPaint a1 0 0)) by (split_and!; try done; simpl; lia).
  pose proof Hfw as (Hw0 & _).
  destruct (paint_row f e p a1 Hp Hfw1 l (mkPaint a1 0 0) Hok Hl ltac:(simpl; lia) ltac:(simpl; lia))
    as (s' & E & _ & Hy & Hx & Hout).
  rewrite Hel, paint_cps_app, E. cbn [res_bind].
  rewrite paint_cps_stuck by (rewrite Hx; cbn [p_x]; lia). cbn [res_bind].
  eexists _, _. split; [reflexivity|]. split.
  - intros col. unfold layout_cell. change (Z.to_nat 1) with 1%nat.
    rewrite line_of_after by done. done.
  - intros row col Hr Hcol. rewrite <- Hgl by nia. unfold frame_glyph. rewrite Hp.
    apply glyph_at_ext. intros z Hz. apply Hout. cbn [p_y p_arena]. unfold GLYPH_SIZE in *. nia.
Qed.

(** Witness of the layout theorem: the region ["ab"] at address 0 (two
    [uint32_t]), a 3 x 1 frame at 8, the primary cursor at [(0, 0)]. *)
Definition ex_arena : Arena := store_u32 (store_u32 (bump arena_init 32) 0 97) 4 98.
Definition ex_editor : Editor := mkEditor (mkArray (Some 0) 2 2) (mkCursor 0 0) (mkCursor 5 5).
Definition ex_frame : Frame := mkFrame (Some 8) 3 1.
Definition ex_input : Input_state := mkInput (repeat event_zero 4) 0 event_zero false.

Lemma editor_frame_layout_witness :
  exists a' s', editor_frame 1 ex_arena ex_frame ex_editor ex_input = Ok (a', s') /\
    ev_count s' = 0 /\ events_wf s' /\ arena_wf a' /\ mem_used a' = mem_used ex_arena /\
    (forall z, z < 8 \/ 8 + frame_buf_size ex_frame <= z -> rd a' z = rd ex_arena z) /\
    forall row col, 0 <= row < height ex_frame -> 0 <= col < width ex_frame ->
      frame_glyph a' ex_frame (row * width ex_frame + col) =
        match layout_cell (elems ex_arena (region ex_editor)) row col with
        | Some cp => painted ex_editor cp col row
        | None => (32, glyph_fg ex_arena (8 + (row * width ex_frame + col) * GLYPH_SIZE), 0)
        end.
Proof.
  apply (editor_frame_layout 1 ex_arena ex_frame 8 ex_editor ex_input 0).
  - unfold ex_arena. apply store_u32_wf; [apply store_u32_wf|]; simpl; try lia.
    apply bump_wf; [exact arena_init_wf|lia|unfold MEM_CAPACITY; simpl; lia].
  - unfold frame_wf, frame_buf_size, GLYPH_SIZE. simpl. lia.
  - reflexivity.
  - unfold array_wf. simpl. lia.
  - reflexivity.
  - simpl. lia.
  - assert (E : elems ex_arena (region ex_editor) = [97; 98]) by (vm_compute; reflexivity).
    rewrite E. unfold u32_list. repeat constructor; lia.
  - vm_compute. reflexivity.
  - split; [reflexivity|]. vm_compute. split; congruence.
  - vm_compute. lia.
Defined.

(** Witness of the wide-line theorem: the text ["ab\ncd"] (five
    [uint32_t] at 0) in a 2 x 2 frame at 24. *)
Definition wl_arena : Arena :=
  store_u32 (store_u32 (store_u32 (store_u32 (store_u32 (bump arena_init 56) 0 97) 4 98) 8 10) 12 99) 16 100.
Definition wl_editor : Editor := mkEditor (mkArray (Some 0) 5 5) (mkCursor 0 0) (mkCursor 9 9).
Definition wl_frame : Frame := mkFrame (Some 24) 2 2.

Lemma editor_frame_wide_line_witness :
  exists a' s', editor_frame 1 wl_arena wl_frame wl_editor ex_input = Ok (a', s') /\
    (forall col, layout_cell (elems wl_arena (region wl_editor)) 1 col = layout_cell [99; 100] 0 col) /\
    forall row col, 1 <= row < height wl_frame -> 0 <= col < width wl_frame ->
      frame_glyph a' wl_frame (row * width wl_frame + col) =
        (32, glyph_fg wl_arena (24 + (row * width wl_frame + col) * GLYPH_SIZE), 0).
Proof.
  apply (editor_frame_wide_line 1 wl_arena wl_frame 24 wl_editor ex_input 0 [97; 98] [99; 100]).
  - unfold wl_arena. repeat (apply store_u32_wf; [|simpl; lia]).
    apply bump_wf; [exact arena_init_wf|lia|unfold MEM_CAPACITY; simpl; lia].
  - unfold frame_wf, frame_buf_size, GLYPH_SIZE. simpl. lia.
  - reflexivity.
  - unfold array_wf. simpl. lia.
  - reflexivity.
  - simpl. lia.
  - split; [reflexivity|]. vm_compute. split; congruence.
  - vm_compute. lia.
  - simpl. lia.
  - vm_compute. reflexivity.
  - simpl. lia.
  - simpl. lia.
Defined.

End Editor.
