(* ===== verification/System.v ===== *)
(** * The program: start-up and the main loop (src/red_linux.cpp: [main])

    [main] initialises the editor, switches the terminal to the alternate
    screen, sizes both frames to the window, and then loops until
    [should_close]: [editor_frame] paints [back], [display] sends the
    difference to the terminal, the event count is reset, and one [read]
    of at most 16 bytes is decoded into events.

    The state of the whole program is [Sys]: the arena (which holds the
    [Editor] struct, the text region and both frames), the editor's
    fields, the two frames, the platform's event state and the terminal.
    A [read] is a [Chunk] the environment provides.  The terminal reads
    the bytes [display] writes as soon as they are written (Stdio.v shows
    that the program's line-buffered [stdout] holds them back).  The terminal-mode
    calls ([check_if_term], [term_setup], [signal_setup]) are assumed to
    succeed, and a resize signal is not delivered (see Render.v for what
    one does to the invariant).

    Proved here: the invariant [SysInv] of the loop (a Record of the
    facts an iteration needs: where the frames and the region are, that
    they are disjoint and well formed, that the text fits the window,
    that the terminal shows [front]), its establishment by the start-up
    ([main_start_spec]) and its preservation by every iteration
    ([main_iter_spec]; rule induction on [reachable]).  On top of it:
    [main_refines], the program's correctness theorem (after
    [editor_frame] and [display] of any reachable state, and when the loop
    ends, the terminal shows the loaded text, one line per row, with the
    cursor colours); [main_loop_quits], that a read of ['q'] ends the
    loop; and [frame_glyphs_typed], that the painted frame holds printable
    codepoints and [Color] values only. *)

From Stdlib Require Import ZArith Lia List.
From stdpp Require Import base list list_numbers strings.
From S2P Require Import Prelude Utf8 Input Arena Array Loader Storage Terminal Frame Render Editor.
Import ListNotations.
Local Open Scope Z_scope.

Module System.
Import Codec Input Arena Array Loader Storage Terminal Frame Render Editor.

(** ** State *)

(** The program's state between two statements of [main]'s loop. *)
Record Sys := mkSys {
  sys_arena : Arena;
  sys_ed : Editor;
  sys_front : Frame;
  sys_back : Frame;
  sys_in : Input_state;
  sys_term : Term }.

(** What one [read(STDIN_FILENO, input, sizeof(input))] leaves: whether
    [errno] is set, the value returned and the 16 bytes of [input]. *)
Record Chunk := mkChunk { ck_err : bool; ck_bytes : Z; ck_buf : list Z }.

(** [static Platform pf = pf_const_init();]: no event, not closing. *)
Definition input_init : Input_state := mkInput (repeat event_zero 4) 0 event_zero false.

(** [ESC_ALT_ON], [ESC_CURSOR_OFF]. *)
Definition ESC_ALT_ON : list Z := 27 :: bytes "[?1049h"%string.
Definition ESC_CURSOR_OFF : list Z := 27 :: bytes "[25l"%string.

(** ** [main] *)

(** The start-up of [main] up to its loop: [editor_init], the escape
    sequences, and [frame_resize_all_to_fit_term] for a window of [w]
    columns and [h] rows, the file system [fs] and the terminal starting
    as [t0]; [main_screen] is the part after the terminal checks.  [pf]'s [fs] table is the Linux adapter; nothing after
    [editor_init] calls it, so the file system's state is not kept. *)
Definition main_screen (r : Arena * Editor * PosixFS) (w h : Z) (t0 : Term) : res Sys :=
  let* r2 := frame_resize_all (fst (fst r)) frame_zero frame_zero w h in
  let out := ESC_ALT_ON ++ ESC_CURSOR_OFF ++ snd r2 in
  Ok (mkSys (fst (fst (fst r2))) (snd (fst r)) (snd (fst (fst r2))) (snd (fst r2)) input_init
            (term_run t0 out)).

Definition main_start (fuel : nat) (fs : PosixFS) (w h : Z) (t0 : Term) : res Sys :=
  let* r := editor_init fuel arena_init fs in
  main_screen r w h t0.

(** [pf.events.count = 0;] *)
Definition reset_events (s : Input_state) : Input_state :=
  mkInput (ev_slots s) 0 (event_null s) (should_close s).

(** [editor_frame(); display(); pf.events.count = 0;] *)
Definition frame_and_display (fuel : nat) (st : Sys) : res Sys :=
  let* r1 := editor_frame fuel (sys_arena st) (sys_back st) (sys_ed st) (sys_in st) in
  let* r2 := display (fst r1) (sys_front st) (sys_back st) in
  Ok (mkSys (fst r2) (sys_ed st) (sys_front st) (sys_back st) (reset_events (snd r1))
            (term_run (sys_term st) (snd r2))).

(** One iteration of [while (!pf.should_close)], with the chunk [read]
    returns. *)
Definition main_iter (fuel : nat) (st : Sys) (c : Chunk) : res Sys :=
  let* st1 := frame_and_display fuel st in
  let* s2 := handle_input fuel (sys_in st1) (ck_err c) (ck_bytes c) (ck_buf c) in
  Ok (mkSys (sys_arena st1) (sys_ed st1) (sys_front st1) (sys_back st1) s2 (sys_term st1)).

(** The loop over the chunks of successive reads; it runs out of fuel if
    the reads run out before [should_close] is set. *)
Fixpoint main_loop (fuel : nat) (st : Sys) (cs : list Chunk) : res Sys :=
  if should_close (sys_in st) then Ok st
  else match cs with
       | [] => OutOfFuel
       | c :: cs' => let* st' := main_iter fuel st c in main_loop fuel st' cs'
       end.

(** ** The invariant of the loop *)

(** The text can be shown: codepoints of 32 bits, every line that reaches
    the frame shorter than its width, and no control character but the
    line breaks. *)
Definition text_okb (w h : Z) (text : list Z) : bool :=
  forallb (fun c => (0 <=? c) && (c <? 2 ^ 32) && ((c =? 10) || printable c)) text &&
  lines_fit w h text.

(** The state before [editor_frame] in every iteration, with the
    frames' and the region's blocks at [pf], [pb] and [d]. *)
Record SysInv (st : Sys) (pf pb d : Z) : Prop := {
  inv_front : glyphs (sys_front st) = Some pf;
  inv_back : glyphs (sys_back st) = Some pb;
  inv_data : data (region (sys_ed st)) = Some d;
  inv_arena : arena_wf (sys_arena st);
  inv_front_wf : frame_wf (sys_arena st) (sys_front st);
  inv_back_wf : frame_wf (sys_arena st) (sys_back st);
  inv_width : width (sys_front st) = width (sys_back st);
  inv_height : height (sys_front st) = height (sys_back st);
  inv_disjoint : pf + frame_buf_size (sys_back st) <= pb \/ pb + frame_buf_size (sys_back st) <= pf;
  inv_region_below : d + capacity (region (sys_ed st)) * 4 <= Z.min pf pb;
  inv_region_wf : array_wf 4 (sys_arena st) (region (sys_ed st));
  inv_text : text_okb (width (sys_back st)) (height (sys_back st))
               (elems (sys_arena st) (region (sys_ed st))) = true;
  inv_back_fg : forall idx, 0 <= idx < width (sys_back st) * height (sys_back st) ->
                  0 <= glyph_fg (sys_arena st) (pb + idx * GLYPH_SIZE) < COLOR_COUNT;
  inv_events : events_wf (sys_in st);
  inv_ground : t_ps (sys_term st) = Ground;
  inv_screen : forall row col, 0 <= row < height (sys_back st) -> 0 <= col < width (sys_back st) ->
    t_scr (sys_term st) row col = frame_view (sys_arena st) (sys_front st) (row * width (sys_back st) + col) \/
    glyph_cp (sys_arena st) (pf + (row * width (sys_back st) + col) * GLYPH_SIZE) = 0 }.

(** What the terminal should show at [(row, col)] for the text: its
    character with the cursor colours, or a space on the default
    background. *)
Definition screen_ok (e : Editor) (text : list Z) (c : Cell) (row col : Z) : Prop :=
  match layout_cell text row col with
  | Some cp => c = mkCell cp (color_meaning (fst (paint_colors e col row)))
                          (color_meaning (snd (paint_colors e col row)))
  | None => c_cp c = 32 /\ c_bg c = TDefault
  end.

(** ** Helpers *)

Lemma text_okb_spec w h text :
  text_okb w h text = true ->
  u32_list text /\ lines_fit w h text = true /\
  Forall (fun c => c = 10 \/ printable c = true) text.
Proof.
  unfold text_okb, u32_list. rewrite andb_true_iff, forallb_forall. intros [H Hf].
  split; [|split; [done|]]; apply List.Forall_forall; intros c Hc; specialize (H c Hc);
    rewrite !andb_true_iff, orb_true_iff, Z.eqb_eq, Z.leb_le, Z.ltb_lt in H; tauto.
Qed.

Lemma view_of_glyph_at a g x y z :
  glyph_at a g = (x, y, z) -> view a g = mkCell x (cell_color y) (cell_color z).
Proof. unfold glyph_at, view. by intros [= -> -> ->]. Qed.

Lemma cell_color_code c : cell_color (color_code c) = color_meaning c.
Proof. unfold cell_color. by rewrite color_of_code_code. Qed.

(** A row-major index of a [w] x [h] frame, split into row and column. *)
Lemma idx_split w h idx :
  0 <= idx < w * h -> 0 <= w -> 0 <= h ->
  idx = (idx / w) * w + idx mod w /\ 0 <= idx / w < h /\ 0 <= idx mod w < w.
Proof.
  intros Hi Hw Hh. assert (0 < w) by nia.
  split; [rewrite Z.mul_comm; apply Z.div_mod; lia|].
  split; [split; [apply Z.div_pos; lia|apply Z.div_lt_upper_bound; lia]|apply Z.mod_pos_bound; lia].
Qed.

(** Eight equal bytes give equal views. *)
Lemma mem_equal_view a g g' :
  mem_equal a g g' 8 = true -> view a g = view a g'.
Proof.
  intros H. apply view_glyph_at, glyph_at_shift. intros i Hi.
  apply (proj1 (mem_equal_spec a g g' 8) H). simpl. lia.
Qed.

Lemma mem_equal_cp a g g' :
  mem_equal a g g' 8 = true -> glyph_cp a g = glyph_cp a g'.
Proof. intros H. apply mem_equal_view in H. unfold view in H. congruence. Qed.

(** After the painting, every glyph of [back] can be shown: a text
    character (printable, by the invariant) with two [Color]s, or a cleared
    glyph with the old, valid, foreground. *)
Lemma painted_glyph_ok a a1 e f pb text :
  glyphs f = Some pb -> 0 <= width f -> 0 <= height f ->
  Forall (fun c => c = 10 \/ printable c = true) text ->
  (forall idx, 0 <= idx < width f * height f ->
     0 <= glyph_fg a (pb + idx * GLYPH_SIZE) < COLOR_COUNT) ->
  (forall row col, 0 <= row < height f -> 0 <= col < width f ->
     frame_glyph a1 f (row * width f + col) =
       match layout_cell text row col with
       | Some cp => painted e cp col row
       | None => (32, glyph_fg a (pb + (row * width f + col) * GLYPH_SIZE), 0)
       end) ->
  forall idx, 0 <= idx < width f * height f -> glyph_ok a1 (pb + idx * GLYPH_SIZE).
Proof.
  intros Hp Hw Hh Hpr Hfg Hl idx Hi.
  destruct (idx_split _ _ _ Hi Hw Hh) as (Ei & Hr & Hc).
  specialize (Hl _ _ Hr Hc). rewrite <- Ei in Hl. unfold frame_glyph in Hl. rewrite Hp in Hl.
  unfold glyph_at in Hl. unfold glyph_ok.
  destruct (layout_cell text _ _) as [cp|] eqn:Ecp.
  - apply layout_cell_elem in Ecp as [Hin Hnl]. unfold painted in Hl. injection Hl as -> -> ->.
    split; [|split; apply color_code_byte].
    eapply List.Forall_forall in Hpr; [|exact Hin]. destruct Hpr; [lia|done].
  - injection Hl as -> -> ->. split; [reflexivity|]. split; [by apply Hfg|unfold COLOR_COUNT; lia].
Qed.

(** The screen agrees with [back] wherever the bytes of [back] and
    [front] agree: from the invariant's screen clause, because the
    painting did not touch [front] and never writes a zero codepoint. *)
Lemma screen_agrees st pf pb d a1 :
  SysInv st pf pb d ->
  (forall z, z < pb \/ pb + frame_buf_size (sys_back st) <= z -> rd a1 z = rd (sys_arena st) z) ->
  (forall idx, 0 <= idx < width (sys_back st) * height (sys_back st) ->
     glyph_ok a1 (pb + idx * GLYPH_SIZE)) ->
  forall row col, 0 <= row < height (sys_back st) -> 0 <= col < width (sys_back st) ->
    mem_equal a1 (pb + (row * width (sys_back st) + col) * GLYPH_SIZE)
      (pf + (row * width (sys_back st) + col) * GLYPH_SIZE) 8 = true ->
    t_scr (sys_term st) row col = frame_view a1 (sys_back st) (row * width (sys_back st) + col).
Proof.
  intros Hinv Hout Hok row col Hr Hc Heq.
  pose proof (inv_back_wf _ _ _ _ Hinv) as (Hw & Hh & _).
  assert (Hidx : 0 <= row * width (sys_back st) + col < width (sys_back st) * height (sys_back st)) by nia.
  assert (Hsame : view a1 (pf + (row * width (sys_back st) + col) * GLYPH_SIZE) =
                  view (sys_arena st) (pf + (row * width (sys_back st) + col) * GLYPH_SIZE)).
  { apply view_glyph_at, glyph_at_ext. intros z Hz. apply Hout.
    pose proof (inv_disjoint _ _ _ _ Hinv). unfold frame_buf_size, GLYPH_SIZE in *. nia. }
  unfold frame_view. rewrite (inv_back _ _ _ _ Hinv).
  destruct (inv_screen _ _ _ _ Hinv row col Hr Hc) as [E|E].
  - rewrite E. unfold frame_view. rewrite (inv_front _ _ _ _ Hinv).
    rewrite <- Hsame. symmetry. by apply mem_equal_view.
  - exfalso. destruct (Hok _ Hidx) as (Hp & _).
    rewrite (mem_equal_cp _ _ _ Heq) in Hp. unfold view in Hsame.
    assert (glyph_cp a1 (pf + (row * width (sys_back st) + col) * GLYPH_SIZE) = 0) as Z0 by congruence.
    rewrite Z0 in Hp. discriminate.
Qed.

Lemma editor_frame_close fuel a f e s a' s' :
  editor_frame fuel a f e s = Ok (a', s') -> should_close s' = should_close s.
Proof.
  unfold editor_frame. destruct (drain_events fuel s) as [r| |] eqn:E; simpl; try done.
  destruct (ed_pf_clear a f); simpl; try done.
  destruct (paint_loop _ _ _ _); simpl; try done.
  intros [= _ <-]. by apply (drain_events_close fuel).
Qed.

Lemma frame_and_display_close fuel st st1 :
  frame_and_display fuel st = Ok st1 -> should_close (sys_in st1) = should_close (sys_in st).
Proof.
  unfold frame_and_display. destruct (editor_frame _ _ _ _ _) as [[a' s']| |] eqn:E; simpl; try done.
  destruct (display _ _ _); simpl; try done. intros <-%Ok_inj. by apply editor_frame_close in E.
Qed.

Lemma glyph_ok_at a a' g : glyph_at a' g = glyph_at a g -> glyph_ok a g -> glyph_ok a' g.
Proof. unfold glyph_at, glyph_ok. by intros [= -> -> ->]. Qed.

(** A cell that shows a painted glyph shows what [screen_ok] asks. *)
Lemma screen_ok_painted a1 a e f pb text row col c :
  glyphs f = Some pb ->
  frame_glyph a1 f (row * width f + col) =
    match layout_cell text row col with
    | Some cp => painted e cp col row
    | None => (32, glyph_fg a (pb + (row * width f + col) * GLYPH_SIZE), 0)
    end ->
  c = frame_view a1 f (row * width f + col) -> screen_ok e text c row col.
Proof.
  intros Hp Hl ->. unfold frame_glyph in Hl. unfold frame_view, screen_ok. rewrite Hp in *.
  destruct (layout_cell text row col) as [cp|].
  - unfold painted in Hl. rewrite (view_of_glyph_at _ _ _ _ _ Hl), !cell_color_code. done.
  - rewrite (view_of_glyph_at _ _ _ _ _ Hl). done.
Qed.

(** [editor_frame] then [display] from a state of the invariant: both
    return, the invariant holds again (with [front] now a copy of
    [back]), the text is unchanged, and the terminal shows the text. *)
Lemma frame_and_display_spec fuel st pf pb d :
  SysInv st pf pb d -> (5 <= fuel)%nat ->
  exists st1, frame_and_display fuel st = Ok st1 /\ SysInv st1 pf pb d /\
    sys_ed st1 = sys_ed st /\ sys_front st1 = sys_front st /\ sys_back st1 = sys_back st /\
    should_close (sys_in st1) = should_close (sys_in st) /\
    elems (sys_arena st1) (region (sys_ed st)) = elems (sys_arena st) (region (sys_ed st)) /\
    (forall idx, 0 <= idx < width (sys_back st) * height (sys_back st) ->
       glyph_ok (sys_arena st1) (pb + idx * GLYPH_SIZE)) /\
    mem_used (sys_arena st1) = mem_used (sys_arena st) /\
    forall row col, 0 <= row < height (sys_back st) -> 0 <= col < width (sys_back st) ->
      screen_ok (sys_ed st) (elems (sys_arena st) (region (sys_ed st)))
        (t_scr (sys_term st1) row col) row col.
Proof.
  intros Hinv Hf. pose proof Hinv as [Hpf Hpb Hd Hwf Hfw Hbw Hwd Hhd Hdisj Hbelow Hrw Htext Hfg Hev Hg Hscr].
  destruct (text_okb_spec _ _ _ Htext) as (Hu32 & Hfit & Hpr).
  destruct (editor_frame_spec fuel (sys_arena st) (sys_back st) pb (sys_ed st) (sys_in st) d)
    as (a1 & s1 & E1 & _ & Hev1 & Hwf1 & Hu1 & Hout1 & Hl1); try done; [lia| |].
  { destruct Hev as [_ Hc]. unfold EVENTS_LEN in Hc. lia. }
  unfold frame_and_display. rewrite E1. cbn [res_bind fst snd].
  pose proof Hbw as (Hw & Hh & _).
  pose proof (painted_glyph_ok _ _ _ _ _ _ Hpb Hw Hh Hpr Hfg Hl1) as Hok.
  assert (Hfw1 : frame_wf a1 (sys_front st)) by (destruct Hfw as (? & ? & ?); unfold frame_wf; by rewrite Hu1).
  assert (Hbw1 : frame_wf a1 (sys_back st)) by (destruct Hbw as (? & ? & ?); unfold frame_wf; by rewrite Hu1).
  destruct (display_spec a1 (sys_front st) (sys_back st) pf pb (sys_term st))
    as (a2 & out & E2 & Hshb & Hshf & Hg2 & Hwf2 & Hu2 & Hout2); try done.
  { by apply (screen_agrees st pf pb d a1). }
  rewrite E2. cbn [res_bind]. eexists. split; [reflexivity|].
  assert (Hreg : forall z, d <= z < d + capacity (region (sys_ed st)) * 4 ->
                   rd a2 z = rd (sys_arena st) z) by (intros; rewrite Hout2, Hout1; lia).
  destruct Hrw as [Hc0 Hrb]. rewrite Hd in Hrb.
  assert (He : elems a2 (region (sys_ed st)) = elems (sys_arena st) (region (sys_ed st)))
    by (apply (elems_same _ _ _ d); (done || lia)).
  split; [|split; [done|split; [done|split; [done|split; [by apply (editor_frame_close _ _ _ _ _ _ _ E1)|split; [done|]]]]]].
  - constructor; cbn [sys_arena sys_ed sys_front sys_back sys_in sys_term fst snd]; try done.
    + destruct Hfw as (? & ? & ?). unfold frame_wf. by rewrite Hu2, Hu1.
    + destruct Hbw as (? & ? & ?). unfold frame_wf. by rewrite Hu2, Hu1.
    + split; [done|]. rewrite Hd. lia.
    + by rewrite He.
    + intros idx Hi. destruct (Hok idx Hi) as (_ & Hf1 & _). unfold glyph_fg in *.
      rewrite Hout2; [done|]. unfold frame_buf_size, GLYPH_SIZE in *. nia.
    + destruct Hev1 as [? _]. split; [done|]. simpl. unfold EVENTS_LEN. lia.
    + intros row col Hr Hc. left. rewrite Hshf by (rewrite ?Hwd, ?Hhd; lia). by rewrite Hwd.
  - split; [|split].
    + intros idx Hi. apply (glyph_ok_at a1); [|by apply Hok].
      apply glyph_at_ext. intros z Hz. apply Hout2. unfold frame_buf_size, GLYPH_SIZE in *. nia.
    + cbn [sys_arena fst]. by rewrite Hu2, Hu1.
    + intros row col Hr Hc. eapply screen_ok_painted; [exact Hpb|apply Hl1; done|].
      by apply Hshb.
Qed.

(** Only [inv_events] looks at the platform's event state. *)
Lemma SysInv_with_input st s pf pb d :
  SysInv st pf pb d -> events_wf s ->
  SysInv (mkSys (sys_arena st) (sys_ed st) (sys_front st) (sys_back st) s (sys_term st)) pf pb d.
Proof. intros [] Hs. by constructor. Qed.

(** One iteration of the loop from a state of the invariant: if
    [handle_input] returns, the invariant holds again, the editor, the
    frames and the text are those of before, and the terminal shows the
    text. *)
Lemma main_iter_spec fuel st c st' pf pb d :
  SysInv st pf pb d -> (5 <= fuel)%nat -> main_iter fuel st c = Ok st' ->
  SysInv st' pf pb d /\ sys_ed st' = sys_ed st /\ sys_front st' = sys_front st /\
  sys_back st' = sys_back st /\
  elems (sys_arena st') (region (sys_ed st)) = elems (sys_arena st) (region (sys_ed st)) /\
  mem_used (sys_arena st') = mem_used (sys_arena st) /\
  forall row col, 0 <= row < height (sys_back st) -> 0 <= col < width (sys_back st) ->
    screen_ok (sys_ed st) (elems (sys_arena st) (region (sys_ed st)))
      (t_scr (sys_term st') row col) row col.
Proof.
  intros Hinv Hf. unfold main_iter.
  destruct (frame_and_display_spec fuel st pf pb d Hinv Hf)
    as (st1 & -> & Hinv1 & Hed & Hfr & Hbk & _ & Hel & _ & Hu & Hscr). cbn [res_bind].
  destruct (handle_input _ _ _ _ _) as [s2| |] eqn:E2; cbn [res_bind]; try done.
  intros [= <-]. cbn [sys_arena sys_ed sys_front sys_back sys_term].
  split; [|done]. apply SysInv_with_input; [done|].
  by apply (handle_input_wf _ _ _ _ _ _ (inv_events _ _ _ _ Hinv1) E2).
Qed.

(** The states [main] passes through at the top of its loop, from [st0]:
    every iteration that starts with [should_close] clear and whose
    [handle_input] returns leads to the next one. *)
Inductive reachable (fuel : nat) (st0 : Sys) : Sys -> Prop :=
| reach_start : reachable fuel st0 st0
| reach_step st c st' :
    reachable fuel st0 st -> should_close (sys_in st) = false ->
    main_iter fuel st c = Ok st' -> reachable fuel st0 st'.

Lemma reach_prepend fuel st c st1 st' :
  should_close (sys_in st) = false -> main_iter fuel st c = Ok st1 ->
  reachable fuel st1 st' -> reachable fuel st st'.
Proof.
  intros Hc E R. induction R as [|s c' s' R IH Hc' E'].
  - eapply reach_step; [constructor|done|exact E].
  - eapply reach_step; eauto.
Qed.

(** A run of [main_loop] that returns ends in a reachable state with
    [should_close] set. *)
Lemma main_loop_reachable fuel st cs st' :
  main_loop fuel st cs = Ok st' -> reachable fuel st st' /\ should_close (sys_in st') = true.
Proof.
  revert st. induction cs as [|c cs IH]; intros st; simpl.
  - destruct (should_close (sys_in st)) eqn:Hc; [intros [= <-]; split; [constructor|done]|done].
  - destruct (should_close (sys_in st)) eqn:Hc; [intros [= <-]; split; [constructor|done]|].
    destruct (main_iter fuel st c) as [st1| |] eqn:E; cbn [res_bind]; try done.
    intros H. destruct (IH st1 H) as [R Hc']. split; [|done]. by apply (reach_prepend _ _ c st1).
Qed.

(** The invariant, and the editor, frames and text of the start, hold in
    every reachable state (rule induction on [reachable]). *)
Lemma reachable_inv fuel st0 st pf pb d :
  SysInv st0 pf pb d -> (5 <= fuel)%nat -> reachable fuel st0 st ->
  SysInv st pf pb d /\ sys_ed st = sys_ed st0 /\ sys_front st = sys_front st0 /\
  sys_back st = sys_back st0 /\
  elems (sys_arena st) (region (sys_ed st0)) = elems (sys_arena st0) (region (sys_ed st0)).
Proof.
  intros H0 Hf R. induction R as [|st c st' R IH _ E]; [done|].
  destruct IH as (Hinv & Hed & Hfr & Hbk & Hel).
  destruct (main_iter_spec fuel st c st' pf pb d Hinv Hf E) as (Hinv' & Hed' & Hfr' & Hbk' & Hel' & _).
  split; [done|]. rewrite Hed', Hfr', Hbk'. do 3 (split; [done|]). rewrite <- Hed, Hel', Hed. exact Hel.
Qed.

(** ** Start-up *)

Lemma term_run_start t :
  t_ps t = Ground -> t_ps (term_run t (ESC_ALT_ON ++ ESC_CURSOR_OFF ++ ESC_CLEAR ++ ESC_HOME)) = Ground.
Proof. destruct t as [scr row col fg bg ps]. simpl. intros ->. reflexivity. Qed.

Lemma rd_bump a n x : rd (bump a n) x = rd a x.
Proof. reflexivity. Qed.

Lemma array_wf_grow a a' arr :
  array_wf 4 a arr -> mem_used a <= mem_used a' -> array_wf 4 a' arr.
Proof. unfold array_wf. intros [Hc Hd] Hu. split; [done|]. case_match; lia. Qed.

Lemma mem_used_bump a n : mem_used (bump a n) = mem_used a + n.
Proof. reflexivity. Qed.

(** Two frames of [w] x [h] allocated at the top of the arena, [back]
    first, as [frame_resize_all] allocates them from null pointers and
    when it moves both: with the region below them, the text fitting the
    window and the terminal outside any escape sequence, the loop's
    invariant holds (the new blocks are zero, so [front] holds no glyph
    the screen must agree with). *)
Lemma fresh_frames_inv a e s t w h d :
  arena_wf a -> 0 <= w -> 0 <= h ->
  mem_used a + 2 * (w * h * GLYPH_SIZE) <= MEM_CAPACITY ->
  data (region e) = Some d -> 0 <= d -> d + capacity (region e) * 4 <= mem_used a ->
  array_wf 4 a (region e) -> text_okb w h (elems a (region e)) = true ->
  events_wf s -> t_ps t = Ground ->
  SysInv (mkSys (bump (bump a (w * h * GLYPH_SIZE)) (w * h * GLYPH_SIZE)) e
            (mkFrame (Some (mem_used a + w * h * GLYPH_SIZE)) w h)
            (mkFrame (Some (mem_used a)) w h) s t)
         (mem_used a + w * h * GLYPH_SIZE) (mem_used a) d.
Proof.
  intros Hwf Hw Hh Hcap Hd Hd0 Hreg Hrw Htext Hev Hg.
  assert (Hn : 0 <= w * h * GLYPH_SIZE) by (unfold GLYPH_SIZE; nia).
  pose proof Hwf as (Hu & _ & Hz).
  constructor; cbn [sys_arena sys_ed sys_front sys_back sys_in sys_term glyphs width height]; try done.
  all: unfold frame_wf, frame_buf_size, glyph_fg, glyph_cp in *;
    cbn [glyphs width height] in *; rewrite ?mem_used_bump in *; change GLYPH_SIZE with 8 in *.
  - apply bump_wf; [apply bump_wf; [done|lia|lia]|lia|rewrite mem_used_bump; lia].
  - lia.
  - lia.
  - right. lia.
  - lia.
  - apply (array_wf_grow a); [done|rewrite !mem_used_bump; lia].
  - intros idx Hi. rewrite !rd_bump, Hz by nia. unfold COLOR_COUNT. lia.
  - intros row col Hr Hc. right. unfold load_u32. rewrite !rd_bump, !Hz by nia. done.
Qed.

(** The start-up of [main] on a file that decodes and a window the text
    fits: it returns a state of the invariant, with the region (one
    [uint32_t] per byte of the file) after the [Editor] struct, [back] at
    the top of the arena and [front] after it, and the region holding
    the normalised text. *)
Lemma main_start_spec fuel fs src cps w h t0 :
  posix_wf fs -> posix_file fs EDITOR_PATH = Some src ->
  src <> [] -> decode_utf8 src = Some cps -> (length src < fuel)%nat ->
  0 <= w -> 0 <= h ->
  EDITOR_SIZE + Z.of_nat (length src) * 4 + 2 * (w * h * GLYPH_SIZE) <= MEM_CAPACITY ->
  t_ps t0 = Ground -> text_okb w h (norm_lines false cps) = true ->
  exists st0, main_start fuel fs w h t0 = Ok st0 /\
    SysInv st0 (EDITOR_SIZE + Z.of_nat (length src) * 4 + w * h * GLYPH_SIZE)
               (EDITOR_SIZE + Z.of_nat (length src) * 4) EDITOR_SIZE /\
    elems (sys_arena st0) (region (sys_ed st0)) = norm_lines false cps /\
    width (sys_back st0) = w /\ height (sys_back st0) = h /\ primary (sys_ed st0) = mkCursor 3 6 /\
    frame_top (sys_arena st0) (sys_front st0).
Proof.
  intros Hfs Hfile Hne Hdec Hf Hw Hh Hcap Hg Htext.
  assert (Hn : 0 <= w * h * GLYPH_SIZE) by (unfold GLYPH_SIZE; nia).
  unfold main_start.
  destruct (@editor_init_loads PosixFS posix_storage posix_storage_spec fuel arena_init fs Hfs src Hfile Hne)
    as [fs' ->].
  unfold main_screen. rewrite mem_alloc_zeroed_ok by (apply arena_init_wf || (unfold EDITOR_SIZE in *; simpl; lia)).
  cbn [res_bind fst snd].
  assert (Hw0 : arena_wf (bump arena_init EDITOR_SIZE))
    by (apply bump_wf; [apply arena_init_wf|unfold EDITOR_SIZE; lia|simpl; lia]).
  destruct (ed_load_file_region_spec fuel _ src cps Hw0 Hdec Hf)
    as (a1 & r1 & -> & He & W1 & A1 & U1 & C1 & D1); [simpl; lia|].
  specialize (D1 Hne). cbn [mem_used bump arena_init] in U1, D1. rewrite Z.add_0_l in U1, D1.
  cbn [res_bind fst snd]. unfold frame_resize_all, frame_resize. cbn [glyphs frame_zero].
  unfold mem_realloc_zeroed, frame_buf_size. cbn [width height].
  rewrite mem_alloc_zeroed_ok by (done || lia). cbn [res_bind fst snd].
  rewrite mem_alloc_zeroed_ok; [|apply bump_wf; [done|lia|lia]|lia|cbn [mem_used bump]; lia].
  cbn [res_bind fst snd]. eexists. split; [reflexivity|].
  rewrite !mem_used_bump, <- U1.
  split; [|split; [cbn [sys_arena sys_ed region]; by rewrite (elems_ext a1)|]].
  2: { do 3 (split; [done|]). unfold frame_top, frame_buf_size. cbn [sys_arena sys_front glyphs width height]. rewrite !mem_used_bump. lia. }
  apply fresh_frames_inv; cbn [region]; try done; try lia.
  - by rewrite He.
  - by apply term_run_start.
Qed.

Lemma main_start_input fuel file w h t0 st0 :
  main_start fuel file w h t0 = Ok st0 -> sys_in st0 = input_init.
Proof.
  unfold main_start, main_screen. destruct (editor_init _ _ _); cbn [res_bind]; try done.
  destruct (frame_resize_all _ _ _ _ _); cbn [res_bind]; try done. by intros [= <-].
Qed.

Lemma main_loop_closed fuel st cs :
  should_close (sys_in st) = true -> main_loop fuel st cs = Ok st.
Proof. intros H. destruct cs; simpl; by rewrite H. Qed.


(** Every state reached by at least one iteration shows the text. *)
Lemma reachable_shown fuel st0 st pf pb d :
  SysInv st0 pf pb d -> (5 <= fuel)%nat -> reachable fuel st0 st ->
  st = st0 \/
  forall row col, 0 <= row < height (sys_back st0) -> 0 <= col < width (sys_back st0) ->
    screen_ok (sys_ed st0) (elems (sys_arena st0) (region (sys_ed st0)))
      (t_scr (sys_term st) row col) row col.
Proof.
  intros H0 Hf R. destruct R as [|st c st' R _ E]; [by left|right].
  destruct (reachable_inv fuel st0 st pf pb d H0 Hf R) as (Hinv & Hed & _ & Hbk & Hel).
  destruct (main_iter_spec fuel st c st' pf pb d Hinv Hf E) as (_ & _ & _ & _ & _ & _ & Hs).
  intros row col Hr Hc. rewrite <- Hel, <- Hed. apply Hs; by rewrite Hbk.
Qed.

(** The hypotheses on the file and the window under which [main] is
    proved correct: the file is not empty and decodes, the fuel covers
    the loader's loop and the events of one frame, the arena holds the
    editor, the region and both frames, the terminal starts outside any
    escape sequence, and the text can be shown in the window. *)
Definition start_ok (fuel : nat) (fs : PosixFS) (src cps : list Z) (w h : Z) (t0 : Term) : Prop :=
  posix_wf fs /\ posix_file fs EDITOR_PATH = Some src /\ src <> [] /\ decode_utf8 src = Some cps /\ (length src < fuel)%nat /\ (5 <= fuel)%nat /\
  0 <= w /\ 0 <= h /\
  EDITOR_SIZE + Z.of_nat (length src) * 4 + 2 * (w * h * GLYPH_SIZE) <= MEM_CAPACITY /\
  t_ps t0 = Ground /\ text_okb w h (norm_lines false cps) = true.

Lemma start_inv fuel fs src cps w h t0 st0 :
  start_ok fuel fs src cps w h t0 -> main_start fuel fs w h t0 = Ok st0 ->
  exists pf pb d, SysInv st0 pf pb d /\
    elems (sys_arena st0) (region (sys_ed st0)) = norm_lines false cps /\
    width (sys_back st0) = w /\ height (sys_back st0) = h /\
    frame_top (sys_arena st0) (sys_front st0).
Proof.
  intros (Hfs & Hfile & Hne & Hdec & Hf & _ & Hw & Hh & Hcap & Hg & Htext) E.
  destruct (main_start_spec fuel fs src cps w h t0 Hfs Hfile Hne Hdec Hf Hw Hh Hcap Hg Htext)
    as (st0' & E' & H0 & Hel & Hwd & Hht & _ & Htop).
  rewrite E in E'. injection E' as <-. eauto 8.
Qed.

(** ** The program's correctness *)

(** C1: [main] refines "show the file": on a file that decodes and a
    window the text fits, the start-up returns, and from every state the
    loop reaches, [editor_frame] and [display] return and leave the
    terminal showing the normalised text of the file, one line per row,
    with the cursor colours at the cursor and spaces on the default
    background elsewhere; when the loop ends, the terminal shows the
    text. *)
Theorem main_refines fuel fs src cps w h t0 :
  start_ok fuel fs src cps w h t0 ->
  exists st0, main_start fuel fs w h t0 = Ok st0 /\
    (forall st, reachable fuel st0 st ->
       exists st1, frame_and_display fuel st = Ok st1 /\
         forall row col, 0 <= row < h -> 0 <= col < w ->
           screen_ok (sys_ed st0) (norm_lines false cps) (t_scr (sys_term st1) row col) row col) /\
    (forall cs st', main_loop fuel st0 cs = Ok st' ->
       should_close (sys_in st') = true /\
       forall row col, 0 <= row < h -> 0 <= col < w ->
         screen_ok (sys_ed st0) (norm_lines false cps) (t_scr (sys_term st') row col) row col).
Proof.
  intros Hok. pose proof Hok as (Hfs & Hfile & Hne & Hdec & Hf & Hf5 & Hw & Hh & Hcap & Hg & Htext).
  destruct (main_start_spec fuel fs src cps w h t0 Hfs Hfile Hne Hdec Hf Hw Hh Hcap Hg Htext)
    as (st0 & E & H0 & Hel & Hwd & Hht & _).
  exists st0. split; [done|]. split.
  - intros st R. destruct (reachable_inv _ _ _ _ _ _ H0 Hf5 R) as (Hinv & Hed & _ & Hbk & Hel').
    destruct (frame_and_display_spec fuel st _ _ _ Hinv Hf5)
      as (st1 & E1 & _ & _ & _ & _ & _ & _ & _ & _ & Hs).
    exists st1. split; [done|]. intros row col Hr Hc.
    rewrite <- Hel, <- Hel', <- Hed. apply Hs; rewrite Hbk; lia.
  - intros cs st' Hl. destruct (main_loop_reachable _ _ _ _ Hl) as [R Hc]. split; [done|].
    destruct (reachable_shown _ _ _ _ _ _ H0 Hf5 R) as [->|Hs].
    + by rewrite (main_start_input _ _ _ _ _ _ E) in Hc.
    + intros row col Hr Hc'. rewrite <- Hel. apply Hs; lia.
Qed.

(** C7: quitting is live: from every state the loop reaches, a [read]
    that returns the single byte ['q'] ends the loop after that
    iteration, whatever the reads after it. *)
Theorem main_loop_quits fuel fs src cps w h t0 st0 st c cs :
  start_ok fuel fs src cps w h t0 -> main_start fuel fs w h t0 = Ok st0 ->
  reachable fuel st0 st ->
  ck_err c = false -> ck_bytes c = 1 -> at_ (ck_buf c) 0 = 0x71 ->
  exists st', main_loop fuel st (c :: cs) = Ok st' /\ should_close (sys_in st') = true.
Proof.
  intros Hok E R Herr Hb Hq. pose proof Hok as (_ & _ & _ & _ & _ & Hf5 & _).
  destruct (start_inv _ _ _ _ _ _ _ _ Hok E) as (pf & pb & d & H0 & _).
  destruct (reachable_inv _ _ _ _ _ _ H0 Hf5 R) as (Hinv & _).
  cbn [main_loop]. destruct (should_close (sys_in st)) eqn:Hc0; [eauto|].
  unfold main_iter.
  destruct (frame_and_display_spec fuel st _ _ _ Hinv Hf5) as (st1 & -> & _). cbn [res_bind].
  rewrite Herr, Hb, handle_input_one; rewrite ?Hq; try (lia || reflexivity).
  cbn [res_bind]. eexists. split; [apply main_loop_closed|]; cbn [sys_in];
    by rewrite push_close.
Qed.

(** C11: the glyph type: in every state the loop reaches, the frame
    [editor_frame] paints holds, at every cell, a printable codepoint and
    two bytes that are values of the enum [Color]. *)
Theorem frame_glyphs_typed fuel fs src cps w h t0 st0 st :
  start_ok fuel fs src cps w h t0 -> main_start fuel fs w h t0 = Ok st0 ->
  reachable fuel st0 st ->
  exists st1, frame_and_display fuel st = Ok st1 /\
    forall idx, 0 <= idx < w * h ->
      exists cp fg bg, frame_glyph (sys_arena st1) (sys_back st1) idx = (cp, color_code fg, color_code bg) /\
        printable cp = true.
Proof.
  intros Hok E R. pose proof Hok as (_ & _ & _ & _ & _ & Hf5 & _).
  destruct (start_inv _ _ _ _ _ _ _ _ Hok E) as (pf & pb & d & H0 & _ & Hwd & Hht & _).
  destruct (reachable_inv _ _ _ _ _ _ H0 Hf5 R) as (Hinv & _ & _ & Hbk & _).
  destruct (frame_and_display_spec fuel st _ _ _ Hinv Hf5)
    as (st1 & E1 & _ & _ & _ & Hbk1 & _ & _ & Hok1 & _).
  exists st1. split; [done|]. intros idx Hi.
  destruct (Hok1 idx) as (Hp & Hfg & Hbg); [by rewrite Hbk, Hwd, Hht|].
  destruct (code_color _ Hfg) as [fg Efg]. destruct (code_color _ Hbg) as [bg Ebg].
  exists (glyph_cp (sys_arena st1) (pb + idx * GLYPH_SIZE)), fg, bg. split; [|done].
  unfold frame_glyph, glyph_at. by rewrite Hbk1, (inv_back _ _ _ _ Hinv), Efg, Ebg.
Qed.

(** ** Examples *)

(** The file "ab\nc" in a window of 3 columns and 2 rows. *)
Definition ex_src : list Z := [97; 98; 10; 99].

Lemma ex_start_ok : start_ok 6 (ex_fs ex_src true) ex_src ex_src 3 2 ex_term.
Proof.
  unfold start_ok, ex_src. split; [unfold posix_wf; simpl; lia|]. split; [reflexivity|].
  split; [discriminate|]. split; [vm_compute; reflexivity|].
  do 4 (split; [simpl; lia|]). split; [unfold EDITOR_SIZE, GLYPH_SIZE, MEM_CAPACITY; simpl; lia|].
  split; [reflexivity|]. vm_compute. reflexivity.
Qed.

(** The quit chunk: one byte, ['q']. *)
Definition ex_quit : Chunk := mkChunk false 1 (0x71 :: repeat 0 15).

Lemma main_refines_witness :
  start_ok 6 (ex_fs ex_src true) ex_src ex_src 3 2 ex_term /\
  exists st0, main_start 6 (ex_fs ex_src true) 3 2 ex_term = Ok st0 /\
    (forall st, reachable 6 st0 st ->
       exists st1, frame_and_display 6 st = Ok st1 /\
         forall row col, 0 <= row < 2 -> 0 <= col < 3 ->
           screen_ok (sys_ed st0) (norm_lines false ex_src) (t_scr (sys_term st1) row col) row col) /\
    (forall cs st', main_loop 6 st0 cs = Ok st' ->
       should_close (sys_in st') = true /\
       forall row col, 0 <= row < 2 -> 0 <= col < 3 ->
         screen_ok (sys_ed st0) (norm_lines false ex_src) (t_scr (sys_term st') row col) row col).
Proof. split; [exact ex_start_ok|]. apply (main_refines 6 (ex_fs ex_src true) ex_src). exact ex_start_ok. Defined.

Lemma main_loop_quits_witness :
  exists st0, main_start 6 (ex_fs ex_src true) 3 2 ex_term = Ok st0 /\
    exists st', main_loop 6 st0 [ex_quit] = Ok st' /\ should_close (sys_in st') = true.
Proof.
  destruct (main_start 6 (ex_fs ex_src true) 3 2 ex_term) as [st0| |] eqn:E;
    [|vm_compute in E; discriminate|vm_compute in E; discriminate].
  exists st0. split; [reflexivity|].
  apply (main_loop_quits 6 (ex_fs ex_src true) ex_src ex_src 3 2 ex_term st0 st0 ex_quit []);
    [exact ex_start_ok|exact E|constructor|reflexivity|reflexivity|reflexivity].
Defined.

Lemma frame_glyphs_typed_witness :
  exists st0, main_start 6 (ex_fs ex_src true) 3 2 ex_term = Ok st0 /\
    exists st1, frame_and_display 6 st0 = Ok st1 /\
      forall idx, 0 <= idx < 3 * 2 ->
        exists cp fg bg, frame_glyph (sys_arena st1) (sys_back st1) idx =
          (cp, color_code fg, color_code bg) /\ printable cp = true.
Proof.
  destruct (main_start 6 (ex_fs ex_src true) 3 2 ex_term) as [st0| |] eqn:E;
    [|vm_compute in E; discriminate|vm_compute in E; discriminate].
  exists st0. split; [reflexivity|].
  apply (frame_glyphs_typed 6 (ex_fs ex_src true) ex_src ex_src 3 2 ex_term st0 st0);
    [exact ex_start_ok|exact E|constructor].
Defined.

(** The whole program on "ab\nc", reading ['q']: the codepoints the
    terminal shows at the end, row by row. *)
Lemma main_run_example :
  match res_bind (main_start 6 (ex_fs ex_src true) 3 2 ex_term) (fun st0 => main_loop 6 st0 [ex_quit]) with
  | Ok st => Some (map (fun r => map (fun c => c_cp (t_scr (sys_term st) r c)) [0; 1; 2]) [0; 1])
  | _ => None
  end = Some [[97; 98; 32]; [99; 32; 32]].
Proof. vm_compute. reflexivity. Qed.

End System.
