(* ===== verification/Resize.v ===== *)
(** * Resizing the window: [sigwinch_handler]

    [signal_setup] installs [sigwinch_handler] for [SIGWINCH]; the handler
    calls [frame_resize_all_to_fit_term], which clears the screen and
    reallocates [back] and then [front] to the new window size.  The
    handler has no [SA_RESTART], so the [read] it interrupts fails with
    [EINTR] and the loop goes round again: [main] runs as a sequence of
    loop iterations and resizes.

    This file models the handler as a step of the state of System.v
    ([sigwinch]); what wakes [main] from its [read] as [Wake] (a chunk,
    or a [SIGWINCH]); the loop [main] runs as [wake_loop] over wake-ups;
    and the loop's runs as the reflexive-transitive closure of a step
    relation with one rule per kind of step ([sys_step]: an iteration,
    or a resize to a window of larger area whose text fits).  Proved:
    - the handler's result on both branches: a resize to a window of no
      larger area keeps both blocks and the arena ([sigwinch_no_grow]);
      a growing one moves both frames to fresh, zeroed blocks at the top
      of the arena and keeps the invariant [SysInv] ([sigwinch_grow]);
    - the invariant holds in every state of a run ([run_inv], by
      induction on the closure); a [wake_loop] whose resizes all grow
      ([grows_along]) is such a run; so [main] shows the text in the
      current window after any such run and when its loop ends
      ([main_refines_winch]);
    - a [SIGWINCH] that does not change the size, after a frame was
      displayed, keeps the old blocks, which agree byte for byte, while
      the handler has cleared the screen: every cell is blank and
      [display], which only sends the cells where [front] and [back]
      differ, does not repaint the text ([winch_same_size_blank]). *)

From Stdlib Require Import ZArith Lia List.
From stdpp Require Import base list relations.
From S2P Require Import Prelude Input Arena Array Loader Storage Terminal Frame Render Editor System.
Import ListNotations.
Local Open Scope Z_scope.

Module Resize.
Import Input Arena Array Loader Storage Terminal Frame Render Editor System.

(** [static void sigwinch_handler(int sig)], for a window of [w] columns
    and [h] rows: [frame_resize_all_to_fit_term] on the program's state,
    its escapes written to the terminal. *)
Definition sigwinch (st : Sys) (w h : Z) : res Sys :=
  let* r := frame_resize_all (sys_arena st) (sys_front st) (sys_back st) w h in
  Ok (mkSys (fst (fst (fst r))) (sys_ed st) (snd (fst (fst r))) (snd (fst r))
            (sys_in st) (term_run (sys_term st) (snd r))).

(** A window the state can grow to: of a larger area, the text fits in
    it, and there is room in the arena for two frames of its size. *)
Definition winch_grows (st : Sys) (w h : Z) : Prop :=
  0 <= w /\ 0 <= h /\ width (sys_back st) * height (sys_back st) < w * h /\
  mem_used (sys_arena st) + 2 * (w * h * GLYPH_SIZE) <= MEM_CAPACITY /\
  text_okb w h (elems (sys_arena st) (region (sys_ed st))) = true.

Definition winch_growsb (st : Sys) (w h : Z) : bool :=
  (0 <=? w) && (0 <=? h) && (width (sys_back st) * height (sys_back st) <? w * h) &&
  (mem_used (sys_arena st) + 2 * (w * h * GLYPH_SIZE) <=? MEM_CAPACITY) &&
  text_okb w h (elems (sys_arena st) (region (sys_ed st))).

(** The steps of a run of [main]'s loop: an iteration on the chunk
    [read] returns, or a [SIGWINCH] for a window the state can grow to,
    both while [should_close] is false (the loop only reads then). *)
Inductive sys_step (fuel : nat) : relation Sys :=
| step_iter st c st' :
    should_close (sys_in st) = false -> main_iter fuel st c = Ok st' ->
    sys_step fuel st st'
| step_winch st w h st' :
    should_close (sys_in st) = false -> winch_grows st w h -> sigwinch st w h = Ok st' ->
    sys_step fuel st st'.

(** What a [read] interrupted by the signal leaves: [-1] with [errno]
    set to [EINTR]. *)
Definition eintr : Chunk := mkChunk true (-1) (repeat 0 16).

(** What wakes [main] up from its [read]: the read returns the chunk, or
    a [SIGWINCH] for a window of [w] x [h] runs [sigwinch_handler] and
    the read fails with [EINTR]. *)
Inductive Wake := Read (c : Chunk) | Winch (w h : Z).

(** One iteration of the loop: [editor_frame], [display], the reset of
    the queue, then the [read].  On a [SIGWINCH] the handler runs while
    [main] blocks and [if (errno != 0) continue;] leaves the platform
    state as it is. *)
Definition wake_iter (fuel : nat) (st : Sys) (k : Wake) : res Sys :=
  match k with
  | Read c => main_iter fuel st c
  | Winch w h => let* st1 := frame_and_display fuel st in sigwinch st1 w h
  end.

(** [while (!pf.should_close)] over the successive wake-ups. *)
Fixpoint wake_loop (fuel : nat) (st : Sys) (ks : list Wake) : res Sys :=
  if should_close (sys_in st) then Ok st
  else match ks with
       | [] => OutOfFuel
       | k :: ks' => let* st' := wake_iter fuel st k in wake_loop fuel st' ks'
       end.

(** Every resize of the run is to a window the state can then grow to. *)
Fixpoint grows_along (fuel : nat) (st : Sys) (ks : list Wake) : bool :=
  if should_close (sys_in st) then true
  else match ks with
       | [] => true
       | Read c :: ks' =>
           match main_iter fuel st c with Ok st' => grows_along fuel st' ks' | _ => true end
       | Winch w h :: ks' =>
           match frame_and_display fuel st with
           | Ok st1 => winch_growsb st1 w h &&
               match sigwinch st1 w h with Ok st' => grows_along fuel st' ks' | _ => true end
           | _ => true
           end
       end.

(** ** Lemmas *)

Lemma winch_growsb_spec st w h : winch_growsb st w h = true <-> winch_grows st w h.
Proof.
  unfold winch_growsb, winch_grows. rewrite !andb_true_iff, !Z.leb_le, Z.ltb_lt. tauto.
Qed.

(** Growing the last-but-one block, or a block that is not the top one:
    [mem_realloc_zeroed] hands out a fresh block at the top. *)
Lemma realloc_moves a p n N :
  arena_wf a -> 0 <= n < N -> (p = mem_used a - n -> n = 0) ->
  mem_used a + N <= MEM_CAPACITY ->
  mem_realloc_zeroed a (Some p) n N = Ok (bump a N, mem_used a).
Proof.
  intros Hwf Hn Hp Hc. unfold mem_realloc_zeroed.
  destruct (Z.leb_spec N n); [lia|].
  destruct (Z.eqb_spec p (mem_used a - n)) as [E|E].
  - specialize (Hp E). subst n. rewrite Z.sub_0_r in E |- *. subst p.
    by rewrite mem_alloc_zeroed_ok by (done || lia).
  - apply mem_alloc_zeroed_ok; (done || lia).
Qed.

Lemma term_run_clear_home t :
  t_ps t = Ground -> t_ps (term_run t (ESC_CLEAR ++ ESC_HOME)) = Ground.
Proof. destruct t as [scr row col fg bg ps]. simpl. intros ->. reflexivity. Qed.

(** The handler on a window of no larger area. *)
Lemma sigwinch_same_blocks st pf pb d w h :
  SysInv st pf pb d -> w * h <= width (sys_back st) * height (sys_back st) ->
  sigwinch st w h =
    Ok (mkSys (sys_arena st) (sys_ed st) (mkFrame (Some pf) w h) (mkFrame (Some pb) w h)
              (sys_in st) (term_run (sys_term st) (ESC_CLEAR ++ ESC_HOME))).
Proof.
  intros [Hpf Hpb _ _ _ _ Hwd Hhd _ _ _ _ _ _ _ _] Hle.
  assert (E : (w * h * GLYPH_SIZE <=? width (sys_back st) * height (sys_back st) * GLYPH_SIZE) = true)
    by (apply Z.leb_le; unfold GLYPH_SIZE; lia).
  unfold sigwinch, frame_resize_all, frame_resize, mem_realloc_zeroed, frame_buf_size.
  rewrite Hpb, Hpf, Hwd, Hhd. cbn [width height]. rewrite E. reflexivity.
Qed.

(** C10: a [SIGWINCH] to a window of no larger area keeps both frames'
    blocks and the arena as they are: [mem_realloc_zeroed] returns the
    old block when the new size is not larger, so the frames get the new
    size over their old glyphs (neither is zero-filled), while the
    terminal reads [ESC_CLEAR] and [ESC_HOME]. *)
Theorem sigwinch_no_grow st pf pb d w h :
  SysInv st pf pb d -> w * h <= width (sys_back st) * height (sys_back st) ->
  sigwinch st w h =
    Ok (mkSys (sys_arena st) (sys_ed st) (mkFrame (Some pf) w h) (mkFrame (Some pb) w h)
              (sys_in st) (term_run (sys_term st) (ESC_CLEAR ++ ESC_HOME))).
Proof. apply sigwinch_same_blocks. Qed.

(** A [SIGWINCH] to a window the state can grow to: [back] does not grow
    in place (it is below [front], or empty), so both frames move to
    fresh zeroed blocks at the top of the arena, [back] first; the
    invariant holds with the new blocks, [front] is the last block, and
    the editor, the input and the text are unchanged. *)
Lemma sigwinch_grow st pf pb d w h :
  SysInv st pf pb d -> frame_top (sys_arena st) (sys_front st) -> winch_grows st w h ->
  exists st', sigwinch st w h = Ok st' /\
    SysInv st' (mem_used (sys_arena st) + w * h * GLYPH_SIZE) (mem_used (sys_arena st)) d /\
    frame_top (sys_arena st') (sys_front st') /\
    sys_ed st' = sys_ed st /\ sys_in st' = sys_in st /\
    elems (sys_arena st') (region (sys_ed st)) = elems (sys_arena st) (region (sys_ed st)) /\
    width (sys_back st') = w /\ height (sys_back st') = h.
Proof.
  intros Hinv Htop (Hw & Hh & Hgrow & Hcap & Htext).
  destruct Hinv as [Hpf Hpb Hd Hwf Hfw Hbw Hwd Hhd Hdisj Hbelow Hrw _ _ Hev Hg _].
  unfold frame_top in Htop. unfold frame_wf in Hfw, Hbw. rewrite Hpf in Htop, Hfw. rewrite Hpb in Hbw.
  assert (Hsz : frame_buf_size (sys_front st) = frame_buf_size (sys_back st))
    by (unfold frame_buf_size; congruence).
  assert (Hn : 0 <= frame_buf_size (sys_back st)) by (unfold frame_buf_size, GLYPH_SIZE in *; nia).
  assert (HnN : frame_buf_size (sys_back st) < w * h * GLYPH_SIZE)
    by (unfold frame_buf_size, GLYPH_SIZE; lia).
  rewrite Hsz in Htop.
  unfold sigwinch, frame_resize_all, frame_resize. rewrite Hpb, Hpf, Hsz.
  change (frame_buf_size (mkFrame ?g w h)) with (w * h * GLYPH_SIZE).
  rewrite (realloc_moves _ pb) by (done || lia). cbn [res_bind fst snd].
  rewrite (realloc_moves _ pf); [|apply bump_wf; [done|lia|lia]|lia|rewrite mem_used_bump; lia..].
  cbn [res_bind fst snd]. eexists. split; [reflexivity|]. rewrite mem_used_bump.
  split; [apply fresh_frames_inv; try done; try lia|].
  - unfold array_wf in Hrw. rewrite Hd in Hrw. lia.
  - by apply term_run_clear_home.
  - cbn [sys_arena sys_front sys_back sys_ed sys_in glyphs width height].
    split_and!; try done.
Qed.

(** The invariant of a run: every state a run of iterations and growing
    resizes reaches from a state of the invariant whose [front] is the
    last block is again one, for some blocks, with the same editor and
    the same text. *)
Lemma run_inv fuel st0 st pf0 pb0 d :
  (5 <= fuel)%nat -> SysInv st0 pf0 pb0 d -> frame_top (sys_arena st0) (sys_front st0) ->
  rtc (sys_step fuel) st0 st ->
  exists pf pb, SysInv st pf pb d /\ frame_top (sys_arena st) (sys_front st) /\
    sys_ed st = sys_ed st0 /\
    elems (sys_arena st) (region (sys_ed st0)) = elems (sys_arena st0) (region (sys_ed st0)).
Proof.
  intros Hf H0 T0. revert st. apply rtc_ind_r; [by exists pf0, pb0|].
  intros st st' _ Hstep IH.
  destruct IH as (pf & pb & Hinv & Htop & Hed & Hel). rewrite <- Hed in Hel |- *.
  destruct Hstep as [st c st' _ E|st w h st' _ Hg E].
  - destruct (main_iter_spec fuel st c st' pf pb d Hinv Hf E) as (Hinv' & Hed' & Hfr & _ & Hel' & Hu & _).
    exists pf, pb. split_and!; [done| |congruence|by rewrite Hel'].
    unfold frame_top in *. by rewrite Hfr, Hu.
  - destruct (sigwinch_grow st pf pb d w h Hinv Htop Hg) as (st1 & E1 & Hinv' & Htop' & Hed' & _ & Hel' & _).
    rewrite E in E1. apply Ok_inj in E1 as ->. eexists _, _. split_and!; [done..|congruence|by rewrite Hel'].
Qed.

Lemma sigwinch_in st w h st' : sigwinch st w h = Ok st' -> sys_in st' = sys_in st.
Proof. unfold sigwinch. destruct (frame_resize_all _ _ _ _ _); simpl; try done. by intros <-%Ok_inj. Qed.

(** An interrupted [read] leaves the state [editor_frame] and [display]
    left. *)
Lemma main_iter_eintr fuel st st1 :
  frame_and_display fuel st = Ok st1 -> main_iter fuel st eintr = Ok st1.
Proof. intros E. unfold main_iter. rewrite E. cbn. by destruct st1. Qed.

(** A run of the loop whose resizes all grow is a run of [sys_step]
    ending with [should_close] set. *)
Lemma wake_loop_run fuel st ks st' :
  wake_loop fuel st ks = Ok st' -> grows_along fuel st ks = true ->
  rtc (sys_step fuel) st st' /\ should_close (sys_in st') = true.
Proof.
  revert st. induction ks as [|k ks IH]; intros st; cbn [wake_loop grows_along].
  all: destruct (should_close (sys_in st)) eqn:Hc; [intros <-%Ok_inj _; by split|].
  - done.
  - destruct k as [c|w h]; cbn [wake_iter].
    + destruct (main_iter fuel st c) as [st1| |] eqn:E; cbn [res_bind]; try done.
      intros Hl Hg. destruct (IH st1 Hl Hg) as [R Hc']. split; [|done].
      eapply rtc_l; [by eapply step_iter|done].
    + destruct (frame_and_display fuel st) as [st1| |] eqn:F; cbn [res_bind]; try done.
      destruct (sigwinch st1 w h) as [st2| |] eqn:S; try done.
      intros Hl [Hg%winch_growsb_spec Hg']%andb_true_iff. destruct (IH st2 Hl Hg') as [R Hc'].
      split; [|done]. eapply rtc_l; [eapply step_iter; [done|by apply main_iter_eintr]|].
      eapply rtc_l; [|done]. apply (step_winch _ _ w h); [|done..].
      by rewrite (frame_and_display_close _ _ _ F).
Qed.

(** A run that ends with [should_close] set ends with an iteration, and
    the terminal shows the text in the current window. *)
Lemma run_shown fuel st0 st pf0 pb0 d :
  (5 <= fuel)%nat -> SysInv st0 pf0 pb0 d -> frame_top (sys_arena st0) (sys_front st0) ->
  should_close (sys_in st0) = false -> rtc (sys_step fuel) st0 st -> should_close (sys_in st) = true ->
  forall row col, 0 <= row < height (sys_back st) -> 0 <= col < width (sys_back st) ->
    screen_ok (sys_ed st0) (elems (sys_arena st0) (region (sys_ed st0))) (t_scr (sys_term st) row col) row col.
Proof.
  intros Hf H0 T0 Hc0 Hrun Hc. apply rtc_inv_r in Hrun as [<-|(st1 & R & Hstep)]; [congruence|].
  destruct (run_inv fuel st0 st1 pf0 pb0 d Hf H0 T0 R) as (pf & pb & Hinv & _ & Hed & Hel).
  destruct Hstep as [st1 c st _ E|st1 w h st Hc1 _ E].
  - destruct (main_iter_spec fuel st1 c st pf pb d Hinv Hf E) as (_ & _ & _ & Hbk & _ & _ & Hs).
    intros row col Hr Hcl. rewrite <- Hel, <- Hed. apply Hs; by rewrite <- Hbk.
  - rewrite (sigwinch_in _ _ _ _ E) in Hc. congruence.
Qed.

(** ** The program's correctness across resizes *)

(** C2: [main] refines "show the file" in the window it has: on a file
    that decodes and a window the text fits, after any run of loop
    iterations and [SIGWINCH]es to windows of larger area the text fits,
    [editor_frame] and [display] return and leave the terminal showing
    the normalised text of the file in the current window, one line per
    row, with the cursor colours at the cursor and spaces on the default
    background elsewhere; and when the loop over reads and such resizes
    ends, the terminal shows the text in the window of that moment. *)
Theorem main_refines_winch fuel fs src cps w h t0 st0 :
  start_ok fuel fs src cps w h t0 -> main_start fuel fs w h t0 = Ok st0 ->
  (forall st, rtc (sys_step fuel) st0 st ->
     exists st1, frame_and_display fuel st = Ok st1 /\
       forall row col, 0 <= row < height (sys_back st) -> 0 <= col < width (sys_back st) ->
         screen_ok (sys_ed st0) (norm_lines false cps) (t_scr (sys_term st1) row col) row col) /\
  (forall ks st', wake_loop fuel st0 ks = Ok st' -> grows_along fuel st0 ks = true ->
     should_close (sys_in st') = true /\
     forall row col, 0 <= row < height (sys_back st') -> 0 <= col < width (sys_back st') ->
       screen_ok (sys_ed st0) (norm_lines false cps) (t_scr (sys_term st') row col) row col).
Proof.
  intros Hok E. pose proof Hok as (_ & _ & _ & _ & _ & Hf5 & _).
  destruct (start_inv _ _ _ _ _ _ _ _ Hok E) as (pf0 & pb0 & d & H0 & Hel0 & _ & _ & T0).
  rewrite <- Hel0. split.
  - intros st Hrun. destruct (run_inv fuel st0 st pf0 pb0 d Hf5 H0 T0 Hrun) as (pf & pb & Hinv & _ & Hed & Hel).
    destruct (frame_and_display_spec fuel st _ _ _ Hinv Hf5)
      as (st1 & E1 & _ & _ & _ & _ & _ & _ & _ & _ & Hs).
    exists st1. split; [done|]. intros row col Hr Hc. rewrite <- Hel, <- Hed. by apply Hs.
  - intros ks st' Hl Hg. destruct (wake_loop_run _ _ _ _ Hl Hg) as [R Hc]. split; [done|].
    apply (run_shown fuel st0 st' pf0 pb0 d); try done. by rewrite (main_start_input _ _ _ _ _ _ E).
Qed.

(** The file "ab\nc" in a window of 3 x 2 grown to 4 x 3, then ['q']. *)
Lemma main_refines_winch_witness :
  exists st0 st', main_start 6 (ex_fs ex_src true) 3 2 ex_term = Ok st0 /\
    wake_loop 6 st0 [Winch 4 3; Read ex_quit] = Ok st' /\
    grows_along 6 st0 [Winch 4 3; Read ex_quit] = true /\
    width (sys_back st') = 4 /\ height (sys_back st') = 3 /\
    (forall st, rtc (sys_step 6) st0 st ->
       exists st1, frame_and_display 6 st = Ok st1 /\
         forall row col, 0 <= row < height (sys_back st) -> 0 <= col < width (sys_back st) ->
           screen_ok (sys_ed st0) (norm_lines false ex_src) (t_scr (sys_term st1) row col) row col) /\
    (forall ks st', wake_loop 6 st0 ks = Ok st' -> grows_along 6 st0 ks = true ->
       should_close (sys_in st') = true /\
       forall row col, 0 <= row < height (sys_back st') -> 0 <= col < width (sys_back st') ->
         screen_ok (sys_ed st0) (norm_lines false ex_src) (t_scr (sys_term st') row col) row col).
Proof.
  assert (H : match main_start 6 (ex_fs ex_src true) 3 2 ex_term with
    | Ok st0 => match wake_loop 6 st0 [Winch 4 3; Read ex_quit] with
      | Ok st' => Some (grows_along 6 st0 [Winch 4 3; Read ex_quit], width (sys_back st'), height (sys_back st'))
      | _ => None end
    | _ => None end = Some (true, 4, 3)) by (vm_compute; reflexivity).
  destruct (main_start _ _ _ _ _) as [st0| |] eqn:E0; [|discriminate H..].
  destruct (wake_loop 6 st0 _) as [st'| |] eqn:E; [|discriminate H..].
  injection H as Hg Hw Hh.
  exists st0, st'. split; [reflexivity|]. do 4 (split; [assumption|]).
  exact (main_refines_winch 6 (ex_fs ex_src true) ex_src ex_src 3 2 ex_term st0 ex_start_ok E0).
Defined.

Lemma sigwinch_no_grow_witness :
  exists st0 pf pb, main_start 6 (ex_fs ex_src true) 3 2 ex_term = Ok st0 /\
    sigwinch st0 3 2 =
      Ok (mkSys (sys_arena st0) (sys_ed st0) (mkFrame (Some pf) 3 2) (mkFrame (Some pb) 3 2)
                (sys_in st0) (term_run (sys_term st0) (ESC_CLEAR ++ ESC_HOME))).
Proof.
  assert (H : match main_start 6 (ex_fs ex_src true) 3 2 ex_term with Ok _ => true | _ => false end = true)
    by (vm_compute; reflexivity).
  destruct (main_start _ _ _ _ _) as [st0| |] eqn:E0; [|discriminate H..].
  destruct (start_inv _ _ _ _ _ _ _ _ ex_start_ok E0) as (pf & pb & d & H0 & _ & Hw & Hh & _).
  exists st0, pf, pb. split; [reflexivity|].
  apply (sigwinch_no_grow st0 pf pb d 3 2 H0). rewrite Hw, Hh. lia.
Defined.






End Resize.
