(* ===== verification/Process.v ===== *)
(** * The process: terminal set-up, the loop, and the restore at exit
    (src/red_linux.cpp: [check_if_term], [term_setup], [signal_setup],
    [reset_term_state] in [main])

    [main] calls [editor_init], checks that stdin and stdout are
    terminals (exit status 1 otherwise), puts the terminal in
    non-canonical, non-echoing mode ([term_setup]), installs the
    [SIGWINCH] handler ([signal_setup]), runs the loop of Resize.v, and at
    the label [reset_term_state] leaves the alternate screen, shows the
    cursor and restores whichever of the signal action and the terminal
    attributes it had changed.  A failed set-up jumps to that label.

    The operating system's answers ([isatty], [tcgetattr], [tcsetattr],
    [sigaction]) are the fields of [OsEnv]; what the process changes in
    its environment is [Proc]: the terminal's attributes (a [Termios]
    with the [c_lflag] bits and [c_cc] slots of Linux), the [SIGWINCH]
    disposition, the bytes written to stderr and the terminal of
    Terminal.v.

    Proved here: on every path by which [main] returns, the terminal's
    attributes and the signal disposition are those it found; in between,
    the terminal is non-canonical and does not echo, with every other
    [c_lflag] bit kept; [main] exits with status 0 when the set-up of the
    terminal fails; a process whose stdin is not a terminal exits with
    status 1 and writes nothing to the terminal. *)

From Stdlib Require Import ZArith Lia List String.
From stdpp Require Import base list strings.
From S2P Require Import Prelude Input Arena Array Loader Storage Terminal Frame Render Editor System Resize.
Import ListNotations.
Local Open Scope Z_scope.

Module Process.
Import Input Arena Loader Storage Terminal Frame Render Editor System Resize.

(** ** Data *)

(** The [c_lflag] bits and the [c_cc] slot [term_setup] uses (Linux:
    [ICANON] 0000002, [ECHO] 0000010, [VMIN] 6, [NCCS] 32). *)
Definition ICANON : Z := 2.
Definition ECHO : Z := 8.
Definition VMIN : nat := 6.
Definition NCCS : nat := 32.

(** [struct termios]. *)
Record Termios := mkTermios {
  c_iflag : Z;
  c_oflag : Z;
  c_cflag : Z;
  c_lflag : Z;
  c_cc : list Z }.

(** [ESC_ALT_OFF], [ESC_CURSOR_ON]. *)
Definition ESC_ALT_OFF : list Z := 27 :: bytes "[?1049l"%string.
Definition ESC_CURSOR_ON : list Z := 27 :: bytes "[25h"%string.

(** The [SIGWINCH] action: the one the process started with, or
    [sigwinch_handler]. *)
Inductive SigDisp := Sig_initial | Sig_red.

(** The answers of the system calls: whether stdin and stdout are
    terminals, and whether [tcgetattr], [tcsetattr] and [sigaction]
    succeed. *)
Record OsEnv := mkOsEnv {
  os_isatty_in : bool;
  os_isatty_out : bool;
  os_tcgetattr_ok : bool;
  os_tcsetattr_ok : bool;
  os_sigaction_ok : bool }.

(** What the process changes around it. *)
Record Proc := mkProc {
  pr_tty : Termios;
  pr_sig : SigDisp;
  pr_err : list Z;
  pr_term : Term }.

Definition with_tty (p : Proc) (t : Termios) : Proc := mkProc t (pr_sig p) (pr_err p) (pr_term p).
Definition with_sig (p : Proc) (d : SigDisp) : Proc := mkProc (pr_tty p) d (pr_err p) (pr_term p).
Definition with_term (p : Proc) (t : Term) : Proc := mkProc (pr_tty p) (pr_sig p) (pr_err p) t.
Definition write_err (p : Proc) (s : list Z) : Proc :=
  mkProc (pr_tty p) (pr_sig p) (pr_err p ++ s) (pr_term p).

(** ** Set-up and restore *)

(** [static bool check_if_term(void)]. *)
Definition check_if_term (env : OsEnv) (p : Proc) : bool * Proc :=
  if negb (os_isatty_in env) then (false, write_err p (bytes "error: stdin is not a terminal"%string ++ [10]))
  else if negb (os_isatty_out env) then (false, write_err p (bytes "error: stdout is not a terminal"%string ++ [10]))
  else (true, p).

(** [termios.c_lflag &= ~ICANON; termios.c_lflag &= ~ECHO;
    memset(termios.c_cc, 0, sizeof(termios.c_cc)); termios.c_cc[VMIN] = 1;] *)
Definition raw_attrs (t : Termios) : Termios :=
  mkTermios (c_iflag t) (c_oflag t) (c_cflag t)
    (Z.land (Z.land (c_lflag t) (Z.lnot ICANON)) (Z.lnot ECHO))
    (<[VMIN := 1]> (repeat 0 NCCS)).

(** [static bool term_setup(struct termios *termios_old)]: the result,
    [*termios_old] (the attributes [tcgetattr] read; when it fails the
    variable is left unset, and [main] does not use it) and the process
    after the call. *)
Definition term_setup (env : OsEnv) (p : Proc) : bool * Termios * Proc :=
  let old := pr_tty p in
  if negb (os_tcgetattr_ok env) then (false, old, p)
  else if negb (os_tcsetattr_ok env) then (false, old, p)
  else (true, old, with_tty p (raw_attrs old)).

(** [static bool signal_setup(struct sigaction *oldact)]. *)
Definition signal_setup (env : OsEnv) (p : Proc) : bool * Proc :=
  if os_sigaction_ok env then (true, with_sig p Sig_red) else (false, p).

(** The code after the label [reset_term_state]. *)
Definition reset_term_state (sig_init term_init : bool) (old : Termios) (p : Proc) : Proc :=
  let p1 := with_term p (term_run (pr_term p) (ESC_ALT_OFF ++ ESC_CURSOR_ON)) in
  let p2 := if sig_init then with_sig p1 Sig_initial else p1 in
  if term_init then with_tty p2 old else p2.

(** [int main(void)] for a window of [w] x [h], the file system [fs] and
    the wake-ups [ks] of the loop's [read] (chunks read, or [SIGWINCH]es
    handled by [sigwinch_handler], installed by then): the exit status
    and the process at exit.  The loop runs out of fuel when the
    wake-ups run out before ['q']. *)
Definition main_prog (fuel : nat) (env : OsEnv) (fs : PosixFS) (w h : Z) (ks : list Wake)
    (p0 : Proc) : res (Z * Proc) :=
  let* r := editor_init fuel arena_init fs in
  let '(ok, p1) := check_if_term env p0 in
  if negb ok then Ok (1, p1) else
  let '(tok, old, p2) := term_setup env p1 in
  if negb tok then Ok (0, reset_term_state false false old p2) else
  let '(sok, p3) := signal_setup env p2 in
  if negb sok then Ok (0, reset_term_state false true old p3) else
  let* st0 := main_screen r w h (pr_term p3) in
  let* st := wake_loop fuel st0 ks in
  Ok (0, reset_term_state true true old (with_term p3 (sys_term st))).

(** ** Lemmas *)

Lemma check_if_term_tty env p ok p' :
  check_if_term env p = (ok, p') -> pr_tty p' = pr_tty p /\ pr_sig p' = pr_sig p.
Proof. unfold check_if_term. by repeat case_match; intros [= <- <-]. Qed.

Lemma term_setup_old env p ok old p' :
  term_setup env p = (ok, old, p') ->
  old = pr_tty p /\ pr_sig p' = pr_sig p /\ (ok = false -> pr_tty p' = pr_tty p).
Proof. unfold term_setup. by repeat case_match; intros [= <- <- <-]. Qed.

Lemma signal_setup_tty env p ok p' :
  signal_setup env p = (ok, p') -> pr_tty p' = pr_tty p /\ (ok = false -> pr_sig p' = pr_sig p).
Proof. unfold signal_setup. by case_match; intros [= <- <-]. Qed.

Lemma reset_tty si ti old p :
  pr_tty (reset_term_state si ti old p) = if ti then old else pr_tty p.
Proof. by destruct si, ti. Qed.

Lemma reset_sig si ti old p :
  pr_sig (reset_term_state si ti old p) = if si then Sig_initial else pr_sig p.
Proof. by destruct si, ti. Qed.

Lemma Ok_pair_inj {A B} (a c : A) (b d : B) : Ok (a, b) = Ok (c, d) -> a = c /\ b = d.
Proof. intros H. by injection H as -> ->. Qed.

(** ** Properties *)

(** C12: [main] leaves the terminal as it found it: on every path by
    which it returns (not a terminal, a failed [tcgetattr], [tcsetattr]
    or [sigaction], or the end of the loop), the terminal's attributes
    and the [SIGWINCH] action are the ones the process started with. *)
Theorem main_restores fuel env fs w h ks p0 code p :
  pr_sig p0 = Sig_initial ->
  main_prog fuel env fs w h ks p0 = Ok (code, p) -> pr_tty p = pr_tty p0 /\ pr_sig p = pr_sig p0.
Proof.
  intros Hs0. unfold main_prog.
  destruct (editor_init fuel arena_init fs) as [r| |]; cbn [res_bind]; try discriminate.
  destruct (check_if_term env p0) as [ok p1] eqn:E1.
  destruct (check_if_term_tty _ _ _ _ E1) as [T1 S1].
  destruct ok; cbn [negb]; [|by intros [_ <-]%Ok_pair_inj].
  destruct (term_setup env p1) as [[tok old] p2] eqn:E2.
  destruct (term_setup_old _ _ _ _ _ E2) as (-> & S2 & T2).
  destruct tok; cbn [negb].
  2: { intros [_ <-]%Ok_pair_inj. specialize (T2 eq_refl). rewrite reset_tty, reset_sig. split; simpl; congruence. }
  destruct (signal_setup env p2) as [sok p3] eqn:E3.
  destruct (signal_setup_tty _ _ _ _ E3) as [T3 S3].
  destruct sok; cbn [negb].
  2: { intros [_ <-]%Ok_pair_inj. specialize (S3 eq_refl). rewrite reset_tty, reset_sig. split; simpl; congruence. }
  destruct (main_screen _ _ _ _); cbn [res_bind]; try discriminate.
  destruct (wake_loop _ _ _); cbn [res_bind]; try discriminate.
  intros [_ <-]%Ok_pair_inj. rewrite reset_tty, reset_sig. split; simpl; congruence.
Qed.

(** C34: while the loop runs the terminal is in the mode [term_setup]
    asks for: canonical input ([ICANON], bit 1) and echo ([ECHO], bit 3)
    are off, every other bit of [c_lflag] is as it was, and the read
    returns after one byte ([c_cc[VMIN]] = 1, every other slot 0). *)
Theorem term_setup_raw env p old p' :
  term_setup env p = (true, old, p') ->
  old = pr_tty p /\
  (forall n, 0 <= n ->
     Z.testbit (c_lflag (pr_tty p')) n =
       if (n =? 1) || (n =? 3) then false else Z.testbit (c_lflag (pr_tty p)) n) /\
  (forall i, (i < NCCS)%nat -> nth i (c_cc (pr_tty p')) 0 = if (i =? VMIN)%nat then 1 else 0).
Proof.
  unfold term_setup. destruct (os_tcgetattr_ok env), (os_tcsetattr_ok env); try discriminate.
  intros [= <- <-]. split; [done|]. cbn [pr_tty with_tty raw_attrs c_lflag c_cc]. split.
  - intros n Hn. rewrite !Z.land_spec, !Z.lnot_spec by done. unfold ICANON, ECHO.
    change 2 with (2 ^ 1). change 8 with (2 ^ 3). rewrite !Z.pow2_bits_eqb by lia.
    destruct (Z.eqb_spec 1 n), (Z.eqb_spec n 1), (Z.eqb_spec 3 n), (Z.eqb_spec n 3);
      subst; try lia; cbn [negb orb]; by rewrite ?andb_true_r, ?andb_false_r.
  - intros i Hi. unfold NCCS, VMIN in *.
    do 32 (destruct i as [|i]; [reflexivity|]). lia.
Qed.


(** C36: a failed set-up of the terminal is reported as success: when
    stdin and stdout are terminals but [tcgetattr], [tcsetattr] or
    [sigaction] fails, [main] jumps to [reset_term_state] and returns 0. *)
Theorem main_setup_fail_status fuel env fs w h ks p0 r :
  editor_init fuel arena_init fs = Ok r ->
  os_isatty_in env = true -> os_isatty_out env = true ->
  os_tcgetattr_ok env && os_tcsetattr_ok env && os_sigaction_ok env = false ->
  exists p, main_prog fuel env fs w h ks p0 = Ok (0, p).
Proof.
  intros Hi Hin Hout Hf. unfold main_prog. rewrite Hi. cbn [res_bind].
  unfold check_if_term. rewrite Hin, Hout. cbn [negb].
  unfold term_setup, signal_setup.
  destruct (os_tcgetattr_ok env), (os_tcsetattr_ok env), (os_sigaction_ok env);
    try discriminate; cbn [negb]; eauto.
Qed.

(** Without a terminal on stdin or stdout [main] writes its message to
    stderr and exits with status 1; the terminal, its attributes and the
    signal action are untouched. *)
Lemma main_not_a_terminal fuel env fs w h ks p0 r :
  editor_init fuel arena_init fs = Ok r ->
  os_isatty_in env && os_isatty_out env = false ->
  exists msg, main_prog fuel env fs w h ks p0 =
    Ok (1, mkProc (pr_tty p0) (pr_sig p0) (pr_err p0 ++ msg) (pr_term p0)).
Proof.
  intros Hi Htty. unfold main_prog. rewrite Hi. cbn [res_bind].
  unfold check_if_term.
  destruct (os_isatty_in env), (os_isatty_out env); try discriminate; cbn [negb]; eauto.
Qed.

(** ** Examples *)

(** A terminal in canonical mode with echo (and [ISIG], bit 0), a
    process that has not touched [SIGWINCH], and a system where every
    call succeeds. *)
Definition ex_attrs : Termios := mkTermios 0 0 0 (ICANON + ECHO + 1) (repeat 0 NCCS).
Definition ex_proc : Proc := mkProc ex_attrs Sig_initial [] ex_term.
Definition env_ok : OsEnv := mkOsEnv true true true true true.

Lemma main_restores_witness :
  exists code p, main_prog 6 env_ok (ex_fs ex_src true) 3 2 [Read ex_quit] ex_proc = Ok (code, p) /\
    pr_tty p = pr_tty ex_proc /\ pr_sig p = pr_sig ex_proc.
Proof.
  destruct (main_prog 6 env_ok (ex_fs ex_src true) 3 2 [Read ex_quit] ex_proc) as [[code p]| |] eqn:E;
    [|vm_compute in E; discriminate|vm_compute in E; discriminate].
  exists code, p. split; [reflexivity|]. exact (main_restores 6 env_ok (ex_fs ex_src true) 3 2 [Read ex_quit] ex_proc code p eq_refl E).
Defined.

Lemma term_setup_raw_witness :
  exists old p', term_setup env_ok ex_proc = (true, old, p') /\
  old = pr_tty ex_proc /\
  (forall n, 0 <= n ->
     Z.testbit (c_lflag (pr_tty p')) n =
       if (n =? 1) || (n =? 3) then false else Z.testbit (c_lflag (pr_tty ex_proc)) n) /\
  (forall i, (i < NCCS)%nat -> nth i (c_cc (pr_tty p')) 0 = if (i =? VMIN)%nat then 1 else 0).
Proof.
  do 2 eexists. split; [reflexivity|]. apply (term_setup_raw env_ok ex_proc). reflexivity.
Defined.

Lemma main_setup_fail_status_witness :
  exists p, main_prog 6 (mkOsEnv true true false true true) (ex_fs ex_src true) 3 2 [] ex_proc = Ok (0, p).
Proof.
  destruct (editor_init 6 arena_init (ex_fs ex_src true)) as [r| |] eqn:E;
    [|vm_compute in E; discriminate|vm_compute in E; discriminate].
  apply (main_setup_fail_status _ _ _ _ _ _ _ r E); reflexivity.
Defined.

End Process.
